(** * Tracing bootstrap of the telemetry plugin: [lib/tracing/index.js]

    A shallow embedding of the module that assembles the tracing pipeline
    (sampler, propagator, instrumentations, exporter) and registers the
    process-wide tracer provider, followed by the properties the
    specification states about it.

    Conventions of the embedding:
    - JavaScript objects that the code mutates or aliases (the exporter
      configuration, its [headers] object, the credential bundles) live in
      an explicit store of objects addressed by references;
    - everything the module does to the outside world (constructing SDK
      objects, logging, registering) is recorded, in order, in an event
      trace carried by the state;
    - [throw new Error(msg)] is the [Throw msg] outcome of the monad [M];
      the state reached at the moment of the throw is kept;
    - the OpenTelemetry SDK is an external collaborator: objects built with
      [new] are described by what they were built from, and what they do
      when called is a parameter of the statements that need it;
    - a module is the object that [require] returns: a lookup [m[name]]
      finds the exports of the module and, behind them, what every object
      inherits from [Object.prototype]; [new] on what was found can fail;
    - the classes that the module imports by name ([NodeTracerProvider],
      [Resource], the two span processors, [CompositePropagator]) and the
      functions it calls on them construct and return. *)

From stdpp Require Import gmap strings list fin_maps.
From Stdlib Require Import QArith.

Local Close Scope Q_scope.

(* ===================================================================== *)
(** ** Strings: [startsWith] and matching against a literal pattern *)
(* ===================================================================== *)

(** [s.startsWith(p)] *)
Fixpoint startsWith (s p : string) {struct p} : bool :=
  match p with
  | EmptyString => true
  | String c p' =>
      match s with
      | EmptyString => false
      | String d s' => if Ascii.eqb c d then startsWith s' p' else false
      end
  end.

(** [s.match(/p/)] for a pattern [p] without metacharacters, used as a
    condition: true exactly when [p] occurs somewhere in [s]. *)
Fixpoint includes (s p : string) : bool :=
  startsWith s p ||
  match s with
  | EmptyString => false
  | String _ s' => includes s' p
  end.

(* ===================================================================== *)
(** ** JavaScript values and the object store *)
(* ===================================================================== *)

Definition loc := nat.

(** The values that occur in the exporter configuration and in the
    credential bundles. A property that is missing reads as [VUndef].
    [VNative text] is a function or object of the runtime that a lookup
    finds on [Object.prototype]; [text] is what it converts to in a
    template literal. *)
Inductive val :=
| VUndef
| VNull
| VStr (s : string)
| VRef (l : loc)
| VNative (text : string).

#[global] Instance val_eq_dec : EqDecision val.
Proof. solve_decision. Defined.

Abbreviation obj := (gmap string val).
Abbreviation heap := (gmap loc obj).

(** [v] counts as true in a condition *)
Definition truthy (v : val) : bool :=
  match v with
  | VUndef | VNull => false
  | VStr s => negb (String.eqb s EmptyString)
  | VRef _ => true
  | VNative _ => true
  end.

(** [v == null], the test behind [??=] and [?.] *)
Definition nullish (v : val) : bool :=
  match v with
  | VUndef | VNull => true
  | _ => false
  end.

(** [a || b] *)
Definition js_or (a b : val) : val := if truthy a then a else b.

(** Interpolation of a value in a template literal. *)
Definition to_string (v : val) : string :=
  match v with
  | VUndef => "undefined"
  | VNull => "null"
  | VStr s => s
  | VRef _ => "[object Object]"
  | VNative text => text
  end.

(** The functions that every object inherits from [Object.prototype],
    next to [constructor] and [__proto__]. *)
Definition object_methods : list string :=
  ["__defineGetter__"; "__defineSetter__"; "hasOwnProperty";
   "__lookupGetter__"; "__lookupSetter__"; "isPrototypeOf";
   "propertyIsEnumerable"; "toString"; "valueOf"; "toLocaleString"].

(** [Object.prototype[k]]: the function [Object] under [constructor],
    the prototype object itself under [__proto__], a method under the
    name of a method, and nothing under any other name. *)
Definition inherited_val (k : string) : val :=
  if String.eqb k "constructor" then
    VNative "function Object() { [native code] }"
  else if String.eqb k "__proto__" then VNative "[object Object]"
  else if bool_decide (k ∈ object_methods) then
    VNative ("function " +:+ k +:+ "() { [native code] }")
  else VUndef.

(** [o.k] for the object stored at [l] and a name [k] that
    [Object.prototype] does not have: every name that the module writes
    out ([url], [headers], [authorization], [credentials], [apiurl],
    [rest_apitoken], [token]). *)
Definition get_prop (h : heap) (l : loc) (k : string) : val :=
  match h !! l with
  | Some o => default VUndef (o !! k)
  | None => VUndef
  end.

(** [o[k]] for the object stored at [l] and a name [k] that is computed:
    the own property when there is one, and what [Object.prototype] has
    under that name otherwise. *)
Definition get_computed (h : heap) (l : loc) (k : string) : val :=
  match h !! l with
  | Some o => default (inherited_val k) (o !! k)
  | None => VUndef
  end.

(** [v.k] where [v] is not nullish: a string has none of the properties
    read by this module. *)
Definition get_val_prop (h : heap) (v : val) (k : string) : val :=
  match v with
  | VRef l => get_prop h l k
  | _ => VUndef
  end.

(** [v?.k] *)
Definition get_opt_prop (h : heap) (v : val) (k : string) : val :=
  if nullish v then VUndef else get_val_prop h v k.

(** [o.k = x] for the object stored at [l] *)
Definition set_prop (h : heap) (l : loc) (k : string) (x : val) : heap :=
  match h !! l with
  | Some o => <[l := <[k := x]> o]> h
  | None => h
  end.

(** [o.k ??= x] for the object stored at [l] *)
Definition nullish_assign (h : heap) (l : loc) (k : string) (x : val) : heap :=
  if nullish (get_prop h l k) then set_prop h l k x else h.

(** A reference that is not in use. *)
Definition fresh_loc (h : heap) : loc := fresh (dom h : gset loc).

(** [{ ...o }] for a fresh object with the own properties [o] *)
Definition alloc (h : heap) (o : obj) : loc * heap :=
  let l := fresh_loc h in (l, <[l := o]> h).

(** The properties copied by a spread of the object stored at [l]. *)
Definition own_props (h : heap) (l : loc) : obj := default ∅ (h !! l).

(* ===================================================================== *)
(** ** Configuration and environment *)
(* ===================================================================== *)

(** [config] of a propagator or instrumentation entry. The only member
    this module reads is [ignoreIncomingPaths]; it is [None] when the
    member is missing or is not an array. *)
Record CapConfig := {
  ignoreIncomingPaths : option (list string);
  cc_other : gmap string string
}.

Definition empty_config : CapConfig :=
  {| ignoreIncomingPaths := None; cc_other := ∅ |}.

(** [{ module, class, config }] *)
Record ModuleClass := {
  mc_module : string;
  mc_class : string;
  mc_config : option CapConfig
}.

(** An entry of [tracing.propagators]: either a string or a
    [{ module, class, config }] object. *)
Inductive PropagatorSpec :=
| Builtin (name : string)
| Custom (each : ModuleClass).

(** [tracing.sampler] *)
Record SamplerSpec := {
  kind : string;
  root : option string;
  ratio : option Q
}.

(** [tracing.exporter]; [config], when given, is a reference to the
    configuration object held by [cds.env]. *)
Record ExporterSpec := {
  ex_module : string;
  ex_class : string;
  ex_config : option loc
}.

(** [cds.env.requires.telemetry.tracing] *)
Record Tracing := {
  sampler : SamplerSpec;
  propagators : list PropagatorSpec;
  exporter : option ExporterSpec
}.

(** [cds.env.requires.telemetry]. [instrumentations] is taken to be an
    object, possibly without entries; the list keeps the order in which
    [Object.values] enumerates them. *)
Record Telemetry := {
  telemetry_kind : string;
  token_name : string;
  tracing : option Tracing;
  instrumentations : list (string * ModuleClass)
}.

(** What a lookup [m[name]] on a module can find: a class or another
    constructor, which either constructs or raises an error of its own
    when called with [new], or some other value, which counts as true or
    as false in a condition. *)
Inductive Member :=
| Constructor (raises : option string)
| Value (truthy : bool).

#[global] Instance Member_eq_dec : EqDecision Member.
Proof. solve_decision. Defined.

(** The exports of a module, by name: the own properties of the object
    that [require] returns, a plain object. *)
Abbreviation Module := (gmap string Member).

(** What [Object.prototype] has under [name], seen as a member:
    [constructor] is the constructor [Object], the other names are
    values that are not constructors. *)
Definition inherited_member (name : string) : option Member :=
  if String.eqb name "constructor" then Some (Constructor None)
  else if String.eqb name "__proto__" then Some (Value true)
  else if bool_decide (name ∈ object_methods) then Some (Value true)
  else None.

(** [m[name]]: the export of that name, or else what the module object
    inherits under that name; [None] is [undefined]. *)
Definition member (m : Module) (name : string) : option Member :=
  match m !! name with
  | Some x => Some x
  | None => inherited_member name
  end.

(** [m[name]] used as a condition. *)
Definition found (x : option Member) : bool :=
  match x with
  | Some (Constructor _) => true
  | Some (Value b) => b
  | None => false
  end.

(** Everything the bootstrap reads and does not change. *)
Record Env := {
  telemetry : Telemetry;
  (* process.env *)
  NODE_ENV : option string;
  DT_NODE_PRELOAD_OPTIONS : option string;
  TRACE_OKRA : option string;
  (* require('@opentelemetry/sdk-trace-base'), require('@opentelemetry/core') *)
  base : Module;
  core : Module;
  (* require('../exporter') *)
  local_exporter : Module;
  (* _require(name): the module, or the message of the error it throws *)
  _require : string -> Module + string;
  (* the helpers of '../utils' *)
  getDynatraceCredentials : option loc;
  getCloudLoggingCredentials : option loc;
  getDynatraceMetadata : option (gmap string string);
  (* LOG._debug, LOG._info, LOG._warn *)
  log_debug : bool;
  log_info : bool;
  log_warn : bool
}.

(** A variable of [process.env] used as a condition. *)
Definition env_set (v : option string) : bool :=
  match v with
  | Some s => negb (String.eqb s EmptyString)
  | None => false
  end.

(* ===================================================================== *)
(** ** SDK objects, described by their construction *)
(* ===================================================================== *)

(** [new base[kind](arg)] *)
Inductive SamplerInst :=
| NewSampler (cls : string) (arg : SamplerArg)
with SamplerArg :=
| NoArg
| NumberArg (q : Q)
| RootArg (r : SamplerInst).

(** [new module[class](config)] for a propagator or an instrumentation;
    a built-in propagator is constructed without an argument. *)
Record Instance := {
  inst_module : string;
  inst_class : string;
  inst_config : option CapConfig
}.

(** [new module[class](tracingConfig)]: the exporter keeps the reference
    to the configuration object it was given. *)
Record Exporter := {
  exp_module : string;
  exp_class : string;
  exp_config : loc
}.

Inductive SpanProcessor :=
| BatchSpanProcessor (e : Exporter)
| SimpleSpanProcessor (e : Exporter).

Inductive SamplingDecision := NOT_RECORD | RECORD | RECORD_AND_SAMPLED.

(** The result of [shouldSample]. *)
Record SamplingResult := {
  decision : SamplingDecision;
  sr_attributes : option (gmap string string);
  sr_traceState : option string
}.

(** The arguments of [shouldSample]. *)
Record SpanStart := {
  ss_traceId : string;
  ss_name : string;
  ss_attributes : option (gmap string string)
}.

(** The object returned by [_filterSampler]: the two values captured by
    its [shouldSample] method. *)
Record FilterSampler := {
  fs_shouldSample : SpanStart -> bool;
  fs_parent : SamplerInst
}.

(** A tracer provider: one built here has the composite sampler; one
    installed by another module has whatever that module gave it. *)
Record TracerProvider := {
  tp_resource : gmap string string;
  tp_sampler : option FilterSampler;
  tp_processors : list SpanProcessor
}.

Inductive LogLevel := Debug | Info | Warn.

(** What the module does to the outside world, in order. *)
Inductive Event :=
| EvLog (level : LogLevel) (msg : string)
| EvNewSampler (s : SamplerInst)
| EvNewPropagator (p : Instance)
| EvNewCompositePropagator (ps : list Instance)
| EvNewInstrumentation (i : Instance)
| EvNewProvider (id : nat)
| EvRegister (id : nat) (ps : list Instance)
| EvRegisterInstrumentations (id : nat) (insts : list Instance)
| EvNewExporter (e : Exporter)
| EvNewSpanProcessor (p : SpanProcessor)
| EvAddSpanProcessor (id : nat) (p : SpanProcessor)
| EvGetTracer (name : string)
| EvOnServed
| EvCapInstrumentation (name : string).

(** The mutable part of the process. *)
Record State := {
  st_heap : heap;
  (* the delegate of the proxy provider returned by trace.getTracerProvider() *)
  st_delegate : option nat;
  (* the tracer providers that exist, by identity *)
  st_providers : gmap nat TracerProvider;
  (* cds._telemetry.tracer: the provider the tracer was obtained from *)
  st_tracer : option nat;
  st_trace : list Event
}.

(* ===================================================================== *)
(** ** The monad of state and exceptions *)
(* ===================================================================== *)

Inductive Outcome (A : Type) :=
| Ok (a : A)
| Throw (msg : string).
Arguments Ok {A} a.
Arguments Throw {A} msg.

Definition M (A : Type) : Type := State -> Outcome A * State.

Definition ret {A} (a : A) : M A := fun s => (Ok a, s).

Definition throw {A} (msg : string) : M A := fun s => (Throw msg, s).

Definition bind {A B} (m : M A) (f : A -> M B) : M B :=
  fun s =>
    match m s with
    | (Ok a, s') => f a s'
    | (Throw msg, s') => (Throw msg, s')
    end.

Declare Scope m_scope.
Delimit Scope m_scope with M.
Notation "x <- m ;; k" := (bind m (fun x => k))
  (at level 100, m at next level, right associativity) : m_scope.
Notation "m ;; k" := (bind m (fun _ => k))
  (at level 100, right associativity) : m_scope.
Local Open Scope m_scope.

Definition get_state : M State := fun s => (Ok s, s).

Definition set_heap (h : heap) : M unit :=
  fun s => (Ok tt, {| st_heap := h; st_delegate := st_delegate s;
                      st_providers := st_providers s;
                      st_tracer := st_tracer s; st_trace := st_trace s |}).

Definition set_delegate (d : option nat) : M unit :=
  fun s => (Ok tt, {| st_heap := st_heap s; st_delegate := d;
                      st_providers := st_providers s;
                      st_tracer := st_tracer s; st_trace := st_trace s |}).

Definition set_providers (ps : gmap nat TracerProvider) : M unit :=
  fun s => (Ok tt, {| st_heap := st_heap s; st_delegate := st_delegate s;
                      st_providers := ps;
                      st_tracer := st_tracer s; st_trace := st_trace s |}).

Definition set_tracer (t : option nat) : M unit :=
  fun s => (Ok tt, {| st_heap := st_heap s; st_delegate := st_delegate s;
                      st_providers := st_providers s;
                      st_tracer := t; st_trace := st_trace s |}).

Definition emit (e : Event) : M unit :=
  fun s => (Ok tt, {| st_heap := st_heap s; st_delegate := st_delegate s;
                      st_providers := st_providers s;
                      st_tracer := st_tracer s; st_trace := st_trace s ++ [e] |}).

(** [flag && LOG.level(msg)] *)
Definition log (flag : bool) (level : LogLevel) (msg : string) : M unit :=
  if flag then emit (EvLog level msg) else ret tt.

(** A statement that only runs under a condition. *)
Definition when (b : bool) (m : M unit) : M unit := if b then m else ret tt.

(* ===================================================================== *)
(** ** [new] on what a lookup has found *)
(* ===================================================================== *)

(** The message of the [TypeError] that [new] raises when [expr] does
    not evaluate to a constructor. *)
Definition not_a_constructor (expr : string) : string :=
  expr +:+ " is not a constructor".

(** [new expr(...)] where [expr] has evaluated to [x] and the arguments
    have been evaluated: a constructor is called, and either constructs
    or raises its own error; anything else is a [TypeError]. What has been
    constructed is recorded by the caller. *)
Definition construct (expr : string) (x : option Member) : M unit :=
  match x with
  | Some (Constructor None) => ret tt
  | Some (Constructor (Some msg)) => throw msg
  | Some (Value _) | None => throw (not_a_constructor expr)
  end.

(* ===================================================================== *)
(** ** [_getSampler] *)
(* ===================================================================== *)

(** A property name or interpolated value that may be [undefined]. *)
Definition js_key (o : option string) : string := default "undefined" o.

(** [ratio || 0] *)
Definition ratio_or_0 (r : option Q) : Q :=
  match r with
  | Some q => if Qeq_bool q 0 then 0%Q else q
  | None => 0%Q
  end.

(** [instrumentations?.http?.config || {}], then its
    [ignoreIncomingPaths] member. *)
Definition http_ignoreIncomingPaths (t : Telemetry) : option (list string) :=
  match List.find (fun e => String.eqb (fst e) "http") (instrumentations t) with
  | Some (_, each) => ignoreIncomingPaths (default empty_config (mc_config each))
  | None => None
  end.

(** [attributes?.['http.originalUrl']] *)
Definition originalUrl (req : SpanStart) : option string :=
  ss_attributes req ≫= (λ a, a !! "http.originalUrl").

(** The function [_shouldSample] chosen by lines 15-24. *)
Definition _shouldSample (paths : option (list string)) : SpanStart -> bool :=
  match paths with
  | None => fun _ => true
  | Some [] => fun _ => true
  | Some ps =>
      fun req =>
        match originalUrl req with
        | None => true
        | Some originalUrl =>
            if String.eqb originalUrl EmptyString then true
            else negb (existsb (fun p => startsWith originalUrl p) ps)
        end
  end.

Definition _filterSampler (f : SpanStart -> bool) (parent : SamplerInst)
  : FilterSampler :=
  {| fs_shouldSample := f; fs_parent := parent |}.

(** The result [{ decision: SamplingDecision.NOT_RECORD }]. *)
Definition not_record : SamplingResult :=
  {| decision := NOT_RECORD; sr_attributes := None; sr_traceState := None |}.

(** The method [shouldSample] of the object built by [_filterSampler].
    [sdk] is what the samplers of the SDK answer. Next to the result, the
    calls made to [parent.shouldSample] are returned, so that one can say
    whether the delegate was consulted. *)
Definition shouldSample (sdk : SamplerInst -> SpanStart -> SamplingResult)
    (f : FilterSampler) (req : SpanStart)
  : SamplingResult * list (SamplerInst * SpanStart) :=
  if negb (fs_shouldSample f req) then (not_record, [])
  else (sdk (fs_parent f) req, [(fs_parent f, req)]).

(** [new base[cls](arg)], written [expr] in the source. *)
Definition new_sampler (base : Module) (expr cls : string) (arg : SamplerArg)
  : M SamplerInst :=
  construct expr (member base cls) ;;
  let s := NewSampler cls arg in
  emit (EvNewSampler s) ;; ret s.

(** [t] is [cds.env.requires.telemetry.tracing], which the caller has
    checked to be present. *)
Definition _getSampler (env : Env) (t : Tracing) : M FilterSampler :=
  let f := _shouldSample (http_ignoreIncomingPaths (telemetry env)) in
  let k := kind (sampler t) in
  let r := js_key (root (sampler t)) in
  if negb (found (member (base env) k)) then throw ("Unknown sampler " +:+ k)
  else
    parent <-
      (if String.eqb k "ParentBasedSampler" then
         if negb (found (member (base env) r)) then
           throw ("Unknown sampler " +:+ r)
         else
           rt <- new_sampler (base env) "base[root]" r
                   (NumberArg (ratio_or_0 (ratio (sampler t)))) ;;
           new_sampler (base env) "base[kind]" k (RootArg rt)
       else new_sampler (base env) "base[kind]" k NoArg) ;;
    ret (_filterSampler f parent).

(* ===================================================================== *)
(** ** [_getPropagator] and [_getInstrumentations] *)
(* ===================================================================== *)

(** A double quote, as it appears in the error messages. *)
Definition dq : string := String (Ascii.ascii_of_nat 34) EmptyString.

(** [Unknown <what> "<cls>" in module "<mod>"] *)
Definition unknown_in_module (what cls mod_ : string) : string :=
  "Unknown " +:+ what +:+ " " +:+ dq +:+ cls +:+ dq +:+ " in module "
    +:+ dq +:+ mod_ +:+ dq.

Definition require (env : Env) (name : string) : M Module :=
  match _require env name with
  | inl m => ret m
  | inr msg => throw msg
  end.

(** The body of a loop [for (const each of l) { ...; acc.push(y) }]. *)
Fixpoint for_each_push {A B} (body : A -> M B) (l : list A) (acc : list B)
  : M (list B) :=
  match l with
  | [] => ret acc
  | each :: l' => y <- body each ;; for_each_push body l' (acc ++ [y])
  end.

(** One round of the loop of [_getPropagator]. *)
Definition propagator_of (env : Env) (each : PropagatorSpec) : M Instance :=
  match each with
  | Builtin name =>
      if negb (found (member (core env) name)) then
        throw (unknown_in_module "propagator" name "@opentelemetry/core")
      else
        construct "core[each]" (member (core env) name) ;;
        let p := {| inst_module := "@opentelemetry/core"; inst_class := name;
                    inst_config := None |} in
        emit (EvNewPropagator p) ;; ret p
  | Custom each =>
      module <- require env (mc_module each) ;;
      if negb (found (member module (mc_class each))) then
        throw (unknown_in_module "propagator" (mc_class each) (mc_module each))
      else
        construct "module[each.class]" (member module (mc_class each)) ;;
        let p := {| inst_module := mc_module each; inst_class := mc_class each;
                    inst_config := Some (default empty_config (mc_config each)) |} in
        emit (EvNewPropagator p) ;; ret p
  end.

(** The composite propagator, built from the class that the SDK exports
    under the name written in the source, is described by the list it was
    given. *)
Definition _getPropagator (env : Env) (t : Tracing) : M (list Instance) :=
  ps <- for_each_push (propagator_of env) (propagators t) [] ;;
  emit (EvNewCompositePropagator ps) ;;
  ret ps.

(** One round of the loop of [_getInstrumentations]. *)
Definition instrumentation_of (env : Env) (each : ModuleClass) : M Instance :=
  module <- require env (mc_module each) ;;
  if negb (found (member module (mc_class each))) then
    throw (unknown_in_module "instrumentation" (mc_class each) (mc_module each))
  else
    construct "module[each.class]" (member module (mc_class each)) ;;
    let i := {| inst_module := mc_module each; inst_class := mc_class each;
                inst_config := Some (default empty_config (mc_config each)) |} in
    emit (EvNewInstrumentation i) ;; ret i.

Definition _getInstrumentations (env : Env) : M (list Instance) :=
  for_each_push (instrumentation_of env)
    (map snd (instrumentations (telemetry env))) [].

(* ===================================================================== *)
(** ** [_getExporter] *)
(* ===================================================================== *)

Definition read_heap {A} (f : heap -> A) : M A :=
  s <- get_state ;; ret (f (st_heap s)).

Definition modify_heap (f : heap -> heap) : M unit :=
  s <- get_state ;; set_heap (f (st_heap s)).

(** [o.k ??= {}] for the object stored at [l]: the empty object is only
    created when the property is nullish. *)
Definition nullish_assign_new (h : heap) (l : loc) (k : string) : heap :=
  if nullish (get_prop h l k) then
    let '(l', h') := alloc h ∅ in set_prop h' l k (VRef l')
  else h.

(** [v.k ??= x] for a value [v] that is not nullish. When [v] is a
    string, the property reads as undefined and the assignment to it is
    ignored (the module does not run in strict mode). *)
Definition nullish_assign_val (h : heap) (v : val) (k : string) (x : val)
  : heap :=
  match v with
  | VRef l => nullish_assign h l k x
  | _ => h
  end.

Definition no_token_message (name : string) : string :=
  "Neither " +:+ dq +:+ name +:+ dq +:+ " nor deprecated " +:+ dq
    +:+ "rest_apitoken.token" +:+ dq +:+ " found in Dynatrace credentials".

(** [dynatrace[token_name] || dynatrace.rest_apitoken?.token]: the
    first lookup is by a configured name and sees what the credentials
    inherit. *)
Definition dynatrace_token (h : heap) (dynatrace : loc) (name : string) : val :=
  js_or (get_computed h dynatrace name)
        (get_opt_prop h (get_prop h dynatrace "rest_apitoken") "token").

(** Lines 85-95. *)
Definition inject_dynatrace (env : Env) (tracingConfig : loc) : M unit :=
  match getDynatraceCredentials env with
  | Some dynatrace =>
      if includes (telemetry_kind (telemetry env)) "dynatrace" then
        modify_heap (fun h =>
          nullish_assign h tracingConfig "url"
            (VStr (to_string (get_prop h dynatrace "apiurl")
                     +:+ "/v2/otlp/v1/traces"))) ;;
        modify_heap (fun h => nullish_assign_new h tracingConfig "headers") ;;
        token <- read_heap (fun h =>
                   dynatrace_token h dynatrace (token_name (telemetry env))) ;;
        if negb (truthy token) then
          throw (no_token_message (token_name (telemetry env)))
        else
          modify_heap (fun h =>
            nullish_assign_val h (get_prop h tracingConfig "headers")
              "authorization" (VStr ("Api-Token " +:+ to_string token)))
      else ret tt
  | None => ret tt
  end.

(** Lines 97-101. *)
Definition inject_cloud_logging (env : Env) (tracingConfig : loc) : M unit :=
  match getCloudLoggingCredentials env with
  | Some clc =>
      if includes (telemetry_kind (telemetry env)) "cloud-logging" then
        modify_heap (fun h =>
          nullish_assign h tracingConfig "url" (get_prop h clc "url")) ;;
        modify_heap (fun h =>
          nullish_assign h tracingConfig "credentials"
            (get_prop h clc "credentials"))
      else ret tt
  | None => ret tt
  end.

(** [{ ...(tracingExporter.config || {}) }]: a new object with the own
    properties of the configured one, if there is one. *)
Definition copy_config (h : heap) (config : option loc) : loc * heap :=
  alloc h (match config with
           | Some l => own_props h l
           | None => ∅
           end).

Definition new_copy (config : option loc) : M loc :=
  s <- get_state ;;
  let '(l, h) := copy_config (st_heap s) config in
  set_heap h ;; ret l.

(** [tracingExporter] is [cds.env.requires.telemetry.tracing.exporter],
    which the caller has checked to be present. *)
Definition _getExporter (env : Env) (tracingExporter : ExporterSpec)
  : M Exporter :=
  tracingExporterModule <-
    (if String.eqb (ex_module tracingExporter) "@cap-js/telemetry"
     then ret (local_exporter env)
     else require env (ex_module tracingExporter)) ;;
  if negb (found (member tracingExporterModule (ex_class tracingExporter))) then
    throw (unknown_in_module "tracing exporter"
             (ex_class tracingExporter) (ex_module tracingExporter))
  else
    tracingConfig <- new_copy (ex_config tracingExporter) ;;
    inject_dynatrace env tracingConfig ;;
    inject_cloud_logging env tracingConfig ;;
    construct "tracingExporterModule[tracingExporter.class]"
      (member tracingExporterModule (ex_class tracingExporter)) ;;
    let exporter := {| exp_module := ex_module tracingExporter;
                       exp_class := ex_class tracingExporter;
                       exp_config := tracingConfig |} in
    emit (EvNewExporter exporter) ;;
    log (log_debug env) Debug "Using tracing exporter:" ;;
    ret exporter.

(* ===================================================================== *)
(** ** The exported bootstrap function *)
(* ===================================================================== *)

(** [r.merge(other)]: the attributes of [other] win; merging nothing
    gives [r] back. *)
Definition merge (r : gmap string string) (other : option (gmap string string))
  : gmap string string :=
  match other with
  | Some o => o ∪ r
  | None => r
  end.

(** [new NodeTracerProvider({ resource, sampler })] *)
Definition new_provider (resource : gmap string string) (smp : FilterSampler)
  : M nat :=
  s <- get_state ;;
  let id := fresh (dom (st_providers s)) in
  set_providers (<[id := {| tp_resource := resource; tp_sampler := Some smp;
                            tp_processors := [] |}]> (st_providers s)) ;;
  emit (EvNewProvider id) ;;
  ret id.

(** [tracerProvider.register({ propagator })]: the provider becomes the
    delegate of the global proxy provider. *)
Definition register (id : nat) (propagator : list Instance) : M unit :=
  set_delegate (Some id) ;; emit (EvRegister id propagator).

(** [tracerProvider.addSpanProcessor(spanProcessor)] *)
Definition addSpanProcessor (id : nat) (p : SpanProcessor) : M unit :=
  s <- get_state ;;
  set_providers
    (alter (fun tp => {| tp_resource := tp_resource tp;
                         tp_sampler := tp_sampler tp;
                         tp_processors := tp_processors tp ++ [p] |})
           id (st_providers s)) ;;
  emit (EvAddSpanProcessor id p).

Definition already_initialized : string :=
  "TracerProvider already initialized by a different module. It will be used as is.".

Definition oneagent_detected : string :=
  "Dynatrace OneAgent detected, disabling tracing exporter".

(** Lines 114-125: the tracer provider the rest of the function uses. *)
Definition general_setup (env : Env) (t : Tracing)
    (resource : option (gmap string string)) : M nat :=
  s <- get_state ;;
  match st_delegate s with
  | None =>
      let dtmetadata := getDynatraceMetadata env in
      let resource := merge (merge ∅ resource) dtmetadata in
      smp <- _getSampler env t ;;
      tracerProvider <- new_provider resource smp ;;
      propagator <- _getPropagator env t ;;
      register tracerProvider propagator ;;
      insts <- _getInstrumentations env ;;
      emit (EvRegisterInstrumentations tracerProvider insts) ;;
      ret tracerProvider
  | Some delegate =>
      log (log_warn env) Warn already_initialized ;;
      ret delegate
  end.

(** The condition of line 126. *)
Definition oneagent_present (env : Env) : bool :=
  env_set (DT_NODE_PRELOAD_OPTIONS env)
  && includes (telemetry_kind (telemetry env)) "dynatrace".

(** [process.env.NODE_ENV === 'production'] *)
Definition production (env : Env) : bool :=
  bool_decide (NODE_ENV env = Some "production").

(** Lines 126-134. *)
Definition attach_processor (env : Env) (tracingExporter : ExporterSpec)
    (tracerProvider : nat) : M unit :=
  if oneagent_present env then log (log_info env) Info oneagent_detected
  else
    exporter <- _getExporter env tracingExporter ;;
    let spanProcessor :=
      if production env then BatchSpanProcessor exporter
      else SimpleSpanProcessor exporter in
    emit (EvNewSpanProcessor spanProcessor) ;;
    addSpanProcessor tracerProvider spanProcessor.

(** Lines 137-150: the tracer handle and the instrumentations of the
    framework. *)
Definition expose_tracer (env : Env) : M unit :=
  s <- get_state ;;
  set_tracer (st_delegate s) ;;
  emit (EvGetTracer "@cap-js/telemetry") ;;
  emit EvOnServed ;;
  emit (EvCapInstrumentation "cds") ;;
  when (env_set (TRACE_OKRA env)) (emit (EvCapInstrumentation "okra")) ;;
  emit (EvCapInstrumentation "cloud_sdk").

(** [module.exports = resource => { ... }] *)
Definition bootstrap (env : Env) (resource : option (gmap string string))
  : M unit :=
  match tracing (telemetry env) with
  | None => ret tt
  | Some t =>
      match exporter t with
      | None => ret tt
      | Some tracingExporter =>
          tracerProvider <- general_setup env t resource ;;
          attach_processor env tracingExporter tracerProvider ;;
          expose_tracer env
      end
  end.

(* ===================================================================== *)
(** ** Vocabulary of the properties *)
(* ===================================================================== *)

(** [s] after the events [evs], and nothing else, have happened. *)
Definition add_events (s : State) (evs : list Event) : State :=
  {| st_heap := st_heap s; st_delegate := st_delegate s;
     st_providers := st_providers s; st_tracer := st_tracer s;
     st_trace := st_trace s ++ evs |}.

(** The events of the branch that builds and installs a tracer provider
    (lines 116-121). *)
Definition construction_event (e : Event) : bool :=
  match e with
  | EvNewSampler _ | EvNewPropagator _ | EvNewCompositePropagator _
  | EvNewInstrumentation _ | EvNewProvider _ | EvRegister _ _
  | EvRegisterInstrumentations _ _ => true
  | _ => false
  end.

Definition is_new_provider (e : Event) : bool :=
  match e with EvNewProvider _ => true | _ => false end.

Definition is_add_processor (e : Event) : bool :=
  match e with EvAddSpanProcessor _ _ => true | _ => false end.

Definition is_new_exporter (e : Event) : bool :=
  match e with EvNewExporter _ => true | _ => false end.

(** What a tracer provider is made of, apart from the span processors
    attached to it. *)
Definition provider_core (tp : TracerProvider)
  : gmap string string * option FilterSampler :=
  (tp_resource tp, tp_sampler tp).

(** From [s] to [s'] the trace has grown by events that satisfy [P]. *)
Definition emits (P : Event → Prop) (s s' : State) : Prop :=
  ∃ evs, st_trace s' = st_trace s ++ evs ∧ Forall P evs.

(** From [s] to [s'] no tracer provider was created, installed or
    rebuilt: the delegate is the same and every provider has the resource
    and sampler it had. *)
Definition same_providers (s s' : State) : Prop :=
  st_delegate s' = st_delegate s
  ∧ ∀ id, provider_core <$> st_providers s' !! id
          = provider_core <$> st_providers s !! id.

Definition reuses (P : Event → Prop) (s s' : State) : Prop :=
  same_providers s s' ∧ emits P s s'.

(** An event of the assemblers of sampler, propagator and
    instrumentations, of the registration or of the logger: no provider is
    created, no exporter is built, no span processor is attached. *)
Definition assembly_event (e : Event) : Prop :=
  is_new_provider e = false ∧ is_add_processor e = false
  ∧ is_new_exporter e = false.

(** An event of the part that follows the general setup. *)
Definition pipeline_event (e : Event) : Prop :=
  construction_event e = false.

(** An event of that part other than the attachment of a span processor. *)
Definition quiet_event (e : Event) : Prop :=
  construction_event e = false ∧ is_add_processor e = false.

(** No event at all. *)
Definition no_event (e : Event) : Prop := False.

(** [tracingExporter.config?.[k]] *)
Definition config_prop (h : heap) (tracingExporter : ExporterSpec) (k : string)
  : val :=
  match ex_config tracingExporter with
  | Some c => get_prop h c k
  | None => VUndef
  end.

(** [v] is a string, to which a property cannot be added, or a value of
    the runtime, whose properties are not in the store. *)
Definition holds_no_property (v : val) : bool :=
  match v with
  | VStr _ | VNative _ => true
  | _ => false
  end.

(** No reference of the store dangles. *)
Definition closed (h : heap) : Prop :=
  ∀ l o k r, h !! l = Some o → o !! k = Some (VRef r) → is_Some (h !! r).

(** A value that, when it is a reference, points into [h]. *)
Definition ref_ok (h : heap) (v : val) : bool :=
  match v with
  | VRef r => bool_decide (is_Some (h !! r))
  | _ => true
  end.

(** First write wins: every property that has a value other than [null]
    and [undefined] in [h] has the same value in [h']. *)
Definition heap_fww (h h' : heap) : Prop :=
  ∀ l k, nullish (get_prop h l k) = false → get_prop h' l k = get_prop h l k.

Definition first_write_wins (s s' : State) : Prop :=
  heap_fww (st_heap s) (st_heap s').

(** The objects of [h0] are the same in [h]. *)
Definition old_objects_kept (h0 h : heap) : Prop :=
  ∀ l, is_Some (h0 !! l) → h !! l = h0 !! l.

(** [s] with the store [h]. *)
Definition with_heap (s : State) (h : heap) : State :=
  {| st_heap := h; st_delegate := st_delegate s;
     st_providers := st_providers s; st_tracer := st_tracer s;
     st_trace := st_trace s |}.

(** The three stores that the injection of lines 85-95 goes through,
    for the configuration object [c] and the credentials [d]: after the
    assignment to [url], after the one to [headers], after the one to
    [headers.authorization]. *)
Definition after_url (h : heap) (c d : loc) : heap :=
  nullish_assign h c "url"
    (VStr (to_string (get_prop h d "apiurl") +:+ "/v2/otlp/v1/traces")).

Definition after_headers (h : heap) (c d : loc) : heap :=
  nullish_assign_new (after_url h c d) c "headers".

Definition after_authorization (h : heap) (c d : loc) (name : string) : heap :=
  let h3 := after_headers h c d in
  nullish_assign_val h3 (get_prop h3 c "headers") "authorization"
    (VStr ("Api-Token " +:+ to_string (dynatrace_token h3 d name))).

(** What [_getExporter] does once the exporter class is found. *)
Definition configure_exporter (env : Env) (tracingExporter : ExporterSpec)
  : M Exporter :=
  tracingConfig <- new_copy (ex_config tracingExporter) ;;
  inject_dynatrace env tracingConfig ;;
  inject_cloud_logging env tracingConfig ;;
  let exporter := {| exp_module := ex_module tracingExporter;
                     exp_class := ex_class tracingExporter;
                     exp_config := tracingConfig |} in
  emit (EvNewExporter exporter) ;;
  log (log_debug env) Debug "Using tracing exporter:" ;;
  ret exporter.

(** Every run of [m] relates the state before to the state after,
    whether it returns or throws. *)
Definition through {A} (R : State → State → Prop) (m : M A) : Prop :=
  ∀ s, R s (snd (m s)).

(** [cds.env.requires.telemetry.tracing?.exporter] *)
Definition tracing_exporter (t : Telemetry) : option ExporterSpec :=
  tracing t ≫= exporter.

(** The request carries an [http.originalUrl] attribute that starts with
    one of the configured prefixes. *)
Definition ignored_path (paths : option (list string)) (req : SpanStart) : Prop :=
  ∃ ps url, paths = Some ps ∧ originalUrl req = Some url
            ∧ ∃ p, p ∈ ps ∧ startsWith url p = true.

(** The same, for an attribute that is not the empty string. *)
Definition denied (paths : option (list string)) (req : SpanStart) : Prop :=
  ∃ ps url, paths = Some ps ∧ originalUrl req = Some url
            ∧ url ≠ EmptyString
            ∧ ∃ p, p ∈ ps ∧ startsWith url p = true.

(** The object that [new] builds for an entry of [tracing.propagators]. *)
Definition propagator_instance (each : PropagatorSpec) : Instance :=
  match each with
  | Builtin name =>
      {| inst_module := "@opentelemetry/core"; inst_class := name;
         inst_config := None |}
  | Custom each =>
      {| inst_module := mc_module each; inst_class := mc_class each;
         inst_config := Some (default empty_config (mc_config each)) |}
  end.

(** The object that [new] builds for an entry of [instrumentations]. *)
Definition instrumentation_instance (each : ModuleClass) : Instance :=
  {| inst_module := mc_module each; inst_class := mc_class each;
     inst_config := Some (default empty_config (mc_config each)) |}.

(** The lookup [m[name]] finds a constructor that constructs. *)
Definition constructs (m : Module) (name : string) : Prop :=
  member m name = Some (Constructor None).

(** The lookup [m[name]] finds nothing, or a value that counts as
    false: the condition of the module's own [Unknown ...] errors. *)
Definition missing (m : Module) (name : string) : Prop :=
  found (member m name) = false.


(** The module of the entry loads and the class of the entry is found
    in it and constructs. *)
Definition class_in_module (env : Env) (each : ModuleClass) : Prop :=
  ∃ m, _require env (mc_module each) = inl m ∧ constructs m (mc_class each).

Definition propagator_known (env : Env) (each : PropagatorSpec) : Prop :=
  match each with
  | Builtin name => constructs (core env) name
  | Custom each => class_in_module env each
  end.

(** The module in which the exporter class is looked up (lines 79-80). *)
Definition exporter_module (env : Env) (tracingExporter : ExporterSpec)
  : Module + string :=
  if String.eqb (ex_module tracingExporter) "@cap-js/telemetry"
  then inl (local_exporter env)
  else _require env (ex_module tracingExporter).

(** The exporter module loads and the exporter class is found in it and
    constructs. *)
Definition exporter_known (env : Env) (tracingExporter : ExporterSpec) : Prop :=
  ∃ m, exporter_module env tracingExporter = inl m
       ∧ constructs m (ex_class tracingExporter).

(** The exporter module does not load, or the lookup of the exporter
    class in it finds nothing: the exporter fails on lines 79-82. *)
Definition exporter_missing (env : Env) (tracingExporter : ExporterSpec) : Prop :=
  match exporter_module env tracingExporter with
  | inl m => missing m (ex_class tracingExporter)
  | inr _ => True
  end.

(** Modelled from the spec: the composite propagator is a class of the
    SDK, which is not part of this module. By section 4.3 the order of the
    list decides which propagator wins when several write the same key
    (last applied wins): the composite applies the propagators one after
    the other, in the order of its list, to the same carrier. [inject p]
    is what the propagator [p] does to a carrier. *)
Definition composite_inject
    (inject : Instance → gmap string string → gmap string string)
    (ps : list Instance) (carrier : gmap string string) : gmap string string :=
  foldl (λ c p, inject p c) carrier ps.

(* ===================================================================== *)
(** ** Sample configurations *)
(* ===================================================================== *)

(** A module that exports the classes of the given names. *)
Definition classes (names : list string) : Module :=
  list_to_map ((λ n, (n, Constructor None)) <$> names).

Module Sample.

(** The end-to-end scenario of the specification, run in development
    mode. *)
Definition exporter_spec : ExporterSpec :=
  {| ex_module := "m2"; ex_class := "Exp"; ex_config := None |}.

Definition tracing_spec : Tracing :=
  {| sampler := {| kind := "AlwaysOnSampler"; root := None; ratio := None |};
     propagators := [Builtin "W3CTraceContextPropagator"];
     exporter := Some exporter_spec |}.

Definition telemetry_spec : Telemetry :=
  {| telemetry_kind := "telemetry-to-dynatrace";
     token_name := "ingest_apitoken";
     tracing := Some tracing_spec;
     instrumentations :=
       [("http", {| mc_module := "m"; mc_class := "HttpInstr";
                    mc_config := None |})] |}.

Definition modules (name : string) : Module + string :=
  if String.eqb name "m" then inl (classes ["HttpInstr"])
  else if String.eqb name "m2" then inl (classes ["Exp"])
  else if String.eqb name "p" then inl (classes ["A"; "B"])
  else inr ("Cannot find module " +:+ name).

Definition env_of (t : Telemetry) : Env :=
  {| telemetry := t;
     NODE_ENV := None; DT_NODE_PRELOAD_OPTIONS := None; TRACE_OKRA := None;
     base := <["SamplingDecision" := Value true]>
               (classes ["AlwaysOnSampler"; "AlwaysOffSampler";
                         "ParentBasedSampler"; "TraceIdRatioBasedSampler"]);
     core := classes ["W3CTraceContextPropagator"; "W3CBaggagePropagator";
                      "CompositePropagator"];
     local_exporter := classes ["ConsoleSpanExporter"];
     _require := modules;
     getDynatraceCredentials := None;
     getCloudLoggingCredentials := None;
     getDynatraceMetadata := None;
     log_debug := false; log_info := true; log_warn := true |}.

Definition env : Env := env_of telemetry_spec.

(** A process in which nothing has been set up yet. *)
Definition fresh_state (h : heap) : State :=
  {| st_heap := h; st_delegate := None; st_providers := ∅;
     st_tracer := None; st_trace := [] |}.

Definition start : State := fresh_state ∅.

Definition with_http_config (paths : option (list string)) : Telemetry :=
  {| telemetry_kind := telemetry_kind telemetry_spec;
     token_name := token_name telemetry_spec;
     tracing := Some tracing_spec;
     instrumentations :=
       [("http", {| mc_module := "m"; mc_class := "HttpInstr";
                    mc_config := Some {| ignoreIncomingPaths := paths;
                                         cc_other := ∅ |} |})] |}.

Definition request (url : option string) : SpanStart :=
  {| ss_traceId := "4bf92f3577b34da6a3ce929d0e0e4736";
     ss_name := "GET";
     ss_attributes :=
       Some (match url with
             | Some u => {[ "http.originalUrl" := u ]}
             | None => ∅
             end) |}.

(** What the samplers of the SDK answer: [AlwaysOffSampler] does not
    record, the others record and sample. *)
Definition sdk (smp : SamplerInst) (req : SpanStart) : SamplingResult :=
  match smp with
  | NewSampler cls _ =>
      {| decision := if String.eqb cls "AlwaysOffSampler" then NOT_RECORD
                     else RECORD_AND_SAMPLED;
         sr_attributes := None; sr_traceState := None |}
  end.

(** A process in which another module has installed a provider. *)
Definition foreign : TracerProvider :=
  {| tp_resource := {[ "service.name" := "other" ]}; tp_sampler := None;
     tp_processors := [] |}.

Definition installed : State :=
  {| st_heap := ∅; st_delegate := Some 7; st_providers := {[ 7 := foreign ]};
     st_tracer := None; st_trace := [] |}.

(** The same configuration in production, and next to a OneAgent. *)
Definition env_in (node_env preload : option string) : Env :=
  {| telemetry := telemetry_spec;
     NODE_ENV := node_env; DT_NODE_PRELOAD_OPTIONS := preload;
     TRACE_OKRA := None;
     base := base env; core := core env;
     local_exporter := local_exporter env; _require := modules;
     getDynatraceCredentials := None;
     getCloudLoggingCredentials := None;
     getDynatraceMetadata := None;
     log_debug := false; log_info := true; log_warn := true |}.

(** A store with two exporter configurations and three credential
    bundles: the configuration at 0 sets [url] and
    [headers.authorization], the one at 5 sets some other header only; the
    Dynatrace credentials at 2 have a token, those at 7 have none; the
    Cloud Logging credentials are at 3. *)
Definition store : heap :=
  list_to_map
    [(0, {[ "url" := VStr "http://collector:4318/v1/traces";
            "headers" := VRef 1 ]});
     (1, {[ "authorization" := VStr "Bearer abc" ]});
     (2, {[ "apiurl" := VStr "https://dt.example/api";
            "ingest_apitoken" := VStr "dt0c01.tok" ]});
     (3, {[ "url" := VStr "https://clc.example"; "credentials" := VRef 4 ]});
     (4, ∅);
     (5, {[ "headers" := VRef 6 ]});
     (6, {[ "x-custom" := VStr "1" ]});
     (7, {[ "apiurl" := VStr "https://dt.example/api" ]})].

Definition process : State := fresh_state store.

Definition exporter_with (config : option loc) : ExporterSpec :=
  {| ex_module := "m2"; ex_class := "Exp"; ex_config := config |}.

(** The environment of a plugin of the given kind, bound to the given
    credentials. *)
Definition env_with (k : string) (dynatrace clc : option loc) : Env :=
  {| telemetry :=
       {| telemetry_kind := k; token_name := "ingest_apitoken";
          tracing := Some tracing_spec; instrumentations := [] |};
     NODE_ENV := None; DT_NODE_PRELOAD_OPTIONS := None; TRACE_OKRA := None;
     base := base env; core := core env;
     local_exporter := local_exporter env; _require := modules;
     getDynatraceCredentials := dynatrace;
     getCloudLoggingCredentials := clc;
     getDynatraceMetadata := None;
     log_debug := true; log_info := true; log_warn := true |}.

Definition tracing_with (smp : SamplerSpec) (ps : list PropagatorSpec)
    (ex : ExporterSpec) : Tracing :=
  {| sampler := smp; propagators := ps; exporter := Some ex |}.


(** Two custom propagators [A] then [B] of module [p]. *)
Definition two_propagators : list PropagatorSpec :=
  [Custom {| mc_module := "p"; mc_class := "A"; mc_config := None |};
   Custom {| mc_module := "p"; mc_class := "B"; mc_config := None |}].

(** Each propagator writes its class name under the key [traceparent]. *)
Definition inject (p : Instance) (carrier : gmap string string)
  : gmap string string :=
  <["traceparent" := inst_class p]> carrier.

End Sample.

(** From [s] to [s'] the object store is the same. *)
Definition same_heap (s s' : State) : Prop := st_heap s' = st_heap s.

(* ===================================================================== *)
(** ** Further sample data *)
(* ===================================================================== *)

Module More.

(** A telemetry configuration with the given sampler, and three
    instrumentations of module [m2x]. *)
Definition three_instrumentations : list (string * ModuleClass) :=
  [("http", {| mc_module := "i"; mc_class := "Http"; mc_config := None |});
   ("express", {| mc_module := "i"; mc_class := "Express";
                  mc_config := Some {| ignoreIncomingPaths := None;
                                       cc_other := {[ "depth" := "2" ]} |} |});
   ("hdb", {| mc_module := "i"; mc_class := "Hdb"; mc_config := None |})].

Definition modules (name : string) : Module + string :=
  if String.eqb name "i" then inl (classes ["Http"; "Express"; "Hdb"])
  else if String.eqb name "m2" then inl (classes ["Exp"])
  else if String.eqb name "@cap-js/telemetry" then inl (classes ["Elsewhere"])
  else inr ("Cannot find module " +:+ name).

Definition env_of (t : Telemetry) : Env :=
  {| telemetry := t;
     NODE_ENV := None; DT_NODE_PRELOAD_OPTIONS := None; TRACE_OKRA := None;
     base := <["SamplingDecision" := Value true]>
               (classes ["AlwaysOnSampler"; "AlwaysOffSampler";
                         "ParentBasedSampler"; "TraceIdRatioBasedSampler"]);
     core := classes ["W3CTraceContextPropagator"; "CompositePropagator"];
     local_exporter := classes ["ConsoleSpanExporter"];
     _require := modules;
     getDynatraceCredentials := None;
     getCloudLoggingCredentials := None;
     getDynatraceMetadata := None;
     log_debug := false; log_info := true; log_warn := true |}.

Definition telemetry_with (smp : SamplerSpec) (ps : list PropagatorSpec)
    (insts : list (string * ModuleClass)) (ex : ExporterSpec) : Telemetry :=
  {| telemetry_kind := "telemetry-to-console";
     token_name := "ingest_apitoken";
     tracing := Some {| sampler := smp; propagators := ps;
                        exporter := Some ex |};
     instrumentations := insts |}.

Definition always_on : SamplerSpec :=
  {| kind := "AlwaysOnSampler"; root := None; ratio := None |}.

Definition exp : ExporterSpec :=
  {| ex_module := "m2"; ex_class := "Exp"; ex_config := None |}.

Definition tracing_of (smp : SamplerSpec) (ps : list PropagatorSpec) : Tracing :=
  {| sampler := smp; propagators := ps; exporter := Some exp |}.

Definition start : State :=
  {| st_heap := ∅; st_delegate := None; st_providers := ∅;
     st_tracer := None; st_trace := [] |}.

Definition request (url : string) : SpanStart :=
  {| ss_traceId := "0af7651916cd43dd8448eb211c80319c"; ss_name := "GET";
     ss_attributes := Some {[ "http.originalUrl" := url ]} |}.

End More.

(** The condition of line 86, and the one of line 98. *)
Definition dynatrace_applies (env : Env) : bool :=
  match getDynatraceCredentials env with
  | Some _ => includes (telemetry_kind (telemetry env)) "dynatrace"
  | None => false
  end.

Definition cloud_logging_applies (env : Env) : bool :=
  match getCloudLoggingCredentials env with
  | Some _ => includes (telemetry_kind (telemetry env)) "cloud-logging"
  | None => false
  end.

(** The store after lines 99 and 100, for the configuration object [c]
    and the credentials [clc]. *)
Definition after_cloud_logging (h : heap) (c clc : loc) : heap :=
  let h1 := nullish_assign h c "url" (get_prop h clc "url") in
  nullish_assign h1 c "credentials" (get_prop h1 clc "credentials").

(** [env] with another [_require]. *)
Definition with_require (env : Env) (r : string -> Module + string) : Env :=
  {| telemetry := telemetry env;
     NODE_ENV := NODE_ENV env;
     DT_NODE_PRELOAD_OPTIONS := DT_NODE_PRELOAD_OPTIONS env;
     TRACE_OKRA := TRACE_OKRA env;
     base := base env; core := core env;
     local_exporter := local_exporter env;
     _require := r;
     getDynatraceCredentials := getDynatraceCredentials env;
     getCloudLoggingCredentials := getCloudLoggingCredentials env;
     getDynatraceMetadata := getDynatraceMetadata env;
     log_debug := log_debug env; log_info := log_info env;
     log_warn := log_warn env |}.

(** [env] with another name for the token field. *)
Definition with_token_name (env : Env) (name : string) : Env :=
  {| telemetry :=
       {| telemetry_kind := telemetry_kind (telemetry env);
          token_name := name;
          tracing := tracing (telemetry env);
          instrumentations := instrumentations (telemetry env) |};
     NODE_ENV := NODE_ENV env;
     DT_NODE_PRELOAD_OPTIONS := DT_NODE_PRELOAD_OPTIONS env;
     TRACE_OKRA := TRACE_OKRA env;
     base := base env; core := core env;
     local_exporter := local_exporter env;
     _require := _require env;
     getDynatraceCredentials := getDynatraceCredentials env;
     getCloudLoggingCredentials := getCloudLoggingCredentials env;
     getDynatraceMetadata := getDynatraceMetadata env;
     log_debug := log_debug env; log_info := log_info env;
     log_warn := log_warn env |}.

Module MoreStore.

(** Declared configurations at 10 (empty), 11 (a [url] only) and 12 (a
    [headers] object, at 13, with some other header); Dynatrace
    credentials at 20 (both token fields), 21 (the deprecated one only)
    and 22 (an empty configured one and the deprecated one); Cloud Logging
    credentials at 30, with their [credentials] object at 31. *)
Definition store : heap :=
  list_to_map
    [(10, ∅);
     (11, {[ "url" := VStr "http://collector:4318/v1/traces" ]});
     (12, {[ "headers" := VRef 13; "timeoutMillis" := VStr "500" ]});
     (13, {[ "x-custom" := VStr "1" ]});
     (20, {[ "apiurl" := VStr "https://dt.example/api";
             "ingest_apitoken" := VStr "dt0c01.new";
             "rest_apitoken" := VRef 23 ]});
     (21, {[ "apiurl" := VStr "https://dt.example/api";
             "rest_apitoken" := VRef 23 ]});
     (22, {[ "apiurl" := VStr "https://dt.example/api";
             "ingest_apitoken" := VStr EmptyString;
             "rest_apitoken" := VRef 23 ]});
     (23, {[ "token" := VStr "dt0c01.old" ]});
     (30, {[ "url" := VStr "https://clc.example/ingest";
             "credentials" := VRef 31 ]});
     (31, {[ "client_cert" := VStr "PEM" ]})].

Definition process : State :=
  {| st_heap := store; st_delegate := None; st_providers := ∅;
     st_tracer := None; st_trace := [] |}.

Definition exporter_with (config : option loc) : ExporterSpec :=
  {| ex_module := "m2"; ex_class := "Exp"; ex_config := config |}.

Definition env_with (k : string) (dynatrace clc : option loc) : Env :=
  {| telemetry :=
       {| telemetry_kind := k; token_name := "ingest_apitoken";
          tracing := Some (More.tracing_of More.always_on []);
          instrumentations := [] |};
     NODE_ENV := None; DT_NODE_PRELOAD_OPTIONS := None; TRACE_OKRA := None;
     base := classes ["AlwaysOnSampler"]; core := ∅;
     local_exporter := classes ["ConsoleSpanExporter"];
     _require := More.modules;
     getDynatraceCredentials := dynatrace;
     getCloudLoggingCredentials := clc;
     getDynatraceMetadata := None;
     log_debug := false; log_info := false; log_warn := false |}.

End MoreStore.

(** The sampler entry resolves: its kind is found in the SDK and
    constructs and, for the parent-based kind, so does its root kind. *)
Definition sampler_known (env : Env) (t : Tracing) : Prop :=
  constructs (base env) (kind (sampler t))
  ∧ (kind (sampler t) = "ParentBasedSampler" →
     constructs (base env) (js_key (root (sampler t)))).

(** The root sampler and the delegate sampler that lines 40-45 build. *)
Definition root_sampler (t : Tracing) : SamplerInst :=
  NewSampler (js_key (root (sampler t)))
    (NumberArg (ratio_or_0 (ratio (sampler t)))).

Definition delegate_sampler (t : Tracing) : SamplerInst :=
  if String.eqb (kind (sampler t)) "ParentBasedSampler"
  then NewSampler (kind (sampler t)) (RootArg (root_sampler t))
  else NewSampler (kind (sampler t)) NoArg.

Definition sampler_events (t : Tracing) : list Event :=
  if String.eqb (kind (sampler t)) "ParentBasedSampler"
  then [EvNewSampler (root_sampler t); EvNewSampler (delegate_sampler t)]
  else [EvNewSampler (delegate_sampler t)].

(** The propagators and instrumentations that the configuration asks
    for. *)
Definition configured_propagators (t : Tracing) : list Instance :=
  map propagator_instance (propagators t).

Definition configured_instrumentations (env : Env) : list Instance :=
  map instrumentation_instance (map snd (instrumentations (telemetry env))).

(** The events of lines 116-121 for the provider [id], in order. *)
Definition setup_events (env : Env) (t : Tracing) (id : nat) : list Event :=
  sampler_events t
  ++ [EvNewProvider id]
  ++ map EvNewPropagator (configured_propagators t)
  ++ [EvNewCompositePropagator (configured_propagators t);
      EvRegister id (configured_propagators t)]
  ++ map EvNewInstrumentation (configured_instrumentations env)
  ++ [EvRegisterInstrumentations id (configured_instrumentations env)].

(** The provider that line 118 builds. *)
Definition built_provider (env : Env) (t : Tracing)
    (resource : option (gmap string string)) : TracerProvider :=
  {| tp_resource := merge (merge ∅ resource) (getDynatraceMetadata env);
     tp_sampler :=
       Some (_filterSampler
               (_shouldSample (http_ignoreIncomingPaths (telemetry env)))
               (delegate_sampler t));
     tp_processors := [] |}.

(** The process after lines 116-121 have installed the provider [id]. *)
Definition installed (env : Env) (t : Tracing)
    (resource : option (gmap string string)) (id : nat) (s : State) : State :=
  {| st_heap := st_heap s;
     st_delegate := Some id;
     st_providers := <[id := built_provider env t resource]> (st_providers s);
     st_tracer := st_tracer s;
     st_trace := st_trace s ++ setup_events env t id |}.

(** The identity of the next provider. *)
Definition next_provider (s : State) : nat := fresh (dom (st_providers s)).

(** From [s] to [s'] the tracer providers, the delegate and the tracer
    handle are the same: only the object store and the trace may differ. *)
Definition registry_kept (s s' : State) : Prop :=
  st_providers s' = st_providers s
  ∧ st_delegate s' = st_delegate s
  ∧ st_tracer s' = st_tracer s.

(** The events of lines 137-150. *)
Definition expose_event (e : Event) : bool :=
  match e with
  | EvGetTracer _ | EvOnServed | EvCapInstrumentation _ => true
  | _ => false
  end.

Definition expose_events (env : Env) : list Event :=
  [EvGetTracer "@cap-js/telemetry"; EvOnServed; EvCapInstrumentation "cds"]
  ++ (if env_set (TRACE_OKRA env) then [EvCapInstrumentation "okra"] else [])
  ++ [EvCapInstrumentation "cloud_sdk"].

(** From [s] to [s'] the tracer handle is untouched and none of the
    events of lines 137-150 has happened. *)
Definition before_exposure (s s' : State) : Prop :=
  st_tracer s' = st_tracer s ∧ emits (λ e, expose_event e = false) s s'.

(** The span processor of lines 130-132. *)
Definition span_processor_of (env : Env) (e : Exporter) : SpanProcessor :=
  if production env then BatchSpanProcessor e else SimpleSpanProcessor e.

(** The events of lines 129-133 for the exporter [e] and the provider
    [id], in order. *)
Definition attach_events (env : Env) (id : nat) (e : Exporter) : list Event :=
  EvNewExporter e
  :: (if log_debug env then [EvLog Debug "Using tracing exporter:"] else [])
  ++ [EvNewSpanProcessor (span_processor_of env e);
      EvAddSpanProcessor id (span_processor_of env e)].

(** The span processors attached to the provider [id]; none when there
    is no such provider. *)
Definition processors_of (s : State) (id : nat) : list SpanProcessor :=
  default [] (tp_processors <$> st_providers s !! id).

(** From [s] to [s'] no span processor was attached to a provider or
    taken from it. *)
Definition same_processors (s s' : State) : Prop :=
  ∀ id, processors_of s' id = processors_of s id.

(** The delegate, when there is one, is one of the providers. *)
Definition delegate_exists (s : State) : Prop :=
  ∀ d, st_delegate s = Some d → is_Some (st_providers s !! d).

(** The provider [tp] with one more span processor. *)
Definition with_processor (p : SpanProcessor) (tp : TracerProvider)
  : TracerProvider :=
  {| tp_resource := tp_resource tp; tp_sampler := tp_sampler tp;
     tp_processors := tp_processors tp ++ [p] |}.

(** The process after lines 130-133 have built the exporter [e], which
    left the store of [sx], and attached its span processor to the
    provider [id]. *)
Definition attached (env : Env) (id : nat) (e : Exporter) (s sx : State)
  : State :=
  {| st_heap := st_heap sx;
     st_delegate := st_delegate s;
     st_providers :=
       alter (with_processor (span_processor_of env e)) id (st_providers s);
     st_tracer := st_tracer s;
     st_trace := st_trace s ++ attach_events env id e |}.

(** The process after lines 137-150. *)
Definition exposed (env : Env) (s : State) : State :=
  {| st_heap := st_heap s; st_delegate := st_delegate s;
     st_providers := st_providers s;
     st_tracer := st_delegate s;
     st_trace := st_trace s ++ expose_events env |}.

(** The process after line 128, when the bypass applies. *)
Definition bypassed (env : Env) (s : State) : State :=
  if log_info env then add_events s [EvLog Info oneagent_detected] else s.

(** The Dynatrace credentials, where they apply, are on the store and
    hold a token. *)
Definition token_available (env : Env) (h : heap) : Prop :=
  ∀ d, getDynatraceCredentials env = Some d →
       includes (telemetry_kind (telemetry env)) "dynatrace" = true →
       is_Some (h !! d) ∧ closed h
       ∧ truthy (dynatrace_token h d (token_name (telemetry env))) = true.

(** [env] with another exporter entry in its tracing configuration. *)
Definition with_exporter (env : Env) (tracingExporter : ExporterSpec) : Env :=
  {| telemetry :=
       {| telemetry_kind := telemetry_kind (telemetry env);
          token_name := token_name (telemetry env);
          tracing :=
            (λ t, {| sampler := sampler t; propagators := propagators t;
                     exporter := Some tracingExporter |})
              <$> tracing (telemetry env);
          instrumentations := instrumentations (telemetry env) |};
     NODE_ENV := NODE_ENV env;
     DT_NODE_PRELOAD_OPTIONS := DT_NODE_PRELOAD_OPTIONS env;
     TRACE_OKRA := TRACE_OKRA env;
     base := base env;
     core := core env;
     local_exporter := local_exporter env;
     _require := _require env;
     getDynatraceCredentials := getDynatraceCredentials env;
     getCloudLoggingCredentials := getCloudLoggingCredentials env;
     getDynatraceMetadata := getDynatraceMetadata env;
     log_debug := log_debug env;
     log_info := log_info env;
     log_warn := log_warn env |}.

(* ===================================================================== *)
(** * Properties *)
(* ===================================================================== *)

(** ** Strings *)

Lemma append_nil_l (s : string) : EmptyString +:+ s = s.
Proof. reflexivity. Qed.

Lemma append_cons (c : Ascii.ascii) (a s : string) :
  String c a +:+ s = String c (a +:+ s).
Proof. reflexivity. Qed.

Lemma append_nil_r (p : string) : p +:+ EmptyString = p.
Proof.
  induction p as [|c p IH]; [done|].
  by rewrite append_cons, IH.
Qed.

Lemma startsWith_here (p t : string) : startsWith (p +:+ t) p = true.
Proof.
  induction p as [|c p IH]; [done|].
  rewrite append_cons. simpl. by rewrite Ascii.eqb_refl.
Qed.

Lemma startsWith_spec (s p : string) :
  startsWith s p = true ↔ ∃ t, s = p +:+ t.
Proof.
  split.
  - revert s. induction p as [|c p IH]; intros s H; simpl in *.
    + by exists s.
    + destruct s as [|d s]; [done|].
      destruct (Ascii.eqb c d) eqn:E; [|done].
      apply Ascii.eqb_eq in E as ->.
      destruct (IH _ H) as [t ->]. by exists t.
  - intros [t ->]. apply startsWith_here.
Qed.

Lemma includes_unfold (s p : string) :
  includes s p =
  startsWith s p || match s with
                    | EmptyString => false
                    | String _ s' => includes s' p
                    end.
Proof. by destruct s. Qed.

Lemma includes_here (p b : string) : includes (p +:+ b) p = true.
Proof. by rewrite includes_unfold, startsWith_here. Qed.

Lemma includes_refl (p : string) : includes p p = true.
Proof. rewrite <- (append_nil_r p) at 1. apply includes_here. Qed.

Lemma includes_skip (a t p : string) :
  includes t p = true → includes (a +:+ t) p = true.
Proof.
  intros H. induction a as [|c a IH]; [done|].
  rewrite append_cons, includes_unfold, IH. apply orb_true_r.
Qed.

Lemma includes_spec (s p : string) :
  includes s p = true ↔ ∃ a b, s = a +:+ p +:+ b.
Proof.
  split.
  - induction s as [|c s IH]; rewrite includes_unfold; intros H.
    + rewrite orb_false_r in H. apply startsWith_spec in H as [t Ht].
      by exists EmptyString, t.
    + apply orb_true_iff in H as [H|H].
      * apply startsWith_spec in H as [t Ht]. by exists EmptyString, t.
      * destruct (IH H) as (a & b & ->). by exists (String c a), b.
  - intros (a & b & ->). apply includes_skip, includes_here.
Qed.

(** Finds an occurrence of a piece of a message built by concatenation. *)
Ltac find_piece :=
  first [ apply includes_refl
        | apply includes_here
        | apply includes_skip; find_piece ].


Lemma no_token_message_names (name : string) :
  includes (no_token_message name) name = true
  ∧ includes (no_token_message name) "rest_apitoken.token" = true.
Proof. unfold no_token_message. split; find_piece. Qed.

(** ** Runs of the monad *)

#[global] Instance emits_refl P : Reflexive (emits P).
Proof. intros s. exists []. by rewrite app_nil_r. Qed.

#[global] Instance emits_trans P : Transitive (emits P).
Proof.
  intros s1 s2 s3 (e1 & H1 & F1) (e2 & H2 & F2).
  exists (e1 ++ e2). split.
  - by rewrite H2, H1, app_assoc.
  - by apply Forall_app.
Qed.

#[global] Instance same_providers_refl : Reflexive same_providers.
Proof. by intros s. Qed.

#[global] Instance same_providers_trans : Transitive same_providers.
Proof.
  intros s1 s2 s3 [D1 P1] [D2 P2]. split; [congruence|].
  intros id. by rewrite P2, P1.
Qed.

#[global] Instance reuses_refl P : Reflexive (reuses P).
Proof. by intros s. Qed.

#[global] Instance reuses_trans P : Transitive (reuses P).
Proof. intros s1 s2 s3 [? ?] [? ?]. split; by etrans. Qed.

Lemma emits_impl (P Q : Event → Prop) s s' :
  (∀ e, P e → Q e) → emits P s s' → emits Q s s'.
Proof. intros H (evs & ? & ?). exists evs. split; [done|]. by eapply Forall_impl. Qed.

Lemma reuses_impl (P Q : Event → Prop) s s' :
  (∀ e, P e → Q e) → reuses P s s' → reuses Q s s'.
Proof. intros H [? ?]. split; [done|]. by eapply emits_impl. Qed.

Lemma through_impl {A} (R R' : State → State → Prop) (m : M A) :
  (∀ s s', R s s' → R' s s') → through R m → through R' m.
Proof. intros H Hm s. apply H, Hm. Qed.

Section Through.
Context (R : State → State → Prop) `{!Reflexive R} `{!Transitive R}.

Lemma through_ret {A} (a : A) : through R (ret a).
Proof. by intros s. Qed.

Lemma through_throw {A} msg : through R (throw (A:=A) msg).
Proof. by intros s. Qed.

Lemma through_get_state : through R get_state.
Proof. by intros s. Qed.

Lemma through_read_heap {A} (f : heap → A) : through R (read_heap f).
Proof. by intros s. Qed.

Lemma through_bind {A B} (m : M A) (f : A → M B) :
  through R m → (∀ a, through R (f a)) → through R (bind m f).
Proof.
  intros Hm Hf s. unfold bind. specialize (Hm s).
  destruct (m s) as [[a|msg] s1]; simpl in *; [|done].
  etrans; [exact Hm|apply Hf].
Qed.

Lemma through_for_each_push {A B} (body : A → M B) l acc :
  (∀ a, through R (body a)) → through R (for_each_push body l acc).
Proof.
  intros Hb. revert acc.
  induction l as [|a l IH]; intros acc; simpl.
  - apply through_ret.
  - apply through_bind; [apply Hb|]. intros b. apply IH.
Qed.
End Through.

Lemma emits_add_events P s evs : Forall P evs → emits P s (add_events s evs).
Proof. intros. by exists evs. Qed.

Lemma through_emit_emits (P : Event → Prop) e : P e → through (emits P) (emit e).
Proof. intros H s. exists [e]. split; [done|]. by constructor. Qed.

Lemma through_emit_reuses (P : Event → Prop) e : P e → through (reuses P) (emit e).
Proof. intros H s. split; [done|]. by apply through_emit_emits. Qed.

Lemma through_set_heap (P : Event → Prop) h : through (reuses P) (set_heap h).
Proof. intros s. split; [done|]. exists []. by rewrite app_nil_r. Qed.

Lemma through_modify_heap (P : Event → Prop) f : through (reuses P) (modify_heap f).
Proof. intros s. split; [done|]. exists []. by rewrite app_nil_r. Qed.

Lemma through_log (P : Event → Prop) flag level msg :
  P (EvLog level msg) → through (reuses P) (log flag level msg).
Proof.
  intros H. destruct flag; simpl.
  - by apply through_emit_reuses.
  - apply through_ret; apply _.
Qed.

Lemma require_through env name R `{!Reflexive R} : through R (require env name).
Proof. unfold require. destruct (_require env name); by intros ?. Qed.

Lemma construct_through expr x R `{!Reflexive R} : through R (construct expr x).
Proof. unfold construct. destruct x as [[[?|]|?]|]; by intros ?. Qed.

(** Decomposes a program into its statements and leaves the conditions
    on the events. *)
Ltac through_step :=
  lazymatch goal with
  | |- through _ (bind _ _) =>
      apply through_bind; [apply _| |intros ?]
  | |- through _ (ret _) => apply through_ret; apply _
  | |- through _ (throw _) => apply through_throw; apply _
  | |- through _ get_state => apply through_get_state; apply _
  | |- through _ (read_heap _) => apply through_read_heap; apply _
  | |- through _ (for_each_push _ _ _) =>
      apply through_for_each_push; [apply _|apply _|intros ?]
  | |- through (reuses _) (emit _) => apply through_emit_reuses
  | |- through (emits _) (emit _) => apply through_emit_emits
  | |- through (reuses _) (set_heap _) => apply through_set_heap
  | |- through (reuses _) (modify_heap _) => apply through_modify_heap
  | |- through (reuses _) (log _ _ _) => apply through_log
  | |- through _ (require _ _) => apply require_through; apply _
  | |- through _ (construct _ _) => apply construct_through; apply _
  | |- through _ (when ?b _) => destruct b; simpl
  | |- through _ (if ?b then _ else _) => destruct b
  | |- through _ (match ?x with _ => _ end) => destruct x
  end.

Ltac through_steps := repeat through_step.

(** ** The assemblers leave the providers alone *)

Lemma _getSampler_reuses env t :
  through (reuses (λ e, ∃ smp, e = EvNewSampler smp)) (_getSampler env t).
Proof.
  unfold _getSampler, new_sampler. through_steps; eauto.
Qed.

(* ===================================================================== *)
(** ** Without an exporter entry (lines 108-109) *)
(* ===================================================================== *)

(** C10. When the configuration has no [tracing.exporter] entry, the
    bootstrap returns at once, without an error and in the state it was
    called in: no provider, sampler, propagator, instrumentation or
    exporter has been built, nothing is registered and no tracer is
    exposed. *)
Theorem bootstrap_without_exporter env resource s :
  tracing_exporter (telemetry env) = None →
  bootstrap env resource s = (Ok tt, s).
Proof.
  unfold tracing_exporter, bootstrap. intros H.
  destruct (tracing (telemetry env)) as [t|]; [|done].
  simpl in H. by rewrite H.
Qed.

Lemma bootstrap_without_exporter_witness :
  let t := {| telemetry_kind := "telemetry-to-dynatrace";
              token_name := "ingest_apitoken";
              tracing := None; instrumentations := [] |} in
  bootstrap (Sample.env_of t) None Sample.start = (Ok tt, Sample.start).
Proof. intros t. by apply (bootstrap_without_exporter (Sample.env_of t)). Defined.

(* ===================================================================== *)
(** ** The composite sampler (lines 12-48) *)
(* ===================================================================== *)

Lemma _getSampler_Ok env t s f s' :
  _getSampler env t s = (Ok f, s') →
  fs_shouldSample f = _shouldSample (http_ignoreIncomingPaths (telemetry env)).
Proof.
  unfold _getSampler, new_sampler, bind, ret, throw, emit.
  repeat case_match; intros; by simplify_eq.
Qed.

Lemma existsb_startsWith (url : string) (ps : list string) :
  existsb (λ p, startsWith url p) ps = true
  ↔ ∃ p, p ∈ ps ∧ startsWith url p = true.
Proof.
  rewrite existsb_exists. setoid_rewrite list_elem_of_In. done.
Qed.

Lemma _shouldSample_denied paths req :
  _shouldSample paths req = false ↔ denied paths req.
Proof.
  unfold _shouldSample, denied. split.
  - destruct paths as [[|p0 ps]|]; [done| |done]. cbv beta.
    destruct (originalUrl req) as [url|]; [|done].
    destruct (String.eqb url EmptyString) eqn:E; [done|].
    intros H%negb_false_iff%existsb_startsWith.
    exists (p0 :: ps), url. split_and!; try done.
    by apply String.eqb_neq.
  - intros (ps & url & -> & Hu & Hne%String.eqb_neq & Hp).
    destruct ps as [|p0 ps].
    { destruct Hp as (p & Hp & _). by apply elem_of_nil in Hp. }
    cbv beta. rewrite Hu, Hne. by apply negb_false_iff, existsb_startsWith.
Qed.

(** C2, as the code has it. The sampler assembled by [_getSampler] answers
    [NOT_RECORD] without consulting its delegate exactly when the ignore
    list is a non-empty array and the request has an [http.originalUrl]
    attribute that is not the empty string and starts with one of the
    listed prefixes. In every other case (no attribute, an empty one, no
    matching prefix, no list) the delegate is consulted once and its
    answer, which may itself be [NOT_RECORD], is returned unchanged. *)
Theorem filter_sampler_decision env t s f s' sdk req :
  _getSampler env t s = (Ok f, s') →
  let paths := http_ignoreIncomingPaths (telemetry env) in
  (denied paths req ↔ shouldSample sdk f req = (not_record, []))
  ∧ (¬ denied paths req →
     shouldSample sdk f req = (sdk (fs_parent f) req, [(fs_parent f, req)])).
Proof.
  intros Hf paths. apply _getSampler_Ok in Hf. fold paths in Hf.
  unfold shouldSample. rewrite Hf.
  destruct (_shouldSample paths req) eqn:E; simpl.
  - assert (¬ denied paths req) as Hn.
    { intros Hd. apply _shouldSample_denied in Hd. congruence. }
    split; [|done]. split; [done|]. intros [=].
  - apply _shouldSample_denied in E. split; [done|]. by intros [].
Qed.

Lemma filter_sampler_decision_witness :
  let env := Sample.env_of (Sample.with_http_config (Some ["/health"])) in
  ∃ f, fst (_getSampler env Sample.tracing_spec Sample.start) = Ok f
       ∧ shouldSample Sample.sdk f (Sample.request (Some "/health/live"))
         = (not_record, [])
       ∧ snd (shouldSample Sample.sdk f (Sample.request (Some "/orders")))
         = [(fs_parent f, Sample.request (Some "/orders"))].
Proof.
  intros env.
  destruct (_getSampler env Sample.tracing_spec Sample.start)
    as [[f|msg] s'] eqn:E; [|by vm_compute in E].
  exists f. split; [done|].
  pose proof (filter_sampler_decision env _ _ f s' Sample.sdk
                (Sample.request (Some "/health/live")) E) as [H1 _].
  pose proof (filter_sampler_decision env _ _ f s' Sample.sdk
                (Sample.request (Some "/orders")) E) as [H2 H3].
  split.
  - apply H1. exists ["/health"], "/health/live".
    do 3 (split; [done|]). exists "/health". split; [by apply list_elem_of_singleton|done].
  - rewrite H3; [done|].
    intros (ps & url & Hps & Hurl & _ & p & Hp & Hsw).
    vm_compute in Hps, Hurl. simplify_eq.
    apply list_elem_of_singleton in Hp as ->. by vm_compute in Hsw.
Defined.

(** C2, as it is stated, fails in both directions. With an ignore list
    made of the empty prefix and an empty [http.originalUrl], the
    attribute is present and starts with a listed prefix, yet the delegate
    is consulted and its answer returned. With [AlwaysOffSampler] as the
    delegate, a request whose path is not ignored is answered
    [NOT_RECORD]. *)
Lemma filter_sampler_claim_fails :
  let paths := Some [EmptyString] in
  let on := NewSampler "AlwaysOnSampler" NoArg in
  let off := NewSampler "AlwaysOffSampler" NoArg in
  let empty := Sample.request (Some EmptyString) in
  let orders := Sample.request (Some "/orders") in
  (ignored_path paths empty
   ∧ shouldSample Sample.sdk (_filterSampler (_shouldSample paths) on) empty
     = ({| decision := RECORD_AND_SAMPLED; sr_attributes := None;
           sr_traceState := None |}, [(on, empty)]))
  ∧ (¬ ignored_path (Some ["/health"]) orders
     ∧ decision (fst (shouldSample Sample.sdk
                        (_filterSampler (_shouldSample (Some ["/health"])) off)
                        orders)) = NOT_RECORD).
Proof.
  intros paths on off empty orders. split; split.
  - exists [EmptyString], EmptyString. split_and!; try done.
    exists EmptyString. split; [by apply list_elem_of_singleton|done].
  - done.
  - intros (ps & url & Hps & Hurl & p & Hp & Hsw).
    vm_compute in Hurl. simplify_eq.
    apply list_elem_of_singleton in Hp as ->. by vm_compute in Hsw.
  - done.
Qed.

(* ===================================================================== *)
(** ** Loops that collect what they build *)
(* ===================================================================== *)

Lemma bind_Ok {A B} (m : M A) (f : A → M B) s a s1 :
  m s = (Ok a, s1) → bind m f s = f a s1.
Proof. unfold bind. by intros ->. Qed.

Lemma bind_Throw {A B} (m : M A) (f : A → M B) s msg s1 :
  m s = (Throw msg, s1) → bind m f s = (Throw msg, s1).
Proof. unfold bind. by intros ->. Qed.

Lemma bind_Ok_inv {A B} (m : M A) (f : A → M B) s b s' :
  bind m f s = (Ok b, s') → ∃ a s1, m s = (Ok a, s1) ∧ f a s1 = (Ok b, s').
Proof.
  unfold bind. destruct (m s) as [[a|msg] s1]; [|done]. by exists a, s1.
Qed.

Section Loops.
Context {A B : Type} (body : A → M B) (g : A → B) (ev : A → Event).

Lemma for_each_push_Ok_inv l acc s r s' :
  (∀ a s b s', body a s = (Ok b, s') → b = g a) →
  for_each_push body l acc s = (Ok r, s') → r = acc ++ map g l.
Proof.
  intros Hb. revert acc s.
  induction l as [|a l IH]; intros acc s; simpl.
  - intros [= <- _]. by rewrite app_nil_r.
  - intros (b & s1 & Hbody & Hrest)%bind_Ok_inv.
    apply Hb in Hbody as ->. apply IH in Hrest as ->.
    by rewrite <- app_assoc.
Qed.

Lemma for_each_push_Ok l acc s :
  (∀ a, a ∈ l → ∀ s, body a s = (Ok (g a), add_events s [ev a])) →
  fst (for_each_push body l acc s) = Ok (acc ++ map g l)
  ∧ reuses (λ e, ∃ a, a ∈ l ∧ e = ev a) s (snd (for_each_push body l acc s))
  ∧ st_trace (snd (for_each_push body l acc s)) = st_trace s ++ map ev l.
Proof.
  revert acc s. induction l as [|a l IH]; intros acc s Hb; simpl.
  - rewrite !app_nil_r. done.
  - rewrite (bind_Ok _ _ _ _ _ (Hb a ltac:(left) s)).
    destruct (IH (acc ++ [g a]) (add_events s [ev a])) as (-> & Hr & ->).
    { intros a' Ha'. apply Hb. by right. }
    split_and!.
    + by rewrite <- app_assoc.
    + etrans; [|eapply reuses_impl; [|exact Hr]].
      * split; [done|]. exists [ev a]. split; [done|].
        constructor; [|done]. exists a. split; [left|done].
      * intros e (a' & ? & ->). exists a'. split; [by right|done].
    + simpl. by rewrite <- app_assoc.
Qed.

End Loops.

(* ===================================================================== *)
(** ** Resolution of classes by name *)
(* ===================================================================== *)

Lemma constructs_found m name : constructs m name → found (member m name) = true.
Proof. unfold constructs. by intros ->. Qed.

Lemma construct_Ok expr m name s :
  constructs m name → construct expr (member m name) s = (Ok tt, s).
Proof. unfold constructs. by intros ->. Qed.

Lemma construct_state expr x s : snd (construct expr x s) = s.
Proof. by destruct x as [[[?|]|?]|]. Qed.

Lemma construct_Ok_inv expr x s s' :
  construct expr x s = (Ok tt, s') → x = Some (Constructor None) ∧ s' = s.
Proof.
  destruct x as [[[?|]|?]|]; unfold construct, throw, ret; intros H;
    by simplify_eq.
Qed.


Lemma new_sampler_known base expr cls arg s :
  constructs base cls →
  new_sampler base expr cls arg s
  = (Ok (NewSampler cls arg), add_events s [EvNewSampler (NewSampler cls arg)]).
Proof.
  intros H. unfold new_sampler.
  by rewrite (bind_Ok _ _ _ _ _ (construct_Ok _ _ _ _ H)).
Qed.

Lemma propagator_of_known env each s :
  propagator_known env each →
  propagator_of env each s
  = (Ok (propagator_instance each),
     add_events s [EvNewPropagator (propagator_instance each)]).
Proof.
  destruct each as [name|each]; simpl.
  - intros H. rewrite (constructs_found _ _ H). simpl.
    by rewrite (bind_Ok _ _ _ _ _ (construct_Ok _ _ _ _ H)).
  - intros (m & Hm & Hc). unfold require. rewrite Hm.
    unfold bind at 1. simpl. rewrite (constructs_found _ _ Hc). simpl.
    by rewrite (bind_Ok _ _ _ _ _ (construct_Ok _ _ _ _ Hc)).
Qed.

Lemma propagator_of_Ok env each s p s' :
  propagator_of env each s = (Ok p, s') → p = propagator_instance each.
Proof.
  destruct each as [name|each]; simpl;
    unfold require, construct, bind, ret, throw, emit;
    repeat case_match; intros; by simplify_eq.
Qed.

Lemma instrumentation_of_known env each s :
  class_in_module env each →
  instrumentation_of env each s
  = (Ok (instrumentation_instance each),
     add_events s [EvNewInstrumentation (instrumentation_instance each)]).
Proof.
  intros (m & Hm & Hc). unfold instrumentation_of, require. rewrite Hm.
  unfold bind at 1. simpl. rewrite (constructs_found _ _ Hc). simpl.
  by rewrite (bind_Ok _ _ _ _ _ (construct_Ok _ _ _ _ Hc)).
Qed.

Lemma unknown_sampler_kind env t s :
  missing (base env) (kind (sampler t)) →
  _getSampler env t s = (Throw ("Unknown sampler " +:+ kind (sampler t)), s).
Proof. unfold missing, _getSampler. by intros ->. Qed.

Lemma unknown_sampler_root env t s :
  kind (sampler t) = "ParentBasedSampler" →
  found (member (base env) (kind (sampler t))) = true →
  missing (base env) (js_key (root (sampler t))) →
  _getSampler env t s
  = (Throw ("Unknown sampler " +:+ js_key (root (sampler t))), s).
Proof.
  unfold missing, _getSampler. intros Hk -> Hr. rewrite Hk. simpl.
  unfold bind. by rewrite Hr.
Qed.







(* ===================================================================== *)
(** ** Unknown kinds and classes (lines 36-47, 50-74, 76-82) *)
(* ===================================================================== *)


(** Decides a closed statement by evaluation. *)
Ltac by_compute :=
  first [ apply (bool_decide_unpack _); vm_compute; exact I
        | vm_compute; reflexivity ].



(* ===================================================================== *)
(** ** The composite propagator (lines 50-64) *)
(* ===================================================================== *)

Lemma _getPropagator_known env t s :
  Forall (propagator_known env) (propagators t) →
  let ps := map propagator_instance (propagators t) in
  fst (_getPropagator env t s) = Ok ps
  ∧ st_trace (snd (_getPropagator env t s))
    = st_trace s ++ map EvNewPropagator ps ++ [EvNewCompositePropagator ps].
Proof.
  intros Hk ps. unfold _getPropagator, bind.
  destruct (for_each_push_Ok (propagator_of env) propagator_instance
              (λ a, EvNewPropagator (propagator_instance a))
              (propagators t) [] s) as (H1 & _ & H2).
  { intros a Ha s0. rewrite Forall_forall in Hk.
    by apply propagator_of_known, Hk. }
  destruct (for_each_push _ _ _ _) as [[r|msg] s1]; simplify_eq/=.
  split; [done|]. subst ps. rewrite H2, <- app_assoc. by rewrite map_map.
Qed.

Lemma composite_inject_last inject pre b post k v carrier :
  (∀ c, inject b c !! k = Some v) →
  Forall (λ a, ∀ c, inject a c !! k = c !! k) post →
  composite_inject inject (pre ++ b :: post) carrier !! k = Some v.
Proof.
  intros Hb Hpost. unfold composite_inject.
  rewrite foldl_app. simpl.
  generalize (foldl (λ c p, inject p c) carrier pre). intros c0.
  assert (inject b c0 !! k = Some v) as H by apply Hb.
  revert H. generalize (inject b c0). clear Hb.
  induction Hpost as [|a post Ha _ IH]; intros c H; simpl; [done|].
  apply IH. by rewrite Ha.
Qed.

(** C8. For every list of propagator entries that resolve, the list given
    to the composite propagator is the list of the propagators built from
    the entries, one for each entry and in the order of the entries; the
    propagators are built in that order too. Conversely, whenever a
    composite is built, it was given exactly that list. As the composite
    applies its list in order, an entry [B] that writes a key wins over
    every entry before it that writes the same key, as long as no entry
    after [B] touches the key; for two entries [A] then [B], the value
    under the key is the one written by [B]. *)
Theorem composite_propagator_order env t s :
  let ps := map propagator_instance (propagators t) in
  (∀ r s', _getPropagator env t s = (Ok r, s') → r = ps)
  ∧ (Forall (propagator_known env) (propagators t) →
     fst (_getPropagator env t s) = Ok ps
     ∧ st_trace (snd (_getPropagator env t s))
       = st_trace s ++ map EvNewPropagator ps ++ [EvNewCompositePropagator ps])
  ∧ (∀ inject pre b post k v carrier,
       propagators t = pre ++ b :: post →
       (∀ c, inject (propagator_instance b) c !! k = Some v) →
       Forall (λ a, ∀ c, inject (propagator_instance a) c !! k = c !! k) post →
       composite_inject inject ps carrier !! k = Some v).
Proof.
  intros ps. split_and!.
  - intros r s' H. unfold _getPropagator in H.
    apply bind_Ok_inv in H as (r0 & s1 & Hloop & H).
    unfold bind, emit, ret in H. simplify_eq/=.
    apply (for_each_push_Ok_inv _ propagator_instance) in Hloop; [done|].
    intros a s0 b s0'. apply propagator_of_Ok.
  - apply _getPropagator_known.
  - intros inject pre b post k v carrier Hl Hb Hpost.
    unfold ps. rewrite Hl, map_app. simpl.
    apply composite_inject_last; [done|]. by apply Forall_fmap.
Qed.

Lemma composite_propagator_order_witness :
  let t := Sample.tracing_with (sampler Sample.tracing_spec)
             Sample.two_propagators Sample.exporter_spec in
  let ps := map propagator_instance Sample.two_propagators in
  fst (_getPropagator Sample.env t Sample.start) = Ok ps
  ∧ map inst_class ps = ["A"; "B"]
  ∧ composite_inject Sample.inject ps ∅ !! "traceparent" = Some "B".
Proof.
  intros t ps.
  destruct (composite_propagator_order Sample.env t Sample.start)
    as (_ & H2 & H3).
  split_and!.
  - apply H2. repeat constructor; exists (classes ["A"; "B"]); (split; [done|by_compute]).
  - done.
  - apply (H3 Sample.inject
              [Custom {| mc_module := "p"; mc_class := "A"; mc_config := None |}]
              (Custom {| mc_module := "p"; mc_class := "B"; mc_config := None |})
              [] "traceparent" "B" ∅); [done| |done].
    intros c. apply lookup_insert_eq.
Defined.

(* ===================================================================== *)
(** ** What each part of the bootstrap does to the providers *)
(* ===================================================================== *)

Lemma _getPropagator_reuses env t :
  through (reuses assembly_event) (_getPropagator env t).
Proof.
  unfold _getPropagator, propagator_of. through_steps; done.
Qed.

Lemma _getInstrumentations_reuses env :
  through (reuses assembly_event) (_getInstrumentations env).
Proof.
  unfold _getInstrumentations, instrumentation_of. through_steps; done.
Qed.

Lemma _getSampler_assembly env t :
  through (reuses assembly_event) (_getSampler env t).
Proof.
  eapply through_impl; [|apply _getSampler_reuses].
  intros s s'. apply reuses_impl. by intros e [smp ->].
Qed.

Lemma _getExporter_reuses env tracingExporter :
  through (reuses quiet_event) (_getExporter env tracingExporter).
Proof.
  unfold _getExporter, new_copy, inject_dynatrace, inject_cloud_logging.
  through_steps; done.
Qed.

Lemma addSpanProcessor_reuses id p :
  through (reuses pipeline_event) (addSpanProcessor id p).
Proof.
  intros s. split; [split; [done|]|].
  - intros id'. simpl. rewrite lookup_alter.
    case_decide; [|done]. subst. by destruct (st_providers s !! id').
  - exists [EvAddSpanProcessor id p]. split; [done|]. by constructor.
Qed.

Lemma set_tracer_reuses (P : Event → Prop) t : through (reuses P) (set_tracer t).
Proof. intros s. split; [done|]. exists []. by rewrite app_nil_r. Qed.

Lemma expose_tracer_reuses env :
  through (reuses (λ e, quiet_event e ∧ is_new_exporter e = false))
          (expose_tracer env).
Proof.
  unfold expose_tracer. through_steps; try done. apply set_tracer_reuses.
Qed.

Lemma attach_processor_reuses env tracingExporter id :
  through (reuses pipeline_event) (attach_processor env tracingExporter id).
Proof.
  unfold attach_processor. through_steps; try done.
  - eapply through_impl; [|apply _getExporter_reuses].
    intros s s'. apply reuses_impl. by intros e [? ?].
  - apply addSpanProcessor_reuses.
Qed.

Lemma attach_processor_bypass env tracingExporter id :
  oneagent_present env = true →
  through (reuses (λ e, quiet_event e ∧ is_new_exporter e = false))
          (attach_processor env tracingExporter id).
Proof.
  intros H. unfold attach_processor. rewrite H. through_steps; done.
Qed.

Lemma general_setup_delegate env t resource s d :
  st_delegate s = Some d →
  general_setup env t resource s
  = (Ok d, if log_warn env
           then add_events s [EvLog Warn already_initialized] else s).
Proof.
  intros H. unfold general_setup, bind, get_state, log. rewrite H.
  by destruct (log_warn env).
Qed.

Lemma pipeline_reuses env tracingExporter id :
  through (reuses pipeline_event)
    (attach_processor env tracingExporter id ;; expose_tracer env).
Proof.
  apply through_bind; [apply _| |intros ?].
  - apply attach_processor_reuses.
  - eapply through_impl; [|apply expose_tracer_reuses].
    intros s1 s2. apply reuses_impl. by intros e [[? ?] ?].
Qed.

Lemma bootstrap_reuses env resource s d :
  st_delegate s = Some d →
  reuses pipeline_event s (snd (bootstrap env resource s)).
Proof.
  intros H. unfold bootstrap.
  destruct (tracing (telemetry env)) as [t|]; [|done].
  destruct (exporter t) as [te|]; [|done].
  unfold bind at 1. rewrite (general_setup_delegate _ _ _ _ _ H).
  etrans; [|apply (pipeline_reuses env te d)].
  destruct (log_warn env); [|done].
  split; [done|]. by apply emits_add_events, Forall_singleton.
Qed.

Lemma filter_none (f : Event → bool) (evs : list Event) :
  Forall (λ e, f e = false) evs → List.filter f evs = [].
Proof.
  induction 1 as [|e evs He _ IH]; simpl; [done|]. by rewrite He.
Qed.

Lemma general_setup_fresh env t resource s id sA :
  st_delegate s = None →
  general_setup env t resource s = (Ok id, sA) →
  st_providers s !! id = None
  ∧ st_delegate sA = Some id
  ∧ is_Some (st_providers sA !! id)
  ∧ (∀ id', id' ≠ id →
       provider_core <$> st_providers sA !! id'
       = provider_core <$> st_providers s !! id')
  ∧ ∃ evs1 evs2,
      st_trace sA = st_trace s ++ evs1 ++ EvNewProvider id :: evs2
      ∧ Forall assembly_event evs1 ∧ Forall assembly_event evs2.
Proof.
  intros Hd H. unfold general_setup in H.
  apply bind_Ok_inv in H as (s0 & s0' & [= <- <-] & H).
  rewrite Hd in H.
  apply bind_Ok_inv in H as (smp & s1 & H1 & H).
  pose proof (_getSampler_assembly env t s) as R1.
  rewrite H1 in R1. simpl in R1.
  apply bind_Ok_inv in H as (id0 & s2 & H2 & H).
  unfold new_provider, bind, get_state, set_providers, emit, ret in H2.
  simpl in H2. injection H2 as <- <-.
  apply bind_Ok_inv in H as (ps & s3 & H3 & H).
  match type of H3 with _ ?s2 = _ =>
    pose proof (_getPropagator_reuses env t s2) as R3 end.
  rewrite H3 in R3. simpl in R3.
  apply bind_Ok_inv in H as ([] & s4 & H4 & H).
  unfold register, bind, set_delegate, emit in H4. simpl in H4.
  injection H4 as <-.
  apply bind_Ok_inv in H as (insts & s5 & H5 & H).
  match type of H5 with _ ?s4 = _ =>
    pose proof (_getInstrumentations_reuses env s4) as R5 end.
  rewrite H5 in R5. simpl in R5.
  unfold bind, emit, ret in H. simpl in H. injection H as <- <-.
  destruct R1 as [[D1 P1] (e1 & T1 & F1)].
  destruct R3 as [[D3 P3] (e3 & T3 & F3)].
  destruct R5 as [[D5 P5] (e5 & T5 & F5)].
  simpl in *.
  set (id := fresh (dom (st_providers s1))) in *.
  assert (st_providers s1 !! id = None) as Hfresh.
  { apply not_elem_of_dom, is_fresh. }
  split_and!.
  - specialize (P1 id). rewrite Hfresh in P1.
    by destruct (st_providers s !! id).
  - done.
  - specialize (P5 id). specialize (P3 id).
    rewrite lookup_insert_eq in P3. rewrite P3 in P5.
    by destruct (st_providers s5 !! id).
  - intros id' Hne. rewrite P5, P3, lookup_insert_ne by done. apply P1.
  - exists e1, (e3 ++ EvRegister id ps :: e5 ++ [EvRegisterInstrumentations id insts]).
    split_and!.
    + rewrite T5. simpl. rewrite T3. simpl. rewrite T1.
      by rewrite <- !app_assoc.
    + done.
    + apply Forall_app. split; [done|]. constructor; [done|].
      apply Forall_app. split; [done|]. by constructor.
Qed.

(* ===================================================================== *)
(** ** The general setup with a delegate in place (lines 114-125) *)
(* ===================================================================== *)

(* ===================================================================== *)
(** ** The events of the exporter and of the general setup *)
(* ===================================================================== *)

Lemma reuses_no_event s s' :
  reuses no_event s s' → same_providers s s' ∧ st_trace s' = st_trace s.
Proof.
  intros [Hp (evs & Ht & F)]. split; [done|].
  destruct evs as [|e evs]; [by rewrite app_nil_r in Ht|].
  by apply Forall_cons in F as [[] _].
Qed.

Lemma inject_dynatrace_silent env c : through (reuses no_event) (inject_dynatrace env c).
Proof. unfold inject_dynatrace. through_steps. Qed.

Lemma inject_cloud_logging_silent env c :
  through (reuses no_event) (inject_cloud_logging env c).
Proof. unfold inject_cloud_logging. through_steps. Qed.

Lemma _getExporter_Ok_trace env tracingExporter s e s' :
  _getExporter env tracingExporter s = (Ok e, s') →
  st_delegate s' = st_delegate s
  ∧ st_trace s'
    = st_trace s ++ EvNewExporter e
        :: (if log_debug env then [EvLog Debug "Using tracing exporter:"] else []).
Proof.
  intros H. unfold _getExporter in H.
  apply bind_Ok_inv in H as (m & s1 & Hm & H).
  assert (s1 = s) as ->.
  { unfold require, ret, throw in Hm. repeat case_match; by simplify_eq. }
  destruct (negb _); [done|].
  apply bind_Ok_inv in H as (c & s2 & H2 & H).
  assert (st_delegate s2 = st_delegate s ∧ st_trace s2 = st_trace s) as [D2 T2].
  { unfold new_copy, bind, get_state, set_heap, ret in H2. simpl in H2.
    by simplify_eq. }
  apply bind_Ok_inv in H as ([] & s3 & H3 & H).
  match type of H3 with _ ?s2 = _ =>
    pose proof (inject_dynatrace_silent env c s2) as R3 end.
  rewrite H3 in R3. apply reuses_no_event in R3 as [[D3 _] T3].
  apply bind_Ok_inv in H as ([] & s4 & H4 & H).
  pose proof (inject_cloud_logging_silent env c s3) as R4.
  rewrite H4 in R4. apply reuses_no_event in R4 as [[D4 _] T4].
  apply bind_Ok_inv in H as ([] & s4' & Hc & H).
  apply construct_Ok_inv in Hc as [_ ->].
  apply bind_Ok_inv in H as ([] & s5 & [= <-] & H).
  apply bind_Ok_inv in H as ([] & s6 & H6 & [= <- <-]).
  simpl in *. unfold log, emit, ret in H6. split.
  - destruct (log_debug env); simplify_eq/=; congruence.
  - destruct (log_debug env); simplify_eq/=.
    + rewrite T4, T3, T2. by rewrite <- app_assoc.
    + by rewrite T4, T3, T2.
Qed.

Lemma general_setup_Ok env t resource s id sA :
  general_setup env t resource s = (Ok id, sA) →
  st_delegate sA = Some id
  ∧ emits (λ e, is_add_processor e = false ∧ is_new_exporter e = false) s sA.
Proof.
  intros H. destruct (st_delegate s) as [d|] eqn:Hd.
  - rewrite (general_setup_delegate _ _ _ _ _ Hd) in H.
    destruct (log_warn env); simplify_eq; split; try done.
    by apply emits_add_events, Forall_singleton.
  - destruct (general_setup_fresh _ _ _ _ _ _ Hd H)
      as (_ & HdA & _ & _ & e1 & e2 & HtA & F1 & F2).
    split; [done|]. exists (e1 ++ EvNewProvider id :: e2). split; [done|].
    apply Forall_app. split; [|constructor; [done|]].
    + eapply Forall_impl; [exact F1|]. by intros e (? & ? & ?).
    + eapply Forall_impl; [exact F2|]. by intros e (? & ? & ?).
Qed.

Lemma through_emits_silent {A} (P : Event → Prop) (m : M A) :
  (∀ s, st_trace (snd (m s)) = st_trace s) → through (emits P) m.
Proof. intros H s. exists []. by rewrite app_nil_r. Qed.

Lemma through_reuses_emits {A} (P Q : Event → Prop) (m : M A) :
  (∀ e, P e → Q e) → through (reuses P) m → through (emits Q) m.
Proof. intros HPQ Hm s. destruct (Hm s) as [_ He]. by eapply emits_impl. Qed.

Lemma general_setup_emits env t resource :
  through (emits (λ e, is_add_processor e = false ∧ is_new_exporter e = false))
          (general_setup env t resource).
Proof.
  assert (∀ e, assembly_event e
               → is_add_processor e = false ∧ is_new_exporter e = false) as HQ.
  { by intros e (? & ? & ?). }
  unfold general_setup, new_provider, register. through_steps; try done.
  all: lazymatch goal with
       | |- through _ (_getSampler _ _) =>
           eapply through_reuses_emits; [exact HQ|apply _getSampler_assembly]
       | |- through _ (_getPropagator _ _) =>
           eapply through_reuses_emits; [exact HQ|apply _getPropagator_reuses]
       | |- through _ (_getInstrumentations _) =>
           eapply through_reuses_emits;
           [exact HQ|apply _getInstrumentations_reuses]
       | |- through _ (log _ _ _) =>
           apply (through_reuses_emits
                    (λ e, is_add_processor e = false ∧ is_new_exporter e = false));
           [done|by apply through_log]
       | |- _ => by apply through_emits_silent
       end.
Qed.

(* ===================================================================== *)
(** ** The object store *)
(* ===================================================================== *)

Lemma fresh_loc_None (h : heap) : h !! fresh_loc h = None.
Proof. unfold fresh_loc. apply (not_elem_of_dom (D:=gset loc)), is_fresh. Qed.

Lemma get_prop_nonnull (h : heap) l k :
  nullish (get_prop h l k) = false → is_Some (h !! l).
Proof. unfold get_prop. by destruct (h !! l). Qed.

Lemma get_prop_insert_eq (h : heap) l (o : obj) k :
  get_prop (<[l := o]> h) l k = default VUndef (o !! k).
Proof. unfold get_prop. by rewrite lookup_insert_eq. Qed.

Lemma get_prop_insert_ne (h : heap) l (o : obj) l' k :
  l ≠ l' → get_prop (<[l := o]> h) l' k = get_prop h l' k.
Proof. intros. unfold get_prop. by rewrite lookup_insert_ne. Qed.

Lemma get_prop_set_prop_eq (h : heap) l k x :
  is_Some (h !! l) → get_prop (set_prop h l k x) l k = x.
Proof.
  intros [o Ho]. unfold set_prop. rewrite Ho, get_prop_insert_eq.
  by rewrite lookup_insert_eq.
Qed.

Lemma get_prop_set_prop_ne (h : heap) l k x l' k' :
  l ≠ l' ∨ k ≠ k' → get_prop (set_prop h l k x) l' k' = get_prop h l' k'.
Proof.
  intros Hne. unfold set_prop. destruct (h !! l) as [o|] eqn:Ho; [|done].
  destruct (decide (l = l')) as [<-|]; [|by apply get_prop_insert_ne].
  rewrite get_prop_insert_eq. unfold get_prop. rewrite Ho.
  destruct Hne as [|Hk]; [done|]. by rewrite lookup_insert_ne.
Qed.

Lemma set_prop_lookup_ne (h : heap) l k x l' :
  l ≠ l' → set_prop h l k x !! l' = h !! l'.
Proof.
  intros. unfold set_prop. destruct (h !! l); [|done]. by rewrite lookup_insert_ne.
Qed.

Lemma set_prop_is_Some (h : heap) l k x l' :
  is_Some (set_prop h l k x !! l') ↔ is_Some (h !! l').
Proof.
  unfold set_prop. destruct (h !! l) as [o|] eqn:Ho; [|done].
  destruct (decide (l = l')) as [<-|].
  - rewrite lookup_insert_eq, Ho. split; eauto.
  - by rewrite lookup_insert_ne.
Qed.

#[global] Instance heap_fww_refl : Reflexive heap_fww.
Proof. by intros h l k. Qed.

#[global] Instance heap_fww_trans : Transitive heap_fww.
Proof.
  intros h1 h2 h3 H12 H23 l k Hn.
  rewrite H23; [by apply H12|]. by rewrite H12.
Qed.

#[global] Instance first_write_wins_refl : Reflexive first_write_wins.
Proof. intros s. apply heap_fww_refl. Qed.

#[global] Instance first_write_wins_trans : Transitive first_write_wins.
Proof. intros s1 s2 s3. apply heap_fww_trans. Qed.

Lemma set_prop_fww (h : heap) l k x :
  nullish (get_prop h l k) = true → heap_fww h (set_prop h l k x).
Proof.
  intros Hn l' k' Hn'. apply get_prop_set_prop_ne.
  destruct (decide (l = l')) as [<-|]; [|by left].
  right. intros <-. congruence.
Qed.

Lemma nullish_assign_fww (h : heap) l k x : heap_fww h (nullish_assign h l k x).
Proof.
  unfold nullish_assign. destruct (nullish _) eqn:E; [|done].
  by apply set_prop_fww.
Qed.

Lemma insert_fresh_fww (h : heap) (o : obj) :
  heap_fww h (<[fresh_loc h := o]> h).
Proof.
  intros l k Hn. apply get_prop_insert_ne. intros <-.
  apply get_prop_nonnull in Hn as [? Hl]. by rewrite fresh_loc_None in Hl.
Qed.

Lemma nullish_assign_new_fww (h : heap) l k :
  heap_fww h (nullish_assign_new h l k).
Proof.
  unfold nullish_assign_new, alloc. destruct (nullish _) eqn:E; [|done].
  etrans; [apply insert_fresh_fww|]. apply set_prop_fww.
  destruct (decide (fresh_loc h = l)) as [<-|].
  - by rewrite get_prop_insert_eq.
  - by rewrite get_prop_insert_ne.
Qed.

Lemma nullish_assign_val_fww (h : heap) v k x :
  heap_fww h (nullish_assign_val h v k x).
Proof. destruct v; try done. apply nullish_assign_fww. Qed.

Lemma through_fww_same_heap {A} (m : M A) :
  (∀ s, st_heap (snd (m s)) = st_heap s) → through first_write_wins m.
Proof. intros H s. unfold first_write_wins. by rewrite H. Qed.

Lemma through_fww_modify (f : heap → heap) :
  (∀ h, heap_fww h (f h)) → through first_write_wins (modify_heap f).
Proof. intros H s. apply H. Qed.

Lemma new_copy_fww config : through first_write_wins (new_copy config).
Proof. intros s. apply insert_fresh_fww. Qed.

Ltac fww_steps :=
  through_steps;
  lazymatch goal with
  | |- through _ (modify_heap _) =>
      apply through_fww_modify; intros ?;
      first [ apply nullish_assign_fww | apply nullish_assign_new_fww
            | apply nullish_assign_val_fww ]
  | |- through _ (new_copy _) => apply new_copy_fww
  | |- through _ (log ?b _ _) => destruct b; by apply through_fww_same_heap
  | |- _ => by apply through_fww_same_heap
  end.

Lemma inject_dynatrace_fww env c :
  through first_write_wins (inject_dynatrace env c).
Proof. unfold inject_dynatrace. fww_steps. Qed.

Lemma inject_cloud_logging_fww env c :
  through first_write_wins (inject_cloud_logging env c).
Proof. unfold inject_cloud_logging. fww_steps. Qed.

Lemma _getExporter_fww env tracingExporter :
  through first_write_wins (_getExporter env tracingExporter).
Proof.
  unfold _getExporter, inject_dynatrace, inject_cloud_logging. fww_steps.
Qed.

(* ===================================================================== *)
(** ** Injection of the credentials, step by step *)
(* ===================================================================== *)

Lemma _getExporter_known env tracingExporter s :
  exporter_known env tracingExporter →
  _getExporter env tracingExporter s = configure_exporter env tracingExporter s.
Proof.
  intros (m & Hm & Hc). unfold exporter_module in Hm.
  unfold _getExporter, configure_exporter, require. unfold bind at 1.
  destruct (String.eqb _ _); simpl.
  - injection Hm as <-. unfold constructs in Hc. by rewrite Hc.
  - rewrite Hm. simpl. unfold constructs in Hc. by rewrite Hc.
Qed.

Lemma _getExporter_Ok_resolves env tracingExporter s e s' :
  _getExporter env tracingExporter s = (Ok e, s') →
  exporter_known env tracingExporter.
Proof.
  intros H. unfold _getExporter in H.
  apply bind_Ok_inv in H as (m & s0 & Hm & H).
  assert (exporter_module env tracingExporter = inl m) as Em.
  { unfold exporter_module. destruct (String.eqb _ _).
    - unfold ret in Hm. by simplify_eq.
    - unfold require in Hm. destruct (_require env _);
        unfold ret, throw in Hm; by simplify_eq. }
  exists m. split; [done|].
  destruct (negb _); [done|].
  apply bind_Ok_inv in H as (c & s1 & _ & H).
  apply bind_Ok_inv in H as ([] & s2 & _ & H).
  apply bind_Ok_inv in H as ([] & s3 & _ & H).
  apply bind_Ok_inv in H as ([] & s4 & Hc & _).
  by apply construct_Ok_inv in Hc as [Hc _].
Qed.

Lemma _getExporter_Ok_known env tracingExporter s e s' :
  _getExporter env tracingExporter s = (Ok e, s') →
  configure_exporter env tracingExporter s = (Ok e, s').
Proof.
  intros H. rewrite <- H. symmetry. apply _getExporter_known.
  by eapply _getExporter_Ok_resolves.
Qed.

Lemma new_copy_eq config s :
  new_copy config s
  = (Ok (fresh_loc (st_heap s)), with_heap s (copy_config (st_heap s) config).2).
Proof. done. Qed.

Lemma copy_config_get (h : heap) tracingExporter k :
  get_prop (copy_config h (ex_config tracingExporter)).2 (fresh_loc h) k
  = config_prop h tracingExporter k.
Proof.
  unfold copy_config, alloc, config_prop, own_props. simpl.
  rewrite get_prop_insert_eq. unfold get_prop.
  destruct (ex_config tracingExporter) as [c|]; [|done].
  by destruct (h !! c).
Qed.

Lemma copy_config_fresh (h : heap) config :
  is_Some ((copy_config h config).2 !! fresh_loc h).
Proof. unfold copy_config, alloc. simpl. rewrite lookup_insert_eq. eauto. Qed.

Lemma inject_cloud_logging_Ok env c s :
  ∃ s', inject_cloud_logging env c s = (Ok tt, s').
Proof.
  unfold inject_cloud_logging. destruct (getCloudLoggingCredentials env); [|by eexists].
  destruct (includes _ _); by eexists.
Qed.

Lemma inject_dynatrace_none env c s :
  (∀ d, getDynatraceCredentials env = Some d →
        includes (telemetry_kind (telemetry env)) "dynatrace" = false) →
  inject_dynatrace env c s = (Ok tt, s).
Proof.
  intros H. unfold inject_dynatrace.
  destruct (getDynatraceCredentials env) as [d|]; [|done].
  by rewrite (H d).
Qed.

Lemma inject_dynatrace_token env c s d :
  getDynatraceCredentials env = Some d →
  includes (telemetry_kind (telemetry env)) "dynatrace" = true →
  let name := token_name (telemetry env) in
  let h3 := after_headers (st_heap s) c d in
  inject_dynatrace env c s
  = if truthy (dynatrace_token h3 d name)
    then (Ok tt, with_heap s (after_authorization (st_heap s) c d name))
    else (Throw (no_token_message name), with_heap s h3).
Proof.
  intros Hd Hk name h3. unfold inject_dynatrace. rewrite Hd, Hk.
  unfold bind, modify_heap, read_heap, get_state, set_heap, ret, throw. simpl.
  fold name. change (nullish_assign_new _ c "headers") with h3.
  by destruct (truthy (dynatrace_token h3 d name)).
Qed.

(** The rest of [configure_exporter] after the injection of the first
    provider never fails and overwrites nothing. *)
Lemma configure_exporter_run env tracingExporter s :
  let c := fresh_loc (st_heap s) in
  let s1 := with_heap s (copy_config (st_heap s) (ex_config tracingExporter)).2 in
  match inject_dynatrace env c s1 with
  | (Ok _, s2) =>
      ∃ s', configure_exporter env tracingExporter s
            = (Ok {| exp_module := ex_module tracingExporter;
                     exp_class := ex_class tracingExporter;
                     exp_config := c |}, s')
            ∧ first_write_wins s2 s'
  | (Throw msg, s2) =>
      configure_exporter env tracingExporter s = (Throw msg, s2)
  end.
Proof.
  intros c s1.
  destruct (inject_dynatrace env c s1) as [[[]|msg] s2] eqn:E;
    unfold configure_exporter;
    rewrite (bind_Ok _ _ _ _ _ (new_copy_eq _ _)); fold c s1.
  2: { by rewrite (bind_Throw _ _ _ _ _ E). }
  rewrite (bind_Ok _ _ _ _ _ E).
  destruct (inject_cloud_logging_Ok env c s2) as [s3 H3].
  pose proof (inject_cloud_logging_fww env c s2) as F3. rewrite H3 in F3.
  rewrite (bind_Ok _ _ _ _ _ H3). unfold bind, emit, log, ret. simpl.
  destruct (log_debug env); eexists; (split; [done|]); exact F3.
Qed.

Lemma _getExporter_Ok_inv env tracingExporter s e s' :
  _getExporter env tracingExporter s = (Ok e, s') →
  exp_config e = fresh_loc (st_heap s)
  ∧ heap_fww (copy_config (st_heap s) (ex_config tracingExporter)).2 (st_heap s').
Proof.
  intros H. apply _getExporter_Ok_known in H.
  pose proof (configure_exporter_run env tracingExporter s) as R. simpl in R.
  pose proof (inject_dynatrace_fww env (fresh_loc (st_heap s))
                (with_heap s (copy_config (st_heap s) (ex_config tracingExporter)).2))
    as F.
  destruct (inject_dynatrace _ _ _) as [[[]|msg] s2].
  - destruct R as (s'' & R & F'). rewrite R in H. injection H as <- <-.
    split; [done|]. etrans; [exact F|exact F'].
  - congruence.
Qed.

(** A property that the declared configuration sets is found, with the
    same value, in the copy that the exporter is given. *)
Lemma _getExporter_copies env tracingExporter s e s' k v :
  _getExporter env tracingExporter s = (Ok e, s') →
  config_prop (st_heap s) tracingExporter k = v → nullish v = false →
  get_prop (st_heap s') (exp_config e) k = v.
Proof.
  intros H Hv Hn.
  destruct (_getExporter_Ok_inv _ _ _ _ _ H) as [-> F].
  rewrite F; rewrite copy_config_get; congruence.
Qed.

(* ===================================================================== *)
(** ** Explicit values are kept (lines 83-103) *)
(* ===================================================================== *)

(** C5. Whenever the exporter is built, every property of the declared
    exporter configuration that has a value (other than [null] and
    [undefined]), and [url], [headers] and [credentials] in particular,
    has that same value in the configuration object given to the exporter
    constructor; and an [authorization] set in the declared [headers] is
    the one the exporter gets. Neither injection overwrites it. *)
Theorem explicit_config_kept env tracingExporter s e s' :
  _getExporter env tracingExporter s = (Ok e, s') →
  let h := st_heap s in
  let h' := st_heap s' in
  (∀ k v, config_prop h tracingExporter k = v → nullish v = false →
     get_prop h' (exp_config e) k = v)
  ∧ (∀ hl a, config_prop h tracingExporter "headers" = VRef hl →
       get_prop h hl "authorization" = a → nullish a = false →
       get_prop h' (exp_config e) "headers" = VRef hl
       ∧ get_prop h' hl "authorization" = a).
Proof.
  intros H h h'. subst h h'. split.
  - intros k v. by eapply _getExporter_copies.
  - intros hl a Hh Ha Hn. split.
    + by eapply _getExporter_copies.
    + (* the declared headers object is in the store before and after, and
         its authorization is not nullish: no write of the injection
         replaces it *)
      pose proof (_getExporter_fww env tracingExporter s) as F.
      rewrite H in F. unfold first_write_wins, heap_fww in F. simpl in F.
      rewrite F; [done|]. by rewrite Ha.
Qed.

Lemma explicit_config_kept_witness :
  let env := Sample.env_with "telemetry-to-dynatrace-and-cloud-logging"
               (Some 2) (Some 3) in
  let r := _getExporter env (Sample.exporter_with (Some 0)) Sample.process in
  ∃ e, fst r = Ok e
       ∧ get_prop (st_heap (snd r)) (exp_config e) "url"
         = VStr "http://collector:4318/v1/traces"
       ∧ get_prop (st_heap (snd r)) (exp_config e) "headers" = VRef 1
       ∧ get_prop (st_heap (snd r)) 1 "authorization" = VStr "Bearer abc".
Proof.
  intros env r. subst r.
  destruct (_getExporter env _ _) as [[e|msg] s'] eqn:E; [|by vm_compute in E].
  exists e. split; [done|].
  destruct (explicit_config_kept env _ _ e s' E) as [H1 H2].
  split.
  - by apply H1.
  - by apply (H2 1 (VStr "Bearer abc")).
Defined.

(* ===================================================================== *)
(** ** The token is read from the credentials as they were *)
(* ===================================================================== *)

Lemma old_kept_get_prop (h0 h : heap) l k :
  old_objects_kept h0 h → is_Some (h0 !! l) → get_prop h l k = get_prop h0 l k.
Proof. intros H Hl. unfold get_prop. by rewrite (H l Hl). Qed.

Lemma old_kept_get_computed (h0 h : heap) l k :
  old_objects_kept h0 h → is_Some (h0 !! l) →
  get_computed h l k = get_computed h0 l k.
Proof. intros H Hl. unfold get_computed. by rewrite (H l Hl). Qed.

Lemma old_kept_insert_fresh (h0 h : heap) (o : obj) :
  old_objects_kept h0 h → old_objects_kept h0 (<[fresh_loc h := o]> h).
Proof.
  intros H l Hl. rewrite lookup_insert_ne; [by apply H|].
  intros <-. pose proof (H _ Hl) as E. rewrite fresh_loc_None in E.
  rewrite <- E in Hl. by destruct Hl.
Qed.

Lemma old_kept_set_prop (h0 h : heap) l k x :
  old_objects_kept h0 h → h0 !! l = None →
  old_objects_kept h0 (set_prop h l k x).
Proof.
  intros H Hnone l' Hl'. rewrite set_prop_lookup_ne; [by apply H|].
  intros <-. rewrite Hnone in Hl'. by destruct Hl'.
Qed.

Lemma old_kept_nullish_assign (h0 h : heap) l k x :
  old_objects_kept h0 h → h0 !! l = None →
  old_objects_kept h0 (nullish_assign h l k x).
Proof.
  intros. unfold nullish_assign. destruct (nullish _); [|done].
  by apply old_kept_set_prop.
Qed.

Lemma old_kept_nullish_assign_new (h0 h : heap) l k :
  old_objects_kept h0 h → h0 !! l = None →
  old_objects_kept h0 (nullish_assign_new h l k).
Proof.
  intros. unfold nullish_assign_new, alloc. destruct (nullish _); [|done].
  apply old_kept_set_prop; [|done]. by apply old_kept_insert_fresh.
Qed.

Lemma old_kept_copy (h0 : heap) config :
  old_objects_kept h0 (copy_config h0 config).2.
Proof. unfold copy_config, alloc. simpl. by apply old_kept_insert_fresh. Qed.

Lemma old_kept_after_headers (h0 : heap) config d :
  old_objects_kept h0
    (after_headers (copy_config h0 config).2 (fresh_loc h0) d).
Proof.
  apply old_kept_nullish_assign_new; [|apply fresh_loc_None].
  apply old_kept_nullish_assign; [|apply fresh_loc_None].
  apply old_kept_copy.
Qed.

Lemma token_stable (h0 h : heap) d name :
  old_objects_kept h0 h → is_Some (h0 !! d) → closed h0 →
  dynatrace_token h d name = dynatrace_token h0 d name.
Proof.
  intros H Hd Hclosed. unfold dynatrace_token.
  rewrite (old_kept_get_computed h0 h d), (old_kept_get_prop h0 h d) by done.
  f_equal.
  destruct (get_prop h0 d "rest_apitoken") as [| |x|r|x] eqn:Hr; try done.
  unfold get_opt_prop. simpl. apply old_kept_get_prop; [done|].
  unfold get_prop in Hr. destruct Hd as [o Ho]. rewrite Ho in Hr.
  destruct (o !! "rest_apitoken") as [v|] eqn:Hv; simplify_eq/=.
  by eapply Hclosed.
Qed.

Lemma _getExporter_dynatrace env tracingExporter s d :
  exporter_known env tracingExporter →
  getDynatraceCredentials env = Some d →
  includes (telemetry_kind (telemetry env)) "dynatrace" = true →
  is_Some (st_heap s !! d) → closed (st_heap s) →
  let name := token_name (telemetry env) in
  let c := fresh_loc (st_heap s) in
  let h1 := (copy_config (st_heap s) (ex_config tracingExporter)).2 in
  if truthy (dynatrace_token (st_heap s) d name)
  then ∃ s', _getExporter env tracingExporter s
             = (Ok {| exp_module := ex_module tracingExporter;
                      exp_class := ex_class tracingExporter;
                      exp_config := c |}, s')
             ∧ heap_fww (after_authorization h1 c d name) (st_heap s')
  else fst (_getExporter env tracingExporter s) = Throw (no_token_message name).
Proof.
  intros Hknown Hd Hk Hin Hclosed name c h1.
  rewrite (_getExporter_known _ _ _ Hknown).
  pose proof (configure_exporter_run env tracingExporter s) as R. simpl in R.
  rewrite (inject_dynatrace_token _ _ _ _ Hd Hk) in R. simpl in R.
  fold name c h1 in R.
  rewrite (token_stable (st_heap s)) in R;
    [|apply old_kept_after_headers|done|done].
  destruct (truthy _); [done|]. by rewrite R.
Qed.

Lemma after_url_is_Some (h : heap) c d l :
  is_Some (after_url h c d !! l) ↔ is_Some (h !! l).
Proof.
  unfold after_url, nullish_assign. destruct (nullish _); [|done].
  apply set_prop_is_Some.
Qed.

Lemma after_url_other (h : heap) c d l k :
  k ≠ "url" → get_prop (after_url h c d) l k = get_prop h l k.
Proof.
  intros. unfold after_url, nullish_assign. destruct (nullish _); [|done].
  apply get_prop_set_prop_ne. by right.
Qed.

Lemma after_authorization_url (h : heap) c d name :
  is_Some (h !! c) → nullish (get_prop h c "url") = true →
  get_prop (after_authorization h c d name) c "url"
  = VStr (to_string (get_prop h d "apiurl") +:+ "/v2/otlp/v1/traces").
Proof.
  intros Hc Hn.
  assert (get_prop (after_url h c d) c "url"
          = VStr (to_string (get_prop h d "apiurl") +:+ "/v2/otlp/v1/traces"))
    as H2.
  { unfold after_url, nullish_assign. rewrite Hn.
    by apply get_prop_set_prop_eq. }
  rewrite <- H2. unfold after_authorization, after_headers.
  assert (heap_fww (after_url h c d)
            (nullish_assign_val (nullish_assign_new (after_url h c d) c "headers")
               (get_prop (nullish_assign_new (after_url h c d) c "headers") c "headers")
               "authorization"
               (VStr ("Api-Token " +:+ to_string
                        (dynatrace_token
                           (nullish_assign_new (after_url h c d) c "headers")
                           d name))))) as F.
  { etrans; [apply nullish_assign_new_fww|apply nullish_assign_val_fww]. }
  apply F. by rewrite H2.
Qed.

Lemma after_authorization_auth (h : heap) c d name :
  is_Some (h !! c) →
  holds_no_property (get_prop h c "headers") = false →
  (∀ hl, get_prop h c "headers" = VRef hl → is_Some (h !! hl)) →
  nullish (get_opt_prop h (get_prop h c "headers") "authorization") = true →
  let h4 := after_authorization h c d name in
  get_opt_prop h4 (get_prop h4 c "headers") "authorization"
  = VStr ("Api-Token "
            +:+ to_string (dynatrace_token (after_headers h c d) d name)).
Proof.
  intros Hc Hstr Href Hn h4. subst h4. unfold after_authorization.
  set (tok := VStr _). unfold after_headers.
  set (h2 := after_url h c d).
  assert (is_Some (h2 !! c)) as Hc2 by by apply after_url_is_Some.
  assert (∀ l k, k ≠ "url" → get_prop h2 l k = get_prop h l k) as Hother
    by (intros; by apply after_url_other).
  assert (get_prop h2 c "headers" = get_prop h c "headers") as Hh2
    by by apply Hother.
  unfold nullish_assign_new. rewrite Hh2.
  destruct (get_prop h c "headers") as [| |x|hl|x] eqn:Hh; simpl;
    [| |done| |done].
  3: { (* the caller's headers object *)
       rewrite Hh2. simpl. unfold get_opt_prop in Hn. simpl in Hn.
       assert (is_Some (h2 !! hl)) as Hl2 by by apply after_url_is_Some, Href.
       unfold nullish_assign.
       rewrite (Hother hl "authorization") by done.
       rewrite Hn.
       rewrite (get_prop_set_prop_ne h2 hl "authorization" tok c "headers")
         by by right.
       rewrite Hh2. unfold get_opt_prop. simpl.
       by apply get_prop_set_prop_eq. }
  all: (* a new headers object *)
    unfold alloc;
    assert (fresh_loc h2 ≠ c) as Hne
      by (intros E; destruct Hc2 as [? Hc2]; rewrite <- E in Hc2;
          by rewrite fresh_loc_None in Hc2);
    set (l := fresh_loc h2) in *;
    assert (is_Some (<[l := (∅ : obj)]> h2 !! c)) as Hc3
      by (by rewrite lookup_insert_ne);
    rewrite (get_prop_set_prop_eq _ c "headers" (VRef l) Hc3); simpl;
    unfold nullish_assign;
    rewrite (get_prop_set_prop_ne _ c "headers" (VRef l) l "authorization")
      by (by right);
    rewrite get_prop_insert_eq, lookup_empty; simpl;
    rewrite (get_prop_set_prop_ne _ l "authorization" tok c "headers")
      by (by right);
    rewrite (get_prop_set_prop_eq _ c "headers" (VRef l) Hc3);
    unfold get_opt_prop; simpl;
    apply get_prop_set_prop_eq, set_prop_is_Some;
    rewrite lookup_insert_eq; eauto.
Qed.

(* ===================================================================== *)
(** ** Injection of the Dynatrace credentials (lines 85-95) *)
(* ===================================================================== *)

Lemma config_headers_valid (h : heap) tracingExporter hl :
  closed h → config_prop h tracingExporter "headers" = VRef hl →
  is_Some (h !! hl).
Proof.
  unfold config_prop, get_prop. intros Hclosed H.
  destruct (ex_config tracingExporter) as [c|]; [|done].
  destruct (h !! c) as [o|] eqn:Ho; [|done].
  destruct (o !! "headers") as [v|] eqn:Hv; simplify_eq/=.
  by eapply Hclosed.
Qed.

Lemma no_token_throws env tracingExporter s d :
  exporter_known env tracingExporter →
  getDynatraceCredentials env = Some d →
  includes (telemetry_kind (telemetry env)) "dynatrace" = true →
  is_Some (st_heap s !! d) → closed (st_heap s) →
  truthy (dynatrace_token (st_heap s) d (token_name (telemetry env))) = false →
  ∃ msg, fst (_getExporter env tracingExporter s) = Throw msg
         ∧ includes msg (token_name (telemetry env)) = true
         ∧ includes msg "rest_apitoken.token" = true.
Proof.
  intros Hknown Hd Hk Hin Hclosed Htok.
  pose proof (_getExporter_dynatrace _ _ _ _ Hknown Hd Hk Hin Hclosed) as R.
  simpl in R. rewrite Htok in R.
  eexists. split; [exact R|]. apply no_token_message_names.
Qed.



Lemma closed_by_check (h : heap) :
  map_Forall (λ _ (o : obj), map_Forall (λ _ v, ref_ok h v = true) o) h →
  closed h.
Proof.
  intros H l o k r Hl Hk.
  specialize (H l o Hl k (VRef r) Hk). simpl in H.
  by apply bool_decide_eq_true_1 in H.
Qed.

Lemma sample_store_closed : closed Sample.store.
Proof. apply closed_by_check. by_compute. Qed.

Lemma sample_exporter_known k dynatrace clc config :
  exporter_known (Sample.env_with k dynatrace clc) (Sample.exporter_with config).
Proof. exists (classes ["Exp"]). split; [done|]. by_compute. Qed.


(* ===================================================================== *)
(** ** The token is required in any case (lines 88-94) *)
(* ===================================================================== *)

(** C4, as it is stated, fails: the declared configuration at 0 sets
    [headers.authorization], the lookup of the credentials at 7 yields no
    token under either name, and the construction of the exporter fails
    over the missing token. *)
Lemma token_required_despite_authorization :
  let env := Sample.env_with "telemetry-to-dynatrace" (Some 7) None in
  let te := Sample.exporter_with (Some 0) in
  get_opt_prop Sample.store (config_prop Sample.store te "headers")
    "authorization" = VStr "Bearer abc"
  ∧ get_computed Sample.store 7 "ingest_apitoken" = VUndef
  ∧ get_opt_prop Sample.store (get_prop Sample.store 7 "rest_apitoken") "token"
    = VUndef
  ∧ fst (_getExporter env te Sample.process)
    = Throw (no_token_message "ingest_apitoken").
Proof. by vm_compute. Qed.

(** C4, as the code has it. During the injection of the Dynatrace
    credentials the token is required whether or not
    [headers.authorization] is set: when the lookup
    [dynatrace[token_name] || dynatrace.rest_apitoken?.token] yields
    nothing truthy, construction fails with a message that names both
    fields, whatever the declared configuration; when it yields a truthy
    value and [headers.authorization] is set in the declared
    configuration, construction succeeds and the exporter gets the
    declared value. *)
Theorem token_always_required env tracingExporter s d :
  exporter_known env tracingExporter →
  getDynatraceCredentials env = Some d →
  includes (telemetry_kind (telemetry env)) "dynatrace" = true →
  is_Some (st_heap s !! d) → closed (st_heap s) →
  let h := st_heap s in
  let name := token_name (telemetry env) in
  let token := dynatrace_token h d name in
  (truthy token = false →
     ∃ msg, fst (_getExporter env tracingExporter s) = Throw msg
            ∧ includes msg name = true
            ∧ includes msg "rest_apitoken.token" = true)
  ∧ (truthy token = true →
     ∀ hl a, config_prop h tracingExporter "headers" = VRef hl →
       get_prop h hl "authorization" = a → nullish a = false →
       ∃ e s', _getExporter env tracingExporter s = (Ok e, s')
         ∧ get_prop (st_heap s') (exp_config e) "headers" = VRef hl
         ∧ get_prop (st_heap s') hl "authorization" = a).
Proof.
  intros Hknown Hd Hk Hin Hclosed h name token. split.
  - intros Htok. by eapply no_token_throws.
  - intros Htok hl a Hh Ha Hn.
    pose proof (_getExporter_dynatrace _ _ _ _ Hknown Hd Hk Hin Hclosed) as R.
    simpl in R. fold h name token in R. rewrite Htok in R.
    destruct R as (s' & R & _). eexists _, s'. split; [exact R|]. split.
    + by eapply _getExporter_copies.
    + pose proof (_getExporter_fww env tracingExporter s) as F.
      rewrite R in F. rewrite F; [done|]. fold h. by rewrite Ha.
Qed.

Lemma token_always_required_witness :
  let te := Sample.exporter_with (Some 0) in
  (∃ msg, fst (_getExporter
                 (Sample.env_with "telemetry-to-dynatrace" (Some 7) None)
                 te Sample.process) = Throw msg
          ∧ includes msg "ingest_apitoken" = true
          ∧ includes msg "rest_apitoken.token" = true)
  ∧ (∃ e s', _getExporter
               (Sample.env_with "telemetry-to-dynatrace" (Some 2) None)
               te Sample.process = (Ok e, s')
             ∧ get_prop (st_heap s') (exp_config e) "headers" = VRef 1
             ∧ get_prop (st_heap s') 1 "authorization" = VStr "Bearer abc").
Proof.
  intros te. split.
  - destruct (token_always_required
                (Sample.env_with "telemetry-to-dynatrace" (Some 7) None)
                te Sample.process 7) as [H _];
      [apply sample_exporter_known|done|done|by_compute
      |apply sample_store_closed|].
    by apply H.
  - destruct (token_always_required
                (Sample.env_with "telemetry-to-dynatrace" (Some 2) None)
                te Sample.process 2) as [_ H];
      [apply sample_exporter_known|done|done|by_compute
      |apply sample_store_closed|].
    by apply (H eq_refl 1 (VStr "Bearer abc")).
Defined.

(* ===================================================================== *)
(** ** The declared configuration and the copy (lines 83-101) *)
(* ===================================================================== *)

(** C9, evaluated. The declared configuration at 5 has a [headers] object,
    at 6, without [authorization]. After the exporter is assembled with
    the credentials at 2, the configuration object itself is as it was and
    still refers to the object at 6, but that object has gained the
    [authorization] header: the copy of line 83 is shallow and line 94
    writes through it into the object of the caller. *)
Lemma exporter_assembly_writes_declared_headers :
  let env := Sample.env_with "telemetry-to-dynatrace" (Some 2) None in
  let te := Sample.exporter_with (Some 5) in
  let s' := snd (_getExporter env te Sample.process) in
  (∃ e, fst (_getExporter env te Sample.process) = Ok e)
  ∧ st_heap s' !! 5 = Sample.store !! 5
  ∧ config_prop Sample.store te "headers" = VRef 6
  ∧ get_prop Sample.store 6 "authorization" = VUndef
  ∧ get_prop (st_heap s') 6 "authorization" = VStr "Api-Token dt0c01.tok"
  ∧ st_heap s' !! 6 ≠ Sample.store !! 6.
Proof.
  intros env te s'. split_and!.
  - eexists. vm_compute. reflexivity.
  - by vm_compute.
  - by vm_compute.
  - by vm_compute.
  - by vm_compute.
  - intros H.
    apply (f_equal (λ o : option obj,
                      o ≫= (λ o' : obj, o' !! "authorization"))) in H.
    by vm_compute in H.
Qed.

(* ===================================================================== *)
(** ** The end-to-end scenario of the specification *)
(* ===================================================================== *)

(** With the sample configuration, no provider in place and a runtime
    mode other than production, the bootstrap ends without an error; one
    provider is created and installed; it has one span processor, a simple
    one; the tracer is obtained from it. *)
Example end_to_end_scenario :
  let r := bootstrap Sample.env None Sample.start in
  fst r = Ok tt
  ∧ st_delegate (snd r) = Some 0
  ∧ List.filter is_new_provider (st_trace (snd r)) = [EvNewProvider 0]
  ∧ tp_processors <$> st_providers (snd r) !! 0
    = Some [SimpleSpanProcessor
              {| exp_module := "m2"; exp_class := "Exp"; exp_config := 0 |}]
  ∧ st_tracer (snd r) = Some 0.
Proof. by vm_compute. Qed.

(** A second run attaches a second span processor to the same provider. *)
Example second_run_attaches_again :
  let s1 := snd (bootstrap Sample.env None Sample.start) in
  let r := bootstrap Sample.env None s1 in
  fst r = Ok tt
  ∧ st_delegate (snd r) = Some 0
  ∧ length <$> (tp_processors <$> st_providers (snd r) !! 0) = Some 2.
Proof. by vm_compute. Qed.

(* ===================================================================== *)
(** * Further properties of the assemblers *)
(* ===================================================================== *)

#[global] Instance same_heap_refl : Reflexive same_heap.
Proof. by intros s. Qed.

#[global] Instance same_heap_trans : Transitive same_heap.
Proof. intros s1 s2 s3 H1 H2. unfold same_heap in *. congruence. Qed.


(** ** The instrumentations (lines 66-74) *)




(** ** The delegate sampler (lines 36-47) *)

(** X2. [root] and [ratio] are read only for the kind
    [ParentBasedSampler]: for any other kind, two sampler entries of the
    same kind give the same result, whatever their [root] and [ratio] (an
    unknown [root] included), and the delegate is built without an
    argument. For [ParentBasedSampler] with a root kind that is found and
    constructs, the root sampler is built first, from the number
    [ratio || 0], and is the [root] argument of the delegate. The kind
    itself is taken to be found and to construct. *)
Theorem sampler_root_and_ratio env t s :
  constructs (base env) (kind (sampler t)) →
  (kind (sampler t) ≠ "ParentBasedSampler" →
     (∀ t', kind (sampler t') = kind (sampler t) →
            _getSampler env t' s = _getSampler env t s)
     ∧ fs_parent <$> (match fst (_getSampler env t s) with
                      | Ok f => Some f | Throw _ => None end)
       = Some (NewSampler (kind (sampler t)) NoArg))
  ∧ (kind (sampler t) = "ParentBasedSampler" →
     constructs (base env) (js_key (root (sampler t))) →
     let rt := NewSampler (js_key (root (sampler t)))
                 (NumberArg (ratio_or_0 (ratio (sampler t)))) in
     let parent := NewSampler "ParentBasedSampler" (RootArg rt) in
     _getSampler env t s
     = (Ok (_filterSampler
              (_shouldSample (http_ignoreIncomingPaths (telemetry env))) parent),
        add_events (add_events s [EvNewSampler rt]) [EvNewSampler parent])
     ∧ (ratio (sampler t) = None → ratio_or_0 (ratio (sampler t)) = 0%Q)).
Proof.
  intros Hb. split.
  - intros Hne. apply String.eqb_neq in Hne. split.
    + intros t' Hk. unfold _getSampler. rewrite Hk, Hne. done.
    + unfold _getSampler. rewrite (constructs_found _ _ Hb).
      rewrite Hne. simpl.
      by rewrite (bind_Ok _ _ _ _ _ (new_sampler_known _ _ _ _ _ Hb)).
  - intros Hk Hr rt parent. split; [|by intros ->].
    unfold _getSampler. rewrite (constructs_found _ _ Hb).
    rewrite Hk in *. simpl. unfold bind at 1. unfold bind at 1.
    rewrite (constructs_found _ _ Hr). simpl.
    rewrite (new_sampler_known _ _ _ _ _ Hr).
    by rewrite (new_sampler_known _ _ _ _ _ Hb).
Qed.

Lemma sampler_root_and_ratio_witness :
  let env := More.env_of (More.telemetry_with More.always_on []
                            [] More.exp) in
  let off r q := More.tracing_of {| kind := "AlwaysOffSampler"; root := r;
                                    ratio := q |} [] in
  let pb := More.tracing_of {| kind := "ParentBasedSampler";
                               root := Some "TraceIdRatioBasedSampler";
                               ratio := None |} [] in
  _getSampler env (off (Some "NoSuchSampler") (Some (1 # 2)%Q)) More.start
  = _getSampler env (off None None) More.start
  ∧ fs_parent <$> (match fst (_getSampler env pb More.start) with
                   | Ok f => Some f | Throw _ => None end)
    = Some (NewSampler "ParentBasedSampler"
              (RootArg (NewSampler "TraceIdRatioBasedSampler" (NumberArg 0%Q)))).
Proof.
  intros env off pb. split.
  - destruct (sampler_root_and_ratio env (off None None) More.start) as [H _];
      [by_compute|].
    destruct H as [H _]; [done|]. by apply H.
  - destruct (sampler_root_and_ratio env pb More.start) as [_ H];
      [by_compute|].
    destruct (H eq_refl) as [H1 _]; [by_compute|]. by rewrite H1.
Defined.

(** ** The path filter (lines 15-24) *)

Lemma append_assoc (a b c : string) : (a +:+ b) +:+ c = a +:+ (b +:+ c).
Proof.
  induction a as [|x a IH]; [done|]. by rewrite !append_cons, IH.
Qed.

Lemma startsWith_extend (u p x : string) :
  startsWith u p = true → startsWith (u +:+ x) p = true.
Proof.
  intros [t ->]%startsWith_spec. rewrite append_assoc. apply startsWith_here.
Qed.

(** X3. The filter goes by prefix: when a request is denied, every request
    whose [http.originalUrl] extends the denied one is denied as well, for
    the same ignore list. *)
Theorem denied_path_extends paths req req' u x :
  originalUrl req = Some u →
  originalUrl req' = Some (u +:+ x) →
  _shouldSample paths req = false →
  _shouldSample paths req' = false.
Proof.
  intros Hu Hu' H. apply _shouldSample_denied in H.
  apply _shouldSample_denied.
  destruct H as (ps & url & -> & Hurl & Hne & p & Hp & Hsw).
  rewrite Hu in Hurl. injection Hurl as <-.
  exists ps, (u +:+ x). split_and!; try done.
  - destruct u; [done|]. by rewrite append_cons.
  - exists p. split; [done|]. by apply startsWith_extend.
Qed.

Lemma denied_path_extends_witness :
  _shouldSample (Some ["/health"]) (More.request "/health") = false
  ∧ _shouldSample (Some ["/health"]) (More.request "/health/live?x=1") = false.
Proof.
  split; [done|].
  apply (denied_path_extends (Some ["/health"]) (More.request "/health")
           (More.request "/health/live?x=1") "/health" "/live?x=1"); done.
Defined.

(** X4. The decision depends on the set of prefixes only, and grows with
    it: a request that is denied for one ignore list is denied for every
    list that contains the same prefixes, in whatever order and however
    often. *)
Theorem denied_for_larger_list ps ps' req :
  (∀ p, p ∈ ps → p ∈ ps') →
  _shouldSample (Some ps) req = false →
  _shouldSample (Some ps') req = false.
Proof.
  intros Hsub H. apply _shouldSample_denied in H. apply _shouldSample_denied.
  destruct H as (ps0 & url & [= <-] & Hurl & Hne & p & Hp & Hsw).
  exists ps', url. split_and!; try done. exists p. split; [by apply Hsub|done].
Qed.

Lemma denied_for_larger_list_witness :
  _shouldSample (Some ["/metrics"; "/health"; "/health"])
    (More.request "/health/live") = false.
Proof.
  apply (denied_for_larger_list ["/health"]); [|done].
  intros p ->%list_elem_of_singleton. by_compute.
Defined.

(* ===================================================================== *)
(** * Further properties of the exporter assembly (lines 76-106) *)
(* ===================================================================== *)

Lemma inject_dynatrace_skipped env c s :
  dynatrace_applies env = false → inject_dynatrace env c s = (Ok tt, s).
Proof.
  unfold dynatrace_applies. intros H. apply inject_dynatrace_none.
  intros d Hd. by rewrite Hd in H.
Qed.

Lemma inject_cloud_logging_skipped env c s :
  cloud_logging_applies env = false → inject_cloud_logging env c s = (Ok tt, s).
Proof.
  unfold cloud_logging_applies, inject_cloud_logging.
  destruct (getCloudLoggingCredentials env); [|done]. by intros ->.
Qed.

Lemma inject_cloud_logging_applied env c s clc :
  getCloudLoggingCredentials env = Some clc →
  includes (telemetry_kind (telemetry env)) "cloud-logging" = true →
  inject_cloud_logging env c s
  = (Ok tt, with_heap s (after_cloud_logging (st_heap s) c clc)).
Proof. intros Hc Hk. unfold inject_cloud_logging. by rewrite Hc, Hk. Qed.

Lemma inject_cloud_logging_heap env c s :
  st_heap (snd (inject_cloud_logging env c s))
  = match getCloudLoggingCredentials env with
    | Some clc =>
        if includes (telemetry_kind (telemetry env)) "cloud-logging"
        then after_cloud_logging (st_heap s) c clc else st_heap s
    | None => st_heap s
    end.
Proof.
  unfold inject_cloud_logging.
  destruct (getCloudLoggingCredentials env); [|done].
  by destruct (includes _ _).
Qed.

(** The store in which [configure_exporter] ends is the one left by the
    two injections. *)
Lemma configure_exporter_heap env tracingExporter s :
  let c := fresh_loc (st_heap s) in
  let s1 := with_heap s (copy_config (st_heap s) (ex_config tracingExporter)).2 in
  match inject_dynatrace env c s1 with
  | (Ok _, s2) =>
      ∃ s', configure_exporter env tracingExporter s
            = (Ok {| exp_module := ex_module tracingExporter;
                     exp_class := ex_class tracingExporter;
                     exp_config := c |}, s')
            ∧ st_heap s' = st_heap (snd (inject_cloud_logging env c s2))
  | (Throw msg, s2) =>
      configure_exporter env tracingExporter s = (Throw msg, s2)
  end.
Proof.
  intros c s1.
  destruct (inject_dynatrace env c s1) as [[[]|msg] s2] eqn:E;
    unfold configure_exporter;
    rewrite (bind_Ok _ _ _ _ _ (new_copy_eq _ _)); fold c s1.
  2: { by rewrite (bind_Throw _ _ _ _ _ E). }
  rewrite (bind_Ok _ _ _ _ _ E).
  destruct (inject_cloud_logging_Ok env c s2) as [s3 H3].
  rewrite (bind_Ok _ _ _ _ _ H3), H3. unfold bind, emit, log, ret. simpl.
  destruct (log_debug env); by eexists.
Qed.

Lemma after_cloud_logging_other (h : heap) c clc l k :
  l ≠ c ∨ (k ≠ "url" ∧ k ≠ "credentials") →
  get_prop (after_cloud_logging h c clc) l k = get_prop h l k.
Proof.
  intros H. unfold after_cloud_logging, nullish_assign.
  repeat case_match; rewrite ?get_prop_set_prop_ne; try done;
    destruct H as [?|[? ?]]; auto.
Qed.

Lemma after_cloud_logging_lookup (h : heap) c clc l :
  l ≠ c → after_cloud_logging h c clc !! l = h !! l.
Proof.
  intros H. unfold after_cloud_logging, nullish_assign.
  repeat case_match; rewrite ?set_prop_lookup_ne; done.
Qed.

Lemma nullish_assign_get (h : heap) l k x :
  is_Some (h !! l) →
  get_prop (nullish_assign h l k x) l k
  = if nullish (get_prop h l k) then x else get_prop h l k.
Proof.
  intros Hl. unfold nullish_assign. destruct (nullish _); [|done].
  by apply get_prop_set_prop_eq.
Qed.

Lemma nullish_assign_is_Some (h : heap) l k x l' :
  is_Some (nullish_assign h l k x !! l') ↔ is_Some (h !! l').
Proof.
  unfold nullish_assign. destruct (nullish _); [|done]. apply set_prop_is_Some.
Qed.

Lemma nullish_assign_other (h : heap) l k x l' k' :
  l ≠ l' ∨ k ≠ k' → get_prop (nullish_assign h l k x) l' k' = get_prop h l' k'.
Proof.
  intros. unfold nullish_assign. destruct (nullish _); [|done].
  by apply get_prop_set_prop_ne.
Qed.

Lemma after_cloud_logging_url (h : heap) c clc :
  is_Some (h !! c) → c ≠ clc →
  get_prop (after_cloud_logging h c clc) c "url"
  = if nullish (get_prop h c "url") then get_prop h clc "url"
    else get_prop h c "url".
Proof.
  intros Hc Hne. unfold after_cloud_logging.
  rewrite nullish_assign_other by by right.
  by apply nullish_assign_get.
Qed.

Lemma after_cloud_logging_credentials (h : heap) c clc :
  is_Some (h !! c) → c ≠ clc →
  get_prop (after_cloud_logging h c clc) c "credentials"
  = if nullish (get_prop h c "credentials") then get_prop h clc "credentials"
    else get_prop h c "credentials".
Proof.
  intros Hc Hne. unfold after_cloud_logging.
  rewrite nullish_assign_get by by apply nullish_assign_is_Some.
  rewrite !nullish_assign_other by (by right || by left). done.
Qed.

(** ** No provider applies *)

(** X5. When neither provider applies (no credentials, or a telemetry kind
    that does not match) and the exporter class is found in its module
    and constructs, the exporter is built, with or without a token
    anywhere; it is given a new object
    that has exactly the properties of the declared configuration (none
    when there is no declared configuration), and the store is otherwise
    as it was. *)
Theorem exporter_gets_plain_copy env tracingExporter s :
  exporter_known env tracingExporter →
  dynatrace_applies env = false →
  cloud_logging_applies env = false →
  let c := fresh_loc (st_heap s) in
  ∃ s', _getExporter env tracingExporter s
        = (Ok {| exp_module := ex_module tracingExporter;
                 exp_class := ex_class tracingExporter;
                 exp_config := c |}, s')
        ∧ st_heap s !! c = None
        ∧ (∀ k, get_prop (st_heap s') c k
                = config_prop (st_heap s) tracingExporter k)
        ∧ (∀ l, l ≠ c → st_heap s' !! l = st_heap s !! l).
Proof.
  intros Hknown Hd Hc c. rewrite (_getExporter_known _ _ _ Hknown).
  pose proof (configure_exporter_heap env tracingExporter s) as R. simpl in R.
  rewrite (inject_dynatrace_skipped _ _ _ Hd) in R.
  destruct R as (s' & R & Hh). exists s'. split; [exact R|].
  rewrite (inject_cloud_logging_skipped _ _ _ Hc) in Hh. simpl in Hh.
  rewrite Hh. split_and!.
  - apply fresh_loc_None.
  - intros k. apply copy_config_get.
  - intros l Hl. unfold copy_config, alloc. simpl. by rewrite lookup_insert_ne.
Qed.

Lemma exporter_gets_plain_copy_witness :
  let env := MoreStore.env_with "telemetry-to-console" (Some 21) (Some 30) in
  let r := _getExporter env (MoreStore.exporter_with (Some 12)) MoreStore.process in
  ∃ e, fst r = Ok e
       ∧ get_prop (st_heap (snd r)) (exp_config e) "headers" = VRef 13
       ∧ get_prop (st_heap (snd r)) (exp_config e) "timeoutMillis" = VStr "500"
       ∧ get_prop (st_heap (snd r)) (exp_config e) "url" = VUndef.
Proof.
  intros env r. subst r.
  destruct (exporter_gets_plain_copy env (MoreStore.exporter_with (Some 12))
              MoreStore.process) as (s' & R & _ & Hk & _).
  { exists (classes ["Exp"]). split; [done|by_compute]. }
  { done. }
  { done. }
  rewrite R. eexists. split; [done|]. simpl. rewrite !Hk. by vm_compute.
Defined.

(** ** Cloud Logging alone (lines 97-101) *)

(** X6. When only the Cloud Logging credentials apply, the exporter is
    built whenever its class resolves; [url] and [credentials] of its
    configuration are the declared ones where the declaration gives them a
    value, and those of the credentials where it does not; every other
    property is the declared one, and no object that was in the store has
    changed. *)
Theorem cloud_logging_injection env tracingExporter s clc :
  exporter_known env tracingExporter →
  dynatrace_applies env = false →
  getCloudLoggingCredentials env = Some clc →
  includes (telemetry_kind (telemetry env)) "cloud-logging" = true →
  is_Some (st_heap s !! clc) →
  let h := st_heap s in
  let declared := config_prop h tracingExporter in
  ∃ e s', _getExporter env tracingExporter s = (Ok e, s')
    ∧ get_prop (st_heap s') (exp_config e) "url"
      = (if nullish (declared "url") then get_prop h clc "url"
         else declared "url")
    ∧ get_prop (st_heap s') (exp_config e) "credentials"
      = (if nullish (declared "credentials") then get_prop h clc "credentials"
         else declared "credentials")
    ∧ (∀ k, k ≠ "url" → k ≠ "credentials" →
            get_prop (st_heap s') (exp_config e) k = declared k)
    ∧ (∀ l, is_Some (h !! l) → st_heap s' !! l = h !! l).
Proof.
  intros Hknown Hd Hc Hk Hin h declared.
  rewrite (_getExporter_known _ _ _ Hknown).
  pose proof (configure_exporter_heap env tracingExporter s) as R. simpl in R.
  rewrite (inject_dynatrace_skipped _ _ _ Hd) in R.
  destruct R as (s' & R & Hh). eexists _, s'. split; [exact R|].
  rewrite (inject_cloud_logging_applied _ _ _ _ Hc Hk) in Hh.
  cbn [exp_config]. simpl in Hh. rewrite Hh. fold h in Hh |- *.
  set (c := fresh_loc h). set (h1 := (copy_config h (ex_config tracingExporter)).2).
  assert (is_Some (h1 !! c)) as Hc1 by apply copy_config_fresh.
  assert (c ≠ clc) as Hne.
  { intros <-. destruct Hin as [? Hin]. unfold c in Hin.
    by rewrite fresh_loc_None in Hin. }
  assert (∀ k, get_prop h1 c k = declared k) as Hcopy
    by (intros; apply copy_config_get).
  assert (∀ k, get_prop h1 clc k = get_prop h clc k) as Hclc.
  { intros k. apply old_kept_get_prop; [apply old_kept_copy|done]. }
  split_and!.
  - rewrite after_cloud_logging_url by done. by rewrite Hcopy, Hclc.
  - rewrite after_cloud_logging_credentials by done. by rewrite Hcopy, Hclc.
  - intros k ??. rewrite after_cloud_logging_other by (by right). apply Hcopy.
  - intros l Hl. rewrite after_cloud_logging_lookup.
    + by apply old_kept_copy.
    + intros ->. destruct Hl as [? Hl]. unfold c in Hl.
      by rewrite fresh_loc_None in Hl.
Qed.

Lemma cloud_logging_injection_witness :
  let env := MoreStore.env_with "telemetry-to-cloud-logging" None (Some 30) in
  (∃ e s', _getExporter env (MoreStore.exporter_with (Some 11)) MoreStore.process
           = (Ok e, s')
           ∧ get_prop (st_heap s') (exp_config e) "url"
             = VStr "http://collector:4318/v1/traces"
           ∧ get_prop (st_heap s') (exp_config e) "credentials" = VRef 31)
  ∧ (∃ e s', _getExporter env (MoreStore.exporter_with None) MoreStore.process
             = (Ok e, s')
             ∧ get_prop (st_heap s') (exp_config e) "url"
               = VStr "https://clc.example/ingest").
Proof.
  intros env. split.
  - destruct (cloud_logging_injection env (MoreStore.exporter_with (Some 11))
                MoreStore.process 30) as (e & s' & R & H1 & H2 & _);
      [exists (classes ["Exp"]); split; [done|by_compute]|done|done|done|by_compute|].
    exists e, s'. by split_and!.
  - destruct (cloud_logging_injection env (MoreStore.exporter_with None)
                MoreStore.process 30) as (e & s' & R & H1 & _);
      [exists (classes ["Exp"]); split; [done|by_compute]|done|done|done|by_compute|].
    exists e, s'. by split.
Defined.

(** ** What the injection of the first provider writes *)

Lemma after_url_other_loc (h : heap) c d l k :
  l ≠ c → get_prop (after_url h c d) l k = get_prop h l k.
Proof. intros. unfold after_url. apply nullish_assign_other. left. congruence. Qed.

Lemma after_url_lookup (h : heap) c d l :
  l ≠ c → after_url h c d !! l = h !! l.
Proof.
  intros. unfold after_url, nullish_assign. destruct (nullish _); [|done].
  apply set_prop_lookup_ne. congruence.
Qed.

Lemma nullish_assign_new_is_Some (h : heap) c k l :
  is_Some (h !! l) → is_Some (nullish_assign_new h c k !! l).
Proof.
  intros Hl. unfold nullish_assign_new, alloc. destruct (nullish _); [|done].
  apply set_prop_is_Some. destruct (decide (fresh_loc h = l)) as [<-|].
  - rewrite lookup_insert_eq. eauto.
  - by rewrite lookup_insert_ne.
Qed.

Lemma nullish_assign_new_lookup (h : heap) c k l :
  is_Some (h !! l) → l ≠ c → nullish_assign_new h c k !! l = h !! l.
Proof.
  intros Hl Hne. unfold nullish_assign_new, alloc. destruct (nullish _); [|done].
  rewrite set_prop_lookup_ne by congruence.
  apply lookup_insert_ne. intros E. rewrite <- E in Hl.
  rewrite fresh_loc_None in Hl. by destruct Hl.
Qed.

Lemma nullish_assign_new_other (h : heap) c k l k' :
  is_Some (h !! l) → l ≠ c ∨ k ≠ k' →
  get_prop (nullish_assign_new h c k) l k' = get_prop h l k'.
Proof.
  intros Hl Hne. unfold nullish_assign_new, alloc. destruct (nullish _); [|done].
  rewrite get_prop_set_prop_ne by (destruct Hne; [left; congruence|by right]).
  apply get_prop_insert_ne. intros E. rewrite <- E in Hl.
  rewrite fresh_loc_None in Hl. by destruct Hl.
Qed.

(** The value of [headers] after line 88 is the declared one, or a
    reference to an object that was not in the store. *)
Lemma after_headers_value (h : heap) c d :
  is_Some (h !! c) →
  get_prop (after_headers h c d) c "headers" = get_prop h c "headers"
  ∨ ∃ l, get_prop (after_headers h c d) c "headers" = VRef l ∧ h !! l = None.
Proof.
  intros Hc. unfold after_headers, nullish_assign_new, alloc.
  assert (is_Some (after_url h c d !! c)) as Hc2 by by apply after_url_is_Some.
  rewrite (after_url_other h c d c "headers") by done.
  destruct (nullish (get_prop h c "headers")) eqn:Hn.
  - right. exists (fresh_loc (after_url h c d)). split.
    + apply get_prop_set_prop_eq.
      destruct (decide (fresh_loc (after_url h c d) = c)) as [E|].
      * pose proof (fresh_loc_None (after_url h c d)) as F. rewrite E in F.
        rewrite F in Hc2. by destruct Hc2.
      * by rewrite lookup_insert_ne.
    + destruct (h !! fresh_loc (after_url h c d)) as [o|] eqn:E; [|done].
      assert (is_Some (after_url h c d !! fresh_loc (after_url h c d))) as Hs.
      { apply after_url_is_Some. by rewrite E. }
      rewrite fresh_loc_None in Hs. by destruct Hs.
  - left. by apply after_url_other.
Qed.

Lemma after_authorization_lookup (h : heap) c d name l :
  is_Some (h !! c) → is_Some (h !! l) → l ≠ c →
  get_prop h c "headers" ≠ VRef l →
  after_authorization h c d name !! l = h !! l.
Proof.
  intros Hc Hl Hne Hh. unfold after_authorization.
  assert (after_headers h c d !! l = h !! l) as H3.
  { unfold after_headers. rewrite nullish_assign_new_lookup; [|by apply after_url_is_Some|done].
    by apply after_url_lookup. }
  destruct (after_headers_value h c d Hc) as [E|(l' & E & Hl')]; rewrite E.
  - destruct (get_prop h c "headers") as [| |x|hl|x] eqn:Hv; simpl; try done.
    unfold nullish_assign. destruct (nullish _); [|done].
    rewrite set_prop_lookup_ne; [done|]. intros ->. by apply Hh.
  - simpl. unfold nullish_assign. destruct (nullish _); [|done].
    rewrite set_prop_lookup_ne; [done|]. intros ->.
    rewrite Hl' in Hl. by destruct Hl.
Qed.

Lemma nullish_assign_val_other (h : heap) v k x l k' :
  k' ≠ k → get_prop (nullish_assign_val h v k x) l k' = get_prop h l k'.
Proof.
  intros. destruct v; try done. apply nullish_assign_other. right. congruence.
Qed.

Lemma after_authorization_other (h : heap) c d name l k :
  is_Some (h !! l) →
  l ≠ c ∨ (k ≠ "url" ∧ k ≠ "headers") → k ≠ "authorization" →
  get_prop (after_authorization h c d name) l k = get_prop h l k.
Proof.
  intros Hl Hne Hk. unfold after_authorization.
  rewrite nullish_assign_val_other by done. unfold after_headers.
  rewrite nullish_assign_new_other.
  - unfold after_url. apply nullish_assign_other.
    destruct Hne as [?|[? ?]]; [left; congruence|by right].
  - by apply after_url_is_Some.
  - destruct Hne as [?|[? ?]]; [by left|by right].
Qed.

Lemma after_authorization_is_Some (h : heap) c d name l :
  is_Some (h !! l) → is_Some (after_authorization h c d name !! l).
Proof.
  intros Hl. unfold after_authorization.
  assert (is_Some (after_headers h c d !! l)) as H3.
  { unfold after_headers. by apply nullish_assign_new_is_Some, after_url_is_Some. }
  destruct (get_prop (after_headers h c d) c "headers"); simpl; try done.
  by apply nullish_assign_is_Some.
Qed.

(** ** Objects that are never written *)

Lemma configure_exporter_construct_heap env tracingExporter expr x s :
  st_heap (snd ((tracingConfig <- new_copy (ex_config tracingExporter) ;;
                 inject_dynatrace env tracingConfig ;;
                 inject_cloud_logging env tracingConfig ;;
                 construct expr x ;;
                 let exporter := {| exp_module := ex_module tracingExporter;
                                    exp_class := ex_class tracingExporter;
                                    exp_config := tracingConfig |} in
                 emit (EvNewExporter exporter) ;;
                 log (log_debug env) Debug "Using tracing exporter:" ;;
                 ret exporter) s))
  = st_heap (snd (configure_exporter env tracingExporter s)).
Proof.
  unfold configure_exporter, bind.
  destruct (new_copy _ s) as [[c|?] s1]; [|done].
  destruct (inject_dynatrace env c s1) as [[[]|?] s2]; [|done].
  destruct (inject_cloud_logging env c s2) as [[[]|?] s3]; [|done].
  unfold construct, log, emit, ret, throw.
  destruct x as [[[?|]|?]|]; by destruct (log_debug env).
Qed.

(** [_getExporter], by what the lookup of lines 79-81 gives. *)
Lemma _getExporter_unfold env tracingExporter s :
  _getExporter env tracingExporter s
  = match exporter_module env tracingExporter with
    | inr msg => (Throw msg, s)
    | inl m =>
        if found (member m (ex_class tracingExporter)) then
          (tracingConfig <- new_copy (ex_config tracingExporter) ;;
           inject_dynatrace env tracingConfig ;;
           inject_cloud_logging env tracingConfig ;;
           construct "tracingExporterModule[tracingExporter.class]"
             (member m (ex_class tracingExporter)) ;;
           let exporter := {| exp_module := ex_module tracingExporter;
                              exp_class := ex_class tracingExporter;
                              exp_config := tracingConfig |} in
           emit (EvNewExporter exporter) ;;
           log (log_debug env) Debug "Using tracing exporter:" ;;
           ret exporter) s
        else
          (Throw (unknown_in_module "tracing exporter"
                    (ex_class tracingExporter) (ex_module tracingExporter)), s)
    end.
Proof.
  unfold _getExporter, exporter_module, require.
  destruct (String.eqb _ _).
  - erewrite bind_Ok by reflexivity. by destruct (found _).
  - destruct (_require env _) as [m|msg].
    + erewrite bind_Ok by reflexivity. by destruct (found _).
    + by erewrite bind_Throw by reflexivity.
Qed.

(** Either the exporter class is not found, and nothing happens, or the
    store ends as it does when the class is found and constructs. *)
Lemma _getExporter_heap_cases env tracingExporter s :
  (∃ msg, _getExporter env tracingExporter s = (Throw msg, s))
  ∨ st_heap (snd (_getExporter env tracingExporter s))
    = st_heap (snd (configure_exporter env tracingExporter s)).
Proof.
  rewrite _getExporter_unfold.
  destruct (exporter_module env tracingExporter) as [m|msg];
    [|left; by eexists].
  destruct (found _); [|left; by eexists].
  right. apply configure_exporter_construct_heap.
Qed.

(** X7. Whether [_getExporter] returns or throws, the only object of the
    store it can have changed is the declared [headers] object: every
    other object that was in the store (the declared configuration object
    itself, the credential bundles and what they refer to) is as it was.
    And the configuration object that a built exporter holds is a new one,
    not the declared one. *)
Theorem exporter_assembly_frame env tracingExporter s :
  let h := st_heap s in
  let r := _getExporter env tracingExporter s in
  (∀ l, is_Some (h !! l) →
        config_prop h tracingExporter "headers" ≠ VRef l →
        st_heap (snd r) !! l = h !! l)
  ∧ (∀ e, fst r = Ok e → h !! exp_config e = None).
Proof.
  intros h r. subst r. split.
  - intros l Hl Hh.
    destruct (_getExporter_heap_cases env tracingExporter s) as [[msg ->]| ->];
      [done|].
    pose proof (configure_exporter_heap env tracingExporter s) as R.
    cbv zeta in R. fold h in R.
    set (c := fresh_loc h) in *.
    set (h1 := (copy_config h (ex_config tracingExporter)).2) in *.
    assert (l ≠ c) as Hne.
    { intros ->. unfold c in Hl. rewrite fresh_loc_None in Hl. by destruct Hl. }
    assert (h1 !! l = h !! l) as H1 by by apply old_kept_copy.
    assert (is_Some (h1 !! l)) as Hl1 by by rewrite H1.
    assert (is_Some (h1 !! c)) as Hc1 by apply copy_config_fresh.
    assert (st_heap (snd (inject_dynatrace env c (with_heap s h1))) !! l = h !! l)
      as HD.
    { unfold inject_dynatrace.
      destruct (getDynatraceCredentials env) as [d|] eqn:Hd; [|done].
      destruct (includes _ "dynatrace") eqn:Hk; [|done].
      pose proof (inject_dynatrace_token env c (with_heap s h1) d Hd Hk) as E.
      unfold inject_dynatrace in E. rewrite Hd, Hk in E. rewrite E. simpl.
      destruct (truthy _); simpl.
      - rewrite after_authorization_lookup; try done.
        unfold h1. by rewrite copy_config_get.
      - unfold after_headers.
        rewrite nullish_assign_new_lookup; [|by apply after_url_is_Some|done].
        by rewrite after_url_lookup. }
    destruct (inject_dynatrace env c (with_heap s h1)) as [[[]|msg] s2];
      simpl in HD.
    + destruct R as (s' & R1 & R2). rewrite R1. simpl. rewrite R2.
      rewrite inject_cloud_logging_heap.
      destruct (getCloudLoggingCredentials env); [|done].
      destruct (includes _ _); [|done].
      by rewrite after_cloud_logging_lookup.
    + by rewrite R.
  - intros e He.
    destruct (_getExporter env tracingExporter s) as [[e'|] s'] eqn:E;
      simplify_eq/=.
    destruct (_getExporter_Ok_inv _ _ _ _ _ E) as [-> _]. apply fresh_loc_None.
Qed.

Lemma exporter_assembly_frame_witness :
  let env := MoreStore.env_with "telemetry-to-dynatrace-and-cloud-logging"
               (Some 20) (Some 30) in
  let s' := snd (_getExporter env (MoreStore.exporter_with (Some 12))
                   MoreStore.process) in
  st_heap s' !! 12 = MoreStore.store !! 12
  ∧ st_heap s' !! 20 = MoreStore.store !! 20
  ∧ st_heap s' !! 30 = MoreStore.store !! 30.
Proof.
  intros env s'.
  destruct (exporter_assembly_frame env (MoreStore.exporter_with (Some 12))
              MoreStore.process) as [H _].
  split_and!; apply H; by_compute.
Defined.

(** ** The first provider, field by field (lines 85-95) *)


(** The store in which [_getExporter] ends when the first provider applies
    and a token is found. *)
Lemma _getExporter_dynatrace_heap env tracingExporter s d :
  exporter_known env tracingExporter →
  getDynatraceCredentials env = Some d →
  includes (telemetry_kind (telemetry env)) "dynatrace" = true →
  is_Some (st_heap s !! d) → closed (st_heap s) →
  truthy (dynatrace_token (st_heap s) d (token_name (telemetry env))) = true →
  let c := fresh_loc (st_heap s) in
  let h4 := after_authorization
              (copy_config (st_heap s) (ex_config tracingExporter)).2 c d
              (token_name (telemetry env)) in
  ∃ s', _getExporter env tracingExporter s
        = (Ok {| exp_module := ex_module tracingExporter;
                 exp_class := ex_class tracingExporter;
                 exp_config := c |}, s')
        ∧ st_heap s'
          = match getCloudLoggingCredentials env with
            | Some clc =>
                if includes (telemetry_kind (telemetry env)) "cloud-logging"
                then after_cloud_logging h4 c clc else h4
            | None => h4
            end.
Proof.
  intros Hknown Hd Hk Hin Hclosed Htok c h4.
  rewrite (_getExporter_known _ _ _ Hknown).
  pose proof (configure_exporter_heap env tracingExporter s) as R.
  cbv zeta in R. rewrite (inject_dynatrace_token _ _ _ _ Hd Hk) in R.
  cbv zeta in R. cbn [st_heap with_heap] in R.
  rewrite (token_stable (st_heap s)) in R;
    [|apply old_kept_after_headers|done|done].
  rewrite Htok in R. destruct R as (s' & R1 & R2).
  exists s'. split; [exact R1|].
  by rewrite R2, inject_cloud_logging_heap.
Qed.

(** Lines 99-100 leave [headers] and what it refers to alone, and [url]
    too once it has a value. *)
Lemma cloud_logging_keeps (h h' : heap) c (ocl : option loc) (b : bool) :
  h' = match ocl with
       | Some clc => if b then after_cloud_logging h c clc else h
       | None => h
       end →
  (∀ l k, k ≠ "url" → k ≠ "credentials" → get_prop h' l k = get_prop h l k)
  ∧ (nullish (get_prop h c "url") = false →
     get_prop h' c "url" = get_prop h c "url").
Proof.
  intros ->. destruct ocl as [clc|]; [|done]. destruct b; [|done]. split.
  - intros l k ??. apply after_cloud_logging_other. by right.
  - intros Hn. unfold after_cloud_logging.
    rewrite nullish_assign_other by by right.
    unfold nullish_assign. by rewrite Hn.
Qed.

(** The header written by line 94, in the store as it is after that
    line. *)
Lemma authorization_written (h : heap) tracingExporter d name :
  is_Some (h !! d) → closed h →
  holds_no_property (config_prop h tracingExporter "headers") = false →
  nullish (get_opt_prop h (config_prop h tracingExporter "headers")
             "authorization") = true →
  let c := fresh_loc h in
  let h4 := after_authorization (copy_config h (ex_config tracingExporter)).2
              c d name in
  ∃ hdr, get_prop h4 c "headers" = VRef hdr
         ∧ get_prop h4 hdr "authorization"
           = VStr ("Api-Token " +:+ to_string (dynatrace_token h d name)).
Proof.
  intros Hin Hclosed Hstr Hauth c h4.
  set (h1 := (copy_config h (ex_config tracingExporter)).2) in *.
  assert (old_objects_kept h h1) as Hold by apply old_kept_copy.
  assert (∀ k, get_prop h1 c k = config_prop h tracingExporter k) as Hcopy
    by (intros; apply copy_config_get).
  assert (is_Some (h1 !! c)) as Hc by apply copy_config_fresh.
  pose proof (after_authorization_auth h1 c d name Hc) as A.
  cbv zeta in A. fold h4 in A. rewrite !Hcopy in A.
  rewrite (token_stable h) in A; [|apply old_kept_after_headers|done|done].
  assert (∀ hl, config_prop h tracingExporter "headers" = VRef hl →
                is_Some (h1 !! hl)) as Hvalid.
  { intros hl Hh. rewrite (Hold hl); by eapply config_headers_valid. }
  assert (nullish (get_opt_prop h1 (config_prop h tracingExporter "headers")
                     "authorization") = true) as Hauth1.
  { destruct (config_prop h tracingExporter "headers") as [| |x|hl|x] eqn:Hh;
      try done.
    unfold get_opt_prop in *. simpl in *.
    rewrite (old_kept_get_prop h h1 hl); [done|done|].
    by eapply config_headers_valid. }
  specialize (A Hstr Hvalid Hauth1).
  destruct (get_prop h4 c "headers") as [| |x|hdr|x] eqn:Hh4; try done.
  exists hdr. split; [done|]. exact A.
Qed.



(** X9. The token is what the lookup of the configured name in the
    credentials gives when that counts as true, whatever the deprecated
    field holds: the field of the credentials, or else what every object
    inherits under that name. The deprecated [rest_apitoken.token] is used
    only when that lookup gives nothing or a value that counts as
    false. *)
Theorem token_precedence env tracingExporter s d :
  exporter_known env tracingExporter →
  getDynatraceCredentials env = Some d →
  includes (telemetry_kind (telemetry env)) "dynatrace" = true →
  is_Some (st_heap s !! d) → closed (st_heap s) →
  let h := st_heap s in
  let declared := config_prop h tracingExporter in
  holds_no_property (declared "headers") = false →
  nullish (get_opt_prop h (declared "headers") "authorization") = true →
  let configured := get_computed h d (token_name (telemetry env)) in
  let deprecated := get_opt_prop h (get_prop h d "rest_apitoken") "token" in
  truthy (if truthy configured then configured else deprecated) = true →
  ∃ e s', _getExporter env tracingExporter s = (Ok e, s')
    ∧ get_opt_prop (st_heap s')
        (get_prop (st_heap s') (exp_config e) "headers") "authorization"
      = VStr ("Api-Token "
                +:+ to_string (if truthy configured then configured
                               else deprecated)).
Proof.
  intros Hknown Hd Hk Hin Hclosed h declared Hstr Hn configured deprecated Htok.
  destruct (_getExporter_dynatrace_heap _ _ _ _ Hknown Hd Hk Hin Hclosed Htok)
    as (s' & R & Hh).
  eexists _, s'. split; [exact R|]. cbn [exp_config].
  destruct (cloud_logging_keeps _ _ (fresh_loc (st_heap s)) _ _ Hh) as [Hother _].
  destruct (authorization_written h tracingExporter d
              (token_name (telemetry env)) Hin Hclosed Hstr Hn)
    as (hdr & Hh4 & Ha).
  rewrite (Hother _ "headers") by done. fold h. rewrite Hh4.
  unfold get_opt_prop. simpl. rewrite Hother by done. exact Ha.
Qed.

Lemma token_precedence_witness :
  let te := MoreStore.exporter_with None in
  let auth env :=
    let r := _getExporter env te MoreStore.process in
    match fst r with
    | Ok e => get_opt_prop (st_heap (snd r))
                (get_prop (st_heap (snd r)) (exp_config e) "headers")
                "authorization"
    | Throw _ => VUndef
    end in
  auth (MoreStore.env_with "telemetry-to-dynatrace" (Some 20) None)
  = VStr "Api-Token dt0c01.new"
  ∧ auth (MoreStore.env_with "telemetry-to-dynatrace" (Some 22) None)
    = VStr "Api-Token dt0c01.old"
  ∧ auth (with_token_name
            (MoreStore.env_with "telemetry-to-dynatrace" (Some 21) None)
            "constructor")
    = VStr "Api-Token function Object() { [native code] }".
Proof.
  intros te auth.
  assert (closed MoreStore.store) as Hc by (apply closed_by_check; by_compute).
  split_and!.
  - destruct (token_precedence
                (MoreStore.env_with "telemetry-to-dynatrace" (Some 20) None)
                te MoreStore.process 20) as (e & s' & R & H);
      [exists (classes ["Exp"]); split; [done|by_compute]|done|done|by_compute|done
      |by vm_compute|done|done|].
    unfold auth. by rewrite R.
  - destruct (token_precedence
                (MoreStore.env_with "telemetry-to-dynatrace" (Some 22) None)
                te MoreStore.process 22) as (e & s' & R & H);
      [exists (classes ["Exp"]); split; [done|by_compute]|done|done|by_compute|done
      |by vm_compute|done|done|].
    unfold auth. by rewrite R.
  - destruct (token_precedence
                (with_token_name
                   (MoreStore.env_with "telemetry-to-dynatrace" (Some 21) None)
                   "constructor")
                te MoreStore.process 21) as (e & s' & R & H);
      [exists (classes ["Exp"]); split; [done|by_compute]|done|done|by_compute|done
      |by vm_compute|done|done|].
    unfold auth. by rewrite R.
Defined.

(** ** Both providers (lines 85-101) *)

(** X10. When both providers apply and the Dynatrace credentials hold a
    token, the first provider goes first: a [url] that the declaration
    leaves out is the one derived from the Dynatrace credentials, not the
    [url] of the Cloud Logging credentials; [credentials] is still taken
    from the Cloud Logging credentials, unless the declaration gives it a
    value. *)
Theorem dynatrace_before_cloud_logging env tracingExporter s d clc :
  exporter_known env tracingExporter →
  getDynatraceCredentials env = Some d →
  includes (telemetry_kind (telemetry env)) "dynatrace" = true →
  is_Some (st_heap s !! d) → closed (st_heap s) →
  truthy (dynatrace_token (st_heap s) d (token_name (telemetry env))) = true →
  getCloudLoggingCredentials env = Some clc →
  includes (telemetry_kind (telemetry env)) "cloud-logging" = true →
  is_Some (st_heap s !! clc) →
  let h := st_heap s in
  let declared := config_prop h tracingExporter in
  ∃ e s', _getExporter env tracingExporter s = (Ok e, s')
    ∧ (nullish (declared "url") = true →
       get_prop (st_heap s') (exp_config e) "url"
       = VStr (to_string (get_prop h d "apiurl") +:+ "/v2/otlp/v1/traces"))
    ∧ get_prop (st_heap s') (exp_config e) "credentials"
      = (if nullish (declared "credentials") then get_prop h clc "credentials"
         else declared "credentials").
Proof.
  intros Hknown Hd Hk Hin Hclosed Htok Hc Hkc Hinc h declared.
  destruct (_getExporter_dynatrace_heap _ _ _ _ Hknown Hd Hk Hin Hclosed Htok)
    as (s' & R & Hh).
  eexists _, s'. split; [exact R|]. cbn [exp_config].
  rewrite Hc, Hkc in Hh. rewrite Hh. fold h.
  set (c := fresh_loc h) in *.
  set (h1 := (copy_config h (ex_config tracingExporter)).2) in *.
  set (h4 := after_authorization h1 c d (token_name (telemetry env))) in *.
  assert (old_objects_kept h h1) as Hold by apply old_kept_copy.
  assert (∀ k, get_prop h1 c k = declared k) as Hcopy
    by (intros; apply copy_config_get).
  assert (is_Some (h1 !! c)) as Hc1 by apply copy_config_fresh.
  assert (is_Some (h4 !! c)) as Hc4 by by apply after_authorization_is_Some.
  assert (c ≠ clc) as Hne.
  { intros <-. destruct Hinc as [? Hinc]. unfold c in Hinc.
    by rewrite fresh_loc_None in Hinc. }
  assert (is_Some (h1 !! clc)) as Hclc1 by by rewrite (Hold clc).
  split.
  - intros Hn. rewrite after_cloud_logging_url by done.
    assert (get_prop h4 c "url"
            = VStr (to_string (get_prop h d "apiurl") +:+ "/v2/otlp/v1/traces"))
      as ->; [|done].
    unfold h4. rewrite after_authorization_url; [|done|by rewrite Hcopy].
    by rewrite (old_kept_get_prop h h1 d).
  - rewrite after_cloud_logging_credentials by done.
    unfold h4. rewrite !after_authorization_other; try done.
    + by rewrite Hcopy, (old_kept_get_prop h h1 clc).
    + left. congruence.
    + by right.
Qed.

Lemma dynatrace_before_cloud_logging_witness :
  let env := MoreStore.env_with "telemetry-to-dynatrace-and-cloud-logging"
               (Some 20) (Some 30) in
  ∃ e s', _getExporter env (MoreStore.exporter_with (Some 12)) MoreStore.process
          = (Ok e, s')
          ∧ get_prop (st_heap s') (exp_config e) "url"
            = VStr "https://dt.example/api/v2/otlp/v1/traces"
          ∧ get_prop (st_heap s') (exp_config e) "credentials" = VRef 31.
Proof.
  intros env.
  destruct (dynatrace_before_cloud_logging env (MoreStore.exporter_with (Some 12))
              MoreStore.process 20 30) as (e & s' & R & H1 & H2).
  - exists (classes ["Exp"]). split; [done|by_compute].
  - done.
  - done.
  - by_compute.
  - apply closed_by_check. by_compute.
  - done.
  - done.
  - done.
  - by_compute.
  - exists e, s'. split_and!; [done|by apply H1|done].
Defined.

(** ** The module of the exporter (lines 79-82) *)

(** X11. For the module name [@cap-js/telemetry] the exporter class is
    looked up in the exporter module of the plugin itself and [_require]
    is not used: the outcome is the same whatever [_require] would do, and
    a class whose lookup in the exporter module of the plugin finds
    nothing is unknown even if a module loaded under that name would
    export it. *)
Theorem own_exporter_module env tracingExporter s r :
  ex_module tracingExporter = "@cap-js/telemetry" →
  _getExporter (with_require env r) tracingExporter s
  = _getExporter env tracingExporter s
  ∧ (missing (local_exporter env) (ex_class tracingExporter) →
     fst (_getExporter env tracingExporter s)
     = Throw (unknown_in_module "tracing exporter" (ex_class tracingExporter)
                "@cap-js/telemetry")).
Proof.
  intros Hm. split.
  - unfold _getExporter. rewrite Hm. simpl. done.
  - intros Hc. rewrite _getExporter_unfold. unfold exporter_module.
    rewrite Hm. simpl. unfold missing in Hc. by rewrite Hc.
Qed.

Lemma own_exporter_module_witness :
  let env := More.env_of (More.telemetry_with More.always_on [] [] More.exp) in
  fst (_getExporter env
         {| ex_module := "@cap-js/telemetry"; ex_class := "Elsewhere";
            ex_config := None |} More.start)
  = Throw (unknown_in_module "tracing exporter" "Elsewhere" "@cap-js/telemetry")
  ∧ (∃ e, fst (_getExporter (with_require env (λ _, inr "no module at all"))
                 {| ex_module := "@cap-js/telemetry";
                    ex_class := "ConsoleSpanExporter"; ex_config := None |}
                 More.start) = Ok e).
Proof.
  intros env. split.
  - destruct (own_exporter_module env
                {| ex_module := "@cap-js/telemetry"; ex_class := "Elsewhere";
                   ex_config := None |} More.start (_require env) eq_refl)
      as [_ H].
    apply H. by_compute.
  - destruct (own_exporter_module env
                {| ex_module := "@cap-js/telemetry";
                   ex_class := "ConsoleSpanExporter"; ex_config := None |}
                More.start (λ _, inr "no module at all") eq_refl) as [H _].
    rewrite H. eexists. by vm_compute.
Defined.

(* ===================================================================== *)
(** * Further properties of the bootstrap (lines 108-151) *)
(* ===================================================================== *)

Lemma add_events_nil s : add_events s [] = s.
Proof. destruct s. unfold add_events. simpl. by rewrite app_nil_r. Qed.

Lemma add_events_app s a b :
  add_events (add_events s a) b = add_events s (a ++ b).
Proof. unfold add_events. simpl. by rewrite app_assoc. Qed.

Lemma emit_eq e s : emit e s = (Ok tt, add_events s [e]).
Proof. done. Qed.

Lemma for_each_push_exact {A B} (body : A → M B) (g : A → B) (ev : A → Event)
    l acc s :
  (∀ a, a ∈ l → ∀ s, body a s = (Ok (g a), add_events s [ev a])) →
  for_each_push body l acc s = (Ok (acc ++ map g l), add_events s (map ev l)).
Proof.
  revert acc s. induction l as [|a l IH]; intros acc s Hb; simpl.
  - by rewrite app_nil_r, add_events_nil.
  - rewrite (bind_Ok _ _ _ _ _ (Hb a ltac:(left) s)).
    rewrite IH by (intros a' Ha'; apply Hb; by right).
    by rewrite add_events_app, <- app_assoc.
Qed.

Lemma _getSampler_exact env t s :
  sampler_known env t →
  _getSampler env t s
  = (Ok (_filterSampler
           (_shouldSample (http_ignoreIncomingPaths (telemetry env)))
           (delegate_sampler t)),
     add_events s (sampler_events t)).
Proof.
  intros [Hk Hr]. unfold _getSampler, sampler_events, delegate_sampler, root_sampler.
  rewrite (constructs_found _ _ Hk). simpl.
  destruct (String.eqb (kind (sampler t)) "ParentBasedSampler") eqn:E.
  - apply String.eqb_eq in E. specialize (Hr E).
    rewrite (constructs_found _ _ Hr). simpl.
    unfold bind at 1. unfold bind at 1.
    rewrite (new_sampler_known _ _ _ _ _ Hr), (new_sampler_known _ _ _ _ _ Hk).
    by rewrite add_events_app.
  - by rewrite (bind_Ok _ _ _ _ _ (new_sampler_known _ _ _ _ _ Hk)).
Qed.

Lemma _getPropagator_exact env t s :
  Forall (propagator_known env) (propagators t) →
  _getPropagator env t s
  = (Ok (configured_propagators t),
     add_events s (map EvNewPropagator (configured_propagators t)
                     ++ [EvNewCompositePropagator (configured_propagators t)])).
Proof.
  intros Hk. unfold _getPropagator.
  assert (for_each_push (propagator_of env) (propagators t) [] s
          = (Ok ([] ++ map propagator_instance (propagators t)),
             add_events s
               (map (λ a, EvNewPropagator (propagator_instance a))
                  (propagators t)))) as R.
  { apply for_each_push_exact. intros a Ha s0. rewrite Forall_forall in Hk.
    by apply propagator_of_known, Hk. }
  rewrite (bind_Ok _ _ _ _ _ R).
  unfold bind, emit, ret. simpl. unfold configured_propagators.
  unfold add_events. simpl.
  by rewrite <- app_assoc, (map_map propagator_instance EvNewPropagator).
Qed.

Lemma _getInstrumentations_exact env s :
  Forall (class_in_module env) (map snd (instrumentations (telemetry env))) →
  _getInstrumentations env s
  = (Ok (configured_instrumentations env),
     add_events s (map EvNewInstrumentation (configured_instrumentations env))).
Proof.
  intros Hk. unfold _getInstrumentations.
  rewrite (for_each_push_exact (instrumentation_of env) instrumentation_instance
             (λ a, EvNewInstrumentation (instrumentation_instance a))).
  - unfold configured_instrumentations.
    by rewrite (map_map instrumentation_instance EvNewInstrumentation).
  - intros a Ha s0. rewrite Forall_forall in Hk.
    by apply instrumentation_of_known, Hk.
Qed.

Lemma new_provider_eq resource smp s :
  new_provider resource smp s
  = (Ok (next_provider s),
     {| st_heap := st_heap s;
        st_delegate := st_delegate s;
        st_providers :=
          <[next_provider s := {| tp_resource := resource;
                                  tp_sampler := Some smp;
                                  tp_processors := [] |}]> (st_providers s);
        st_tracer := st_tracer s;
        st_trace := st_trace s ++ [EvNewProvider (next_provider s)] |}).
Proof. done. Qed.

Lemma register_eq id propagator s :
  register id propagator s
  = (Ok tt,
     {| st_heap := st_heap s;
        st_delegate := Some id;
        st_providers := st_providers s;
        st_tracer := st_tracer s;
        st_trace := st_trace s ++ [EvRegister id propagator] |}).
Proof. done. Qed.

(** Lines 116-121 when everything resolves. *)
Lemma general_setup_known env t resource s :
  st_delegate s = None →
  sampler_known env t →
  Forall (propagator_known env) (propagators t) →
  Forall (class_in_module env) (map snd (instrumentations (telemetry env))) →
  general_setup env t resource s
  = (Ok (next_provider s), installed env t resource (next_provider s) s).
Proof.
  intros Hd Hs Hp Hi. unfold general_setup. unfold bind at 1. simpl. rewrite Hd.
  rewrite (bind_Ok _ _ _ _ _ (_getSampler_exact _ _ _ Hs)).
  rewrite (bind_Ok _ _ _ _ _ (new_provider_eq _ _ _)).
  rewrite (bind_Ok _ _ _ _ _ (_getPropagator_exact _ _ _ Hp)).
  rewrite (bind_Ok _ _ _ _ _ (register_eq _ _ _)).
  rewrite (bind_Ok _ _ _ _ _ (_getInstrumentations_exact _ _ Hi)).
  unfold bind, emit, ret, installed, next_provider, setup_events, built_provider,
    add_events. simpl. rewrite <- !app_assoc. done.
Qed.

Lemma for_each_push_exact_Throw {A B} (body : A → M B) (g : A → B)
    (ev : A → Event) pre a post acc s msg :
  (∀ a', a' ∈ pre → ∀ s, body a' s = (Ok (g a'), add_events s [ev a'])) →
  (∀ s, body a s = (Throw msg, s)) →
  for_each_push body (pre ++ a :: post) acc s
  = (Throw msg, add_events s (map ev pre)).
Proof.
  intros Hpre Ha. revert acc s.
  induction pre as [|a' pre IH]; intros acc s; simpl.
  - by rewrite (bind_Throw _ _ _ _ _ (Ha s)), add_events_nil.
  - rewrite (bind_Ok _ _ _ _ _ (Hpre a' ltac:(left) s)).
    rewrite IH by (intros a'' Ha''; apply Hpre; by right).
    by rewrite add_events_app.
Qed.

Lemma require_missing env name msg s :
  _require env name = inr msg → require env name s = (Throw msg, s).
Proof. unfold require. by intros ->. Qed.

Lemma require_found env name m s :
  _require env name = inl m → require env name s = (Ok m, s).
Proof. unfold require. by intros ->. Qed.

(** [new] on anything but a constructor that constructs raises an error
    and changes nothing. *)
Lemma construct_fails expr x :
  x ≠ Some (Constructor None) →
  ∃ msg, ∀ s, construct expr x s = (Throw msg, s).
Proof.
  destruct x as [[[msg|]|b]|]; intros H; [| |..]; try done;
    eexists; intros s; reflexivity.
Qed.

(** A lookup followed by [new]: when the name does not resolve to a
    constructor that constructs, either the lookup finds nothing and the
    module raises its own error, or [new] raises one; nothing else has
    happened. *)
Lemma lookup_new_fails {A} (m : Module) name unknown expr (k : M A) :
  ¬ constructs m name →
  ∃ msg, ∀ s,
    (if negb (found (member m name)) then throw unknown
     else construct expr (member m name) ;; k) s = (Throw msg, s).
Proof.
  intros Hn. destruct (found (member m name)); simpl.
  - destruct (construct_fails expr (member m name) Hn) as [msg H].
    exists msg. intros s. by rewrite (bind_Throw _ _ _ _ _ (H s)).
  - by exists unknown.
Qed.

Lemma propagator_of_unknown env each :
  ¬ propagator_known env each →
  ∃ msg, ∀ s, propagator_of env each s = (Throw msg, s).
Proof.
  destruct each as [name|each]; simpl; intros Hn.
  - by apply lookup_new_fails.
  - unfold class_in_module in Hn.
    destruct (_require env (mc_module each)) as [m|msg] eqn:E.
    + assert (¬ constructs m (mc_class each)) as Hc by (intros Hc; eauto).
      destruct (lookup_new_fails m (mc_class each)
                  (unknown_in_module "propagator" (mc_class each)
                     (mc_module each))
                  "module[each.class]"
                  (let p := propagator_instance (Custom each) in
                   emit (EvNewPropagator p) ;; ret p) Hc) as [msg H].
      exists msg. intros s.
      rewrite (bind_Ok _ _ _ _ _ (require_found _ _ _ _ E)). apply H.
    + exists msg. intros s.
      by rewrite (bind_Throw _ _ _ _ _ (require_missing _ _ _ _ E)).
Qed.

Lemma instrumentation_of_unknown env each :
  ¬ class_in_module env each →
  ∃ msg, ∀ s, instrumentation_of env each s = (Throw msg, s).
Proof.
  intros Hn. unfold class_in_module in Hn. unfold instrumentation_of.
  destruct (_require env (mc_module each)) as [m|msg] eqn:E.
  - assert (¬ constructs m (mc_class each)) as Hc by (intros Hc; eauto).
    destruct (lookup_new_fails m (mc_class each)
                (unknown_in_module "instrumentation" (mc_class each)
                   (mc_module each))
                "module[each.class]"
                (let i := instrumentation_instance each in
                 emit (EvNewInstrumentation i) ;; ret i) Hc) as [msg H].
    exists msg. intros s.
    rewrite (bind_Ok _ _ _ _ _ (require_found _ _ _ _ E)). apply H.
  - exists msg. intros s.
    by rewrite (bind_Throw _ _ _ _ _ (require_missing _ _ _ _ E)).
Qed.

Lemma _getSampler_unknown env t s :
  missing (base env) (kind (sampler t))
  ∨ (kind (sampler t) = "ParentBasedSampler"
     ∧ missing (base env) (js_key (root (sampler t)))) →
  ∃ k, _getSampler env t s = (Throw ("Unknown sampler " +:+ k), s)
       ∧ (k = kind (sampler t) ∨ k = js_key (root (sampler t))).
Proof.
  intros H.
  destruct (found (member (base env) (kind (sampler t)))) eqn:Hk.
  - destruct H as [H|[Hp Hr]]; [unfold missing in H; congruence|].
    exists (js_key (root (sampler t))). split; [|by right].
    by apply unknown_sampler_root.
  - exists (kind (sampler t)). split; [|by left].
    by apply unknown_sampler_kind.
Qed.

(* ===================================================================== *)
(** ** The provider of a fresh process (lines 114-121) *)
(* ===================================================================== *)

(** X12. On a process without a tracer provider, and with a sampler,
    propagators and instrumentations that all resolve (each name is found
    where it is looked up, and what is found constructs), the general setup
    creates one new provider and registers it as the delegate: its
    resource is the empty resource merged with the resource passed in
    and then with the Dynatrace metadata, its sampler is the path filter
    around the configured sampler, it has no span processor yet, every
    older provider is kept as it was, the object store and the tracer
    handle are untouched, and the constructions happen in the order
    sampler, provider, propagators, registration, instrumentations. The
    classes and functions that the module imports by name from the SDK
    are taken to return. *)
Theorem fresh_setup_provider env t resource s :
  st_delegate s = None →
  sampler_known env t →
  Forall (propagator_known env) (propagators t) →
  Forall (class_in_module env) (map snd (instrumentations (telemetry env))) →
  ∃ id sA,
    general_setup env t resource s = (Ok id, sA)
    ∧ st_providers s !! id = None
    ∧ st_providers sA !! id
      = Some {| tp_resource :=
                  merge (merge ∅ resource) (getDynatraceMetadata env);
                tp_sampler :=
                  Some (_filterSampler
                          (_shouldSample
                             (http_ignoreIncomingPaths (telemetry env)))
                          (delegate_sampler t));
                tp_processors := [] |}
    ∧ (∀ id', id' ≠ id → st_providers sA !! id' = st_providers s !! id')
    ∧ st_delegate sA = Some id
    ∧ st_trace sA
      = st_trace s ++ sampler_events t ++ [EvNewProvider id]
          ++ map EvNewPropagator (configured_propagators t)
          ++ [EvNewCompositePropagator (configured_propagators t);
              EvRegister id (configured_propagators t)]
          ++ map EvNewInstrumentation (configured_instrumentations env)
          ++ [EvRegisterInstrumentations id (configured_instrumentations env)]
    ∧ st_heap sA = st_heap s ∧ st_tracer sA = st_tracer s.
Proof.
  intros Hd Hs Hp Hi.
  exists (next_provider s), (installed env t resource (next_provider s) s).
  split; [by apply general_setup_known|].
  split.
  { apply (not_elem_of_dom (D:=gset nat)). unfold next_provider. apply is_fresh. }
  split; [apply lookup_insert_eq|].
  split; [intros id' Hne; by apply lookup_insert_ne|].
  done.
Qed.

Lemma fresh_setup_provider_witness :
  let t := More.tracing_of More.always_on [Builtin "W3CTraceContextPropagator"] in
  let env := More.env_of (More.telemetry_with More.always_on
                            [Builtin "W3CTraceContextPropagator"]
                            More.three_instrumentations More.exp) in
  ∃ id sA tp,
    general_setup env t (Some {[ "service.name" := "bookshop" ]}) More.start
    = (Ok id, sA)
    ∧ st_providers sA !! id = Some tp
    ∧ tp_resource tp !! "service.name" = Some "bookshop".
Proof.
  intros t env.
  destruct (fresh_setup_provider env t (Some {[ "service.name" := "bookshop" ]})
              More.start) as (id & sA & R & _ & L & _).
  - done.
  - split; [by_compute|]. intros H. by vm_compute in H.
  - repeat constructor; by_compute.
  - repeat constructor; (eexists; split; [reflexivity|by_compute]).
  - eexists id, sA, _. split; [exact R|]. split; [exact L|]. reflexivity.
Defined.

(* ===================================================================== *)
(** ** What a failed bootstrap leaves behind (lines 108-134) *)
(* ===================================================================== *)

(** X13. On a process without a tracer provider, a sampler kind (or,
    for the parent-based kind, a root kind) whose lookup in the SDK finds
    nothing makes the bootstrap fail before anything else happens: the
    process is exactly as it was. *)
Theorem unknown_sampler_changes_nothing env t tracingExporter resource s :
  tracing (telemetry env) = Some t →
  exporter t = Some tracingExporter →
  st_delegate s = None →
  missing (base env) (kind (sampler t))
  ∨ (kind (sampler t) = "ParentBasedSampler"
     ∧ missing (base env) (js_key (root (sampler t)))) →
  ∃ k, bootstrap env resource s = (Throw ("Unknown sampler " +:+ k), s)
       ∧ (k = kind (sampler t) ∨ k = js_key (root (sampler t))).
Proof.
  intros Ht He Hd Hu. unfold bootstrap. rewrite Ht, He.
  destruct (_getSampler_unknown env t s Hu) as (k & R & Hk).
  exists k. split; [|done].
  apply bind_Throw. unfold general_setup. unfold bind at 1. simpl. rewrite Hd.
  by apply bind_Throw.
Qed.

Lemma unknown_sampler_changes_nothing_witness :
  let smp := {| kind := "ParentBasedSampler"; root := None; ratio := None |} in
  let env := More.env_of (More.telemetry_with smp [] [] More.exp) in
  ∃ k, bootstrap env None More.start
       = (Throw ("Unknown sampler " +:+ k), More.start).
Proof.
  intros smp env.
  destruct (unknown_sampler_changes_nothing env (More.tracing_of smp []) More.exp
              None More.start) as (k & R & _).
  - done.
  - done.
  - done.
  - right. split; [done|]. by_compute.
  - by exists k.
Defined.

(** X14. When the sampler resolves but one of the propagators does not
    (its module does not load, its name is not found, or what is found
    does not construct), the bootstrap fails, with the module's own
    error or with that of [new], after the provider has been created and
    before it is registered: the new provider exists, without a span
    processor,
    but the process still has no delegate and no tracer, and the
    propagators before the failing one have been built. *)
Theorem propagator_failure_leaves_unregistered_provider
    env t tracingExporter resource s pre each post :
  tracing (telemetry env) = Some t →
  exporter t = Some tracingExporter →
  st_delegate s = None →
  sampler_known env t →
  propagators t = pre ++ each :: post →
  Forall (propagator_known env) pre →
  ¬ propagator_known env each →
  ∃ msg s',
    bootstrap env resource s = (Throw msg, s')
    ∧ st_delegate s' = None
    ∧ st_tracer s' = st_tracer s
    ∧ st_providers s'
      = <[next_provider s := built_provider env t resource]> (st_providers s)
    ∧ st_trace s'
      = st_trace s ++ sampler_events t ++ [EvNewProvider (next_provider s)]
          ++ map EvNewPropagator (map propagator_instance pre).
Proof.
  intros Ht He Hd Hs Hl Hpre Hn. unfold bootstrap. rewrite Ht, He.
  destruct (propagator_of_unknown env each Hn) as (msg & Hthrow).
  exists msg. eexists. split.
  { apply bind_Throw. unfold general_setup. unfold bind at 1. simpl. rewrite Hd.
    rewrite (bind_Ok _ _ _ _ _ (_getSampler_exact _ _ _ Hs)).
    rewrite (bind_Ok _ _ _ _ _ (new_provider_eq _ _ _)).
    apply bind_Throw. unfold _getPropagator. apply bind_Throw. rewrite Hl.
    apply (for_each_push_exact_Throw (propagator_of env) propagator_instance
             (λ a, EvNewPropagator (propagator_instance a))); [|done].
    intros a Ha s0. rewrite Forall_forall in Hpre.
    by apply propagator_of_known, Hpre. }
  simpl. split; [done|]. split; [done|]. split; [done|].
  by rewrite <- !app_assoc, (map_map propagator_instance EvNewPropagator).
Qed.

Lemma propagator_failure_leaves_unregistered_provider_witness :
  let ps := [Builtin "W3CTraceContextPropagator"; Builtin "JaegerPropagator"] in
  let env := More.env_of (More.telemetry_with More.always_on ps [] More.exp) in
  ∃ msg s',
    bootstrap env None More.start = (Throw msg, s')
    ∧ st_delegate s' = None
    ∧ is_Some (st_providers s' !! next_provider More.start).
Proof.
  intros ps env.
  destruct (propagator_failure_leaves_unregistered_provider env
              (More.tracing_of More.always_on ps) More.exp None More.start
              [Builtin "W3CTraceContextPropagator"] (Builtin "JaegerPropagator") [])
    as (msg & s' & R & Hd & _ & Hp & _).
  - done.
  - done.
  - done.
  - split; [by_compute|]. intros H. by vm_compute in H.
  - done.
  - repeat constructor; by_compute.
  - simpl. by_compute.
  - exists msg, s'. split; [done|]. split; [done|].
    rewrite Hp. rewrite lookup_insert_eq. by eexists.
Defined.

(** X15. When sampler and propagators resolve but one of the
    instrumentations does not (its module does not load, its class is
    not found, or what is found does not construct), the bootstrap
    fails, with the module's own error or with that of [new], after the
    provider has been registered: the process is left with the new provider as
    its delegate, without a span processor, without the instrumentations
    registered and without a tracer. *)
Theorem instrumentation_failure_leaves_bare_delegate
    env t tracingExporter resource s pre each post :
  tracing (telemetry env) = Some t →
  exporter t = Some tracingExporter →
  st_delegate s = None →
  sampler_known env t →
  Forall (propagator_known env) (propagators t) →
  map snd (instrumentations (telemetry env)) = pre ++ each :: post →
  Forall (class_in_module env) pre →
  ¬ class_in_module env each →
  ∃ msg s',
    bootstrap env resource s = (Throw msg, s')
    ∧ st_delegate s' = Some (next_provider s)
    ∧ st_tracer s' = st_tracer s
    ∧ st_providers s'
      = <[next_provider s := built_provider env t resource]> (st_providers s)
    ∧ st_trace s'
      = st_trace s ++ sampler_events t ++ [EvNewProvider (next_provider s)]
          ++ map EvNewPropagator (configured_propagators t)
          ++ [EvNewCompositePropagator (configured_propagators t);
              EvRegister (next_provider s) (configured_propagators t)]
          ++ map EvNewInstrumentation (map instrumentation_instance pre).
Proof.
  intros Ht He Hd Hs Hp Hl Hpre Hn. unfold bootstrap. rewrite Ht, He.
  destruct (instrumentation_of_unknown env each Hn) as (msg & Hthrow).
  exists msg. eexists. split.
  { apply bind_Throw. unfold general_setup. unfold bind at 1. simpl. rewrite Hd.
    rewrite (bind_Ok _ _ _ _ _ (_getSampler_exact _ _ _ Hs)).
    rewrite (bind_Ok _ _ _ _ _ (new_provider_eq _ _ _)).
    rewrite (bind_Ok _ _ _ _ _ (_getPropagator_exact _ _ _ Hp)).
    rewrite (bind_Ok _ _ _ _ _ (register_eq _ _ _)).
    apply bind_Throw. unfold _getInstrumentations. rewrite Hl.
    apply (for_each_push_exact_Throw (instrumentation_of env)
             instrumentation_instance
             (λ a, EvNewInstrumentation (instrumentation_instance a))); [|done].
    intros a Ha s0. rewrite Forall_forall in Hpre.
    by apply instrumentation_of_known, Hpre. }
  simpl. split; [done|]. split; [done|]. split; [done|].
  by rewrite <- !app_assoc,
       (map_map instrumentation_instance EvNewInstrumentation).
Qed.

Lemma instrumentation_failure_leaves_bare_delegate_witness :
  let insts := [("http", {| mc_module := "i"; mc_class := "Http";
                            mc_config := None |});
                ("pg", {| mc_module := "pg-instrumentation"; mc_class := "Pg";
                          mc_config := None |})] in
  let env := More.env_of (More.telemetry_with More.always_on [] insts More.exp) in
  ∃ msg s',
    bootstrap env None More.start = (Throw msg, s')
    ∧ st_delegate s' = Some (next_provider More.start)
    ∧ st_tracer s' = None.
Proof.
  intros insts env.
  destruct (instrumentation_failure_leaves_bare_delegate env
              (More.tracing_of More.always_on []) More.exp None More.start
              [{| mc_module := "i"; mc_class := "Http"; mc_config := None |}]
              {| mc_module := "pg-instrumentation"; mc_class := "Pg";
                 mc_config := None |} [])
    as (msg & s' & R & Hd & Htr & _).
  - done.
  - done.
  - done.
  - split; [by_compute|]. intros H. by vm_compute in H.
  - constructor.
  - done.
  - repeat constructor. eexists. split; [reflexivity|by_compute].
  - intros (m & Hm & _). by vm_compute in Hm.
  - by exists msg, s'.
Defined.

(** ** The exporter leaves the providers alone *)

#[global] Instance registry_kept_refl : Reflexive registry_kept.
Proof. by intros s. Qed.

#[global] Instance registry_kept_trans : Transitive registry_kept.
Proof.
  intros s1 s2 s3 (P1 & D1 & T1) (P2 & D2 & T2).
  unfold registry_kept. split_and!; congruence.
Qed.

Lemma _getExporter_registry env tracingExporter :
  through registry_kept (_getExporter env tracingExporter).
Proof.
  unfold _getExporter, new_copy, inject_dynatrace, inject_cloud_logging, log.
  through_steps; by intros ?.
Qed.

Lemma _getExporter_Throw_trace env tracingExporter s msg s' :
  _getExporter env tracingExporter s = (Throw msg, s') →
  st_trace s' = st_trace s.
Proof.
  intros H. rewrite _getExporter_unfold in H.
  destruct (exporter_module env tracingExporter) as [m|?]; [|by simplify_eq].
  destruct (found _); [|by simplify_eq].
  unfold bind in H. rewrite new_copy_eq in H.
  set (c := fresh_loc (st_heap s)) in *.
  set (s1 := with_heap s _) in *.
  pose proof (inject_dynatrace_silent env c s1) as Q2.
  destruct (inject_dynatrace env c s1) as [[[]|?] s2];
    apply reuses_no_event in Q2 as [_ Q2]; simpl in Q2; [|by simplify_eq].
  pose proof (inject_cloud_logging_silent env c s2) as Q3.
  destruct (inject_cloud_logging env c s2) as [[[]|?] s3];
    apply reuses_no_event in Q3 as [_ Q3]; simpl in Q3;
    [|simplify_eq; by rewrite Q3, Q2].
  pose proof (construct_state "tracingExporterModule[tracingExporter.class]"
                (member m (ex_class tracingExporter)) s3) as Q4.
  destruct (construct _ _ s3) as [[[]|?] s4]; simpl in Q4; subst s4.
  - unfold log, emit, ret in H. by destruct (log_debug env).
  - simplify_eq. by rewrite Q3, Q2.
Qed.

Lemma _getExporter_unknown env tracingExporter :
  exporter_missing env tracingExporter →
  ∃ msg,
    (∀ s, _getExporter env tracingExporter s = (Throw msg, s))
    ∧ (msg = unknown_in_module "tracing exporter"
               (ex_class tracingExporter) (ex_module tracingExporter)
       ∨ exporter_module env tracingExporter = inr msg).
Proof.
  unfold exporter_missing, missing. intros Hn.
  destruct (exporter_module env tracingExporter) as [m|msg] eqn:E.
  - eexists. split; [|by left]. intros s.
    rewrite _getExporter_unfold, E. by rewrite Hn.
  - exists msg. split; [|by right]. intros s.
    by rewrite _getExporter_unfold, E.
Qed.

Lemma _getExporter_succeeds env tracingExporter s :
  exporter_known env tracingExporter →
  token_available env (st_heap s) →
  ∃ s', _getExporter env tracingExporter s
        = (Ok {| exp_module := ex_module tracingExporter;
                 exp_class := ex_class tracingExporter;
                 exp_config := fresh_loc (st_heap s) |}, s').
Proof.
  intros K Hd.
  destruct (getDynatraceCredentials env) as [d|] eqn:Ed.
  - destruct (includes (telemetry_kind (telemetry env)) "dynatrace") eqn:Ek.
    + destruct (Hd d Ed Ek) as (Hin & Hc & Ht).
      destruct (_getExporter_dynatrace_heap _ _ _ _ K Ed Ek Hin Hc Ht)
        as (s' & R & _).
      by exists s'.
    + rewrite (_getExporter_known _ _ _ K).
      pose proof (configure_exporter_heap env tracingExporter s) as R.
      cbv zeta in R. rewrite inject_dynatrace_skipped in R.
      * destruct R as (s' & R & _). by exists s'.
      * unfold dynatrace_applies. by rewrite Ed.
  - rewrite (_getExporter_known _ _ _ K).
    pose proof (configure_exporter_heap env tracingExporter s) as R.
    cbv zeta in R. rewrite inject_dynatrace_skipped in R.
    + destruct R as (s' & R & _). by exists s'.
    + unfold dynatrace_applies. by rewrite Ed.
Qed.

Lemma expose_tracer_eq env s :
  expose_tracer env s
  = (Ok tt, {| st_heap := st_heap s; st_delegate := st_delegate s;
               st_providers := st_providers s;
               st_tracer := st_delegate s;
               st_trace := st_trace s ++ expose_events env |}).
Proof.
  unfold expose_tracer, expose_events, bind, emit, when, ret, set_tracer,
    get_state.
  simpl. destruct (env_set (TRACE_OKRA env)); simpl;
    unfold add_events; simpl; by rewrite <- !app_assoc.
Qed.

(** Lines 129-133 once the exporter has been built. *)
Lemma attach_processor_run env tracingExporter id s e sx :
  oneagent_present env = false →
  _getExporter env tracingExporter s = (Ok e, sx) →
  attach_processor env tracingExporter id s
  = (Ok tt,
     {| st_heap := st_heap sx; st_delegate := st_delegate s;
        st_providers :=
          alter (λ tp, {| tp_resource := tp_resource tp;
                          tp_sampler := tp_sampler tp;
                          tp_processors :=
                            tp_processors tp ++ [span_processor_of env e] |})
            id (st_providers s);
        st_tracer := st_tracer s;
        st_trace := st_trace s ++ attach_events env id e |}).
Proof.
  intros Ho R. unfold attach_processor. rewrite Ho.
  rewrite (bind_Ok _ _ _ _ _ R).
  destruct (_getExporter_registry env tracingExporter s) as (P & D & T).
  rewrite R in P, D, T. simpl in P, D, T.
  destruct (_getExporter_Ok_trace _ _ _ _ _ R) as [_ Tr].
  unfold addSpanProcessor, bind, emit, set_providers, get_state, add_events.
  simpl. rewrite P, D, T, Tr. unfold attach_events, span_processor_of.
  by rewrite <- !app_assoc.
Qed.

(** X16. When the setup resolves, the OneAgent bypass does not apply,
    and the exporter module does not load or the lookup of the
    configured class in it finds nothing, the bootstrap fails after the
    whole general setup:
    the new provider stays registered as the delegate, with the
    instrumentations registered on it, but without a span processor,
    and no tracer is exposed. *)
Theorem unknown_exporter_leaves_bare_delegate
    env t tracingExporter resource s :
  tracing (telemetry env) = Some t →
  exporter t = Some tracingExporter →
  st_delegate s = None →
  sampler_known env t →
  Forall (propagator_known env) (propagators t) →
  Forall (class_in_module env) (map snd (instrumentations (telemetry env))) →
  oneagent_present env = false →
  exporter_missing env tracingExporter →
  ∃ msg,
    bootstrap env resource s
    = (Throw msg, installed env t resource (next_provider s) s)
    ∧ (msg = unknown_in_module "tracing exporter"
               (ex_class tracingExporter) (ex_module tracingExporter)
       ∨ exporter_module env tracingExporter = inr msg).
Proof.
  intros Ht He Hd Hs Hp Hi Ho Hn. unfold bootstrap. rewrite Ht, He.
  destruct (_getExporter_unknown env tracingExporter Hn) as (msg & R & Hm).
  exists msg. split; [|done].
  rewrite (bind_Ok _ _ _ _ _ (general_setup_known _ _ _ _ Hd Hs Hp Hi)).
  apply bind_Throw. unfold attach_processor. rewrite Ho.
  by apply bind_Throw.
Qed.

Lemma unknown_exporter_leaves_bare_delegate_witness :
  let ex := {| ex_module := "m2"; ex_class := "Missing"; ex_config := None |} in
  let env := More.env_of (More.telemetry_with More.always_on [] [] ex) in
  let t := {| sampler := More.always_on; propagators := [];
              exporter := Some ex |} in
  ∃ msg, bootstrap env None More.start
         = (Throw msg, installed env t None (next_provider More.start) More.start).
Proof.
  intros ex env t.
  destruct (unknown_exporter_leaves_bare_delegate env t ex None More.start)
    as (msg & R & _).
  - done.
  - done.
  - done.
  - split; [by_compute|]. intros H. by vm_compute in H.
  - constructor.
  - constructor.
  - done.
  - by vm_compute.
  - by exists msg.
Defined.

(** X17. When setup and exporter class resolve, Dynatrace applies and
    the lookup [dynatrace[token_name] || dynatrace.rest_apitoken?.token]
    yields nothing truthy, the bootstrap fails with the missing-token
    message only after the whole general setup: the new provider stays registered as the delegate,
    without a span processor, no exporter has been built and no tracer
    is exposed. *)
Theorem missing_token_leaves_bare_delegate
    env t tracingExporter resource s d :
  tracing (telemetry env) = Some t →
  exporter t = Some tracingExporter →
  st_delegate s = None →
  sampler_known env t →
  Forall (propagator_known env) (propagators t) →
  Forall (class_in_module env) (map snd (instrumentations (telemetry env))) →
  oneagent_present env = false →
  exporter_known env tracingExporter →
  getDynatraceCredentials env = Some d →
  includes (telemetry_kind (telemetry env)) "dynatrace" = true →
  is_Some (st_heap s !! d) → closed (st_heap s) →
  truthy (dynatrace_token (st_heap s) d (token_name (telemetry env))) = false →
  ∃ s',
    bootstrap env resource s
    = (Throw (no_token_message (token_name (telemetry env))), s')
    ∧ st_delegate s' = Some (next_provider s)
    ∧ st_tracer s' = st_tracer s
    ∧ st_providers s'
      = <[next_provider s := built_provider env t resource]> (st_providers s)
    ∧ st_trace s' = st_trace s ++ setup_events env t (next_provider s).
Proof.
  intros Ht He Hd Hs Hp Hi Ho K Hc Hk Hin Hcl Htok.
  unfold bootstrap. rewrite Ht, He.
  rewrite (bind_Ok _ _ _ _ _ (general_setup_known _ _ _ _ Hd Hs Hp Hi)).
  set (sA := installed env t resource (next_provider s) s).
  pose proof (_getExporter_dynatrace env tracingExporter sA d K Hc Hk Hin Hcl)
    as R.
  cbv zeta in R. change (st_heap sA) with (st_heap s) in R.
  rewrite Htok in R.
  destruct (_getExporter env tracingExporter sA) as [[e|msg] sx] eqn:E;
    [done|].
  simpl in R. simplify_eq. exists sx.
  destruct (_getExporter_registry env tracingExporter sA) as (P & D & T).
  rewrite E in P, D, T. simpl in P, D, T.
  split.
  { apply bind_Throw. unfold attach_processor. rewrite Ho.
    by apply bind_Throw. }
  split; [done|]. split; [done|]. split; [done|].
  by rewrite (_getExporter_Throw_trace _ _ _ _ _ E).
Qed.

Lemma missing_token_leaves_bare_delegate_witness :
  let env := MoreStore.env_with "telemetry-to-dynatrace" (Some 10) None in
  ∃ s', bootstrap env None MoreStore.process
        = (Throw (no_token_message "ingest_apitoken"), s')
        ∧ st_delegate s' = Some (next_provider MoreStore.process).
Proof.
  intros env.
  destruct (missing_token_leaves_bare_delegate env
              (More.tracing_of More.always_on []) More.exp None
              MoreStore.process 10)
    as (s' & R & D & _).
  - done.
  - done.
  - done.
  - split; [by_compute|]. intros H. by vm_compute in H.
  - constructor.
  - constructor.
  - done.
  - eexists. split; [reflexivity|by_compute].
  - done.
  - by vm_compute.
  - by_compute.
  - apply closed_by_check. by_compute.
  - by vm_compute.
  - exists s'. split; [exact R|exact D].
Defined.

(* ===================================================================== *)
(** ** A bootstrap that succeeds (lines 108-151) *)
(* ===================================================================== *)

(** X18. On a process without a tracer provider, when sampler,
    propagators, instrumentations and exporter all resolve (each name is
    found where it is looked up, and what is found constructs), the
    OneAgent bypass does not apply and, where Dynatrace applies, the
    lookup of the token yields a truthy value, the bootstrap succeeds:
    the new provider is the delegate and the one the tracer is obtained
    from, it carries exactly one span processor (batch in production,
    simple otherwise) around an exporter of the configured class on a
    new configuration object, the other providers are as they were, and
    the run consists of the setup, the exporter and processor, and the
    tracer exposure, in that order. The classes and functions that the
    module imports by name, from the SDK and from the plugin, are taken
    to return. *)
Theorem bootstrap_succeeds env t tracingExporter resource s :
  tracing (telemetry env) = Some t →
  exporter t = Some tracingExporter →
  st_delegate s = None →
  sampler_known env t →
  Forall (propagator_known env) (propagators t) →
  Forall (class_in_module env) (map snd (instrumentations (telemetry env))) →
  oneagent_present env = false →
  exporter_known env tracingExporter →
  token_available env (st_heap s) →
  let id := next_provider s in
  let e := {| exp_module := ex_module tracingExporter;
              exp_class := ex_class tracingExporter;
              exp_config := fresh_loc (st_heap s) |} in
  ∃ s',
    bootstrap env resource s = (Ok tt, s')
    ∧ st_delegate s' = Some id
    ∧ st_tracer s' = Some id
    ∧ st_providers s' !! id
      = Some {| tp_resource := tp_resource (built_provider env t resource);
                tp_sampler := tp_sampler (built_provider env t resource);
                tp_processors := [span_processor_of env e] |}
    ∧ (∀ id', id' ≠ id → st_providers s' !! id' = st_providers s !! id')
    ∧ st_trace s'
      = st_trace s ++ setup_events env t id ++ attach_events env id e
          ++ expose_events env.
Proof.
  intros Ht He Hd Hs Hp Hi Ho K Htok id e.
  unfold bootstrap. rewrite Ht, He.
  rewrite (bind_Ok _ _ _ _ _ (general_setup_known _ _ _ _ Hd Hs Hp Hi)).
  fold id. set (sA := installed env t resource id s).
  destruct (_getExporter_succeeds env tracingExporter sA K Htok) as (sx & R).
  change (st_heap sA) with (st_heap s) in R. fold e in R.
  rewrite (bind_Ok _ _ _ _ _ (attach_processor_run _ _ id _ _ _ Ho R)).
  rewrite expose_tracer_eq. eexists. split; [reflexivity|]. simpl.
  split; [done|]. split; [done|]. split.
  { by rewrite lookup_alter_eq, lookup_insert_eq. }
  split.
  { intros id' Hne. by rewrite lookup_alter_ne, lookup_insert_ne. }
  unfold attach_events. rewrite <- !app_assoc. do 2 f_equal.
  by rewrite <- app_comm_cons, <- app_assoc.
Qed.

Lemma bootstrap_succeeds_witness :
  let env := MoreStore.env_with "telemetry-to-dynatrace" (Some 21) None in
  ∃ s' tp,
    bootstrap env None MoreStore.process = (Ok tt, s')
    ∧ st_tracer s' = Some (next_provider MoreStore.process)
    ∧ st_providers s' !! next_provider MoreStore.process = Some tp
    ∧ tp_processors tp
      = [SimpleSpanProcessor
           {| exp_module := "m2"; exp_class := "Exp";
              exp_config := fresh_loc MoreStore.store |}].
Proof.
  intros env.
  destruct (bootstrap_succeeds env (More.tracing_of More.always_on []) More.exp
              None MoreStore.process) as (s' & R & _ & T & P & _).
  - done.
  - done.
  - done.
  - split; [by_compute|]. intros H. by vm_compute in H.
  - constructor.
  - constructor.
  - done.
  - eexists. split; [reflexivity|by_compute].
  - intros d Hd _. injection Hd as <-. split; [by_compute|]. split.
    + apply closed_by_check. by_compute.
    + by vm_compute.
  - eexists s', _. split; [exact R|]. split; [exact T|]. split; [exact P|].
    reflexivity.
Defined.

(* ===================================================================== *)
(** ** The tracer is exposed last (lines 137-150) *)
(* ===================================================================== *)

#[global] Instance before_exposure_refl : Reflexive before_exposure.
Proof. intros s. split; [done|]. reflexivity. Qed.

#[global] Instance before_exposure_trans : Transitive before_exposure.
Proof.
  intros s1 s2 s3 [T1 E1] [T2 E2]. split; [congruence|]. by etrans.
Qed.

Lemma through_before_emit e :
  expose_event e = false → through before_exposure (emit e).
Proof. intros H s. split; [done|]. by apply through_emit_emits. Qed.

Lemma through_before_silent {A} (m : M A) :
  (∀ s, st_tracer (snd (m s)) = st_tracer s
        ∧ st_trace (snd (m s)) = st_trace s) →
  through before_exposure m.
Proof.
  intros H s. destruct (H s) as [T Tr]. split; [done|].
  exists []. by rewrite app_nil_r.
Qed.

Lemma setup_before_exposure env t resource tracingExporter :
  through before_exposure
    (tracerProvider <- general_setup env t resource ;;
     attach_processor env tracingExporter tracerProvider).
Proof.
  unfold general_setup, _getSampler, new_sampler, new_provider, _getPropagator,
    propagator_of, register, _getInstrumentations, instrumentation_of,
    attach_processor, _getExporter, new_copy, inject_dynatrace,
    inject_cloud_logging, addSpanProcessor, log.
  through_steps;
    first [by apply through_before_emit | by apply through_before_silent].
Qed.

(** X19. For a configuration with an exporter entry, whatever the state
    of the process: a bootstrap that fails has not touched the tracer
    handle and has not installed any instrumentation of the framework;
    a bootstrap that succeeds ends with the tracer obtained from the
    delegate, the [served] hook and the instrumentations of [cds], of
    [okra] exactly when [TRACE_OKRA] is set, and of [cloud_sdk], in that
    order and after everything else. *)
Theorem tracer_exposed_last env t tracingExporter resource s :
  tracing (telemetry env) = Some t →
  exporter t = Some tracingExporter →
  ∃ evs,
    Forall (λ e, expose_event e = false) evs
    ∧ match bootstrap env resource s with
      | (Ok _, s') =>
          is_Some (st_delegate s')
          ∧ st_tracer s' = st_delegate s'
          ∧ st_trace s' = st_trace s ++ evs ++ expose_events env
      | (Throw _, s') =>
          st_tracer s' = st_tracer s ∧ st_trace s' = st_trace s ++ evs
      end.
Proof.
  intros Ht He. unfold bootstrap. rewrite Ht, He.
  pose proof (setup_before_exposure env t resource tracingExporter s) as B.
  destruct (general_setup env t resource s) as [[id|msg] sA] eqn:G.
  - rewrite (bind_Ok _ _ _ _ _ G).
    rewrite (bind_Ok _ _ _ _ _ G) in B.
    apply general_setup_Ok in G as [D _].
    pose proof (attach_processor_reuses env tracingExporter id sA) as [[D' _] _].
    destruct (attach_processor env tracingExporter id sA) as [[[]|msg] sB] eqn:At.
    + simpl in B, D'. destruct B as [T (evs & Tr & F)].
      exists evs. split; [done|].
      rewrite (bind_Ok _ _ _ _ _ At), expose_tracer_eq. simpl.
      rewrite D', D. split; [by eexists|]. split; [done|].
      by rewrite Tr, <- app_assoc.
    + simpl in B. destruct B as [T (evs & Tr & F)].
      exists evs. split; [done|]. by rewrite (bind_Throw _ _ _ _ _ At).
  - rewrite (bind_Throw _ _ _ _ _ G). rewrite (bind_Throw _ _ _ _ _ G) in B.
    simpl in B. destruct B as [T (evs & Tr & F)]. by exists evs.
Qed.

Lemma tracer_exposed_last_witness :
  let env := MoreStore.env_with "telemetry-to-dynatrace" (Some 10) None in
  ∃ evs s' msg,
    bootstrap env None MoreStore.process = (Throw msg, s')
    ∧ st_tracer s' = None
    ∧ st_trace s' = evs
    ∧ Forall (λ e, expose_event e = false) evs.
Proof.
  intros env.
  destruct (tracer_exposed_last env (More.tracing_of More.always_on []) More.exp
              None MoreStore.process) as (evs & F & H).
  - done.
  - done.
  - destruct (bootstrap env None MoreStore.process) as [[[]|msg] s'] eqn:E.
    + exfalso. revert E. by vm_compute.
    + destruct H as [T Tr]. exists evs, s', msg.
      split; [reflexivity|]. split; [exact T|]. split; [exact Tr|exact F].
Defined.

(* ===================================================================== *)
(** ** Under the OneAgent bypass the exporter entry is not read *)
(* ===================================================================== *)

(** X20. When the OneAgent bypass applies, the exporter entry is only
    tested for presence: whatever entry stands in its place, even one
    with an unknown class or module, the bootstrap does the same and
    ends in the same state. *)
Theorem bypass_ignores_exporter_entry env tracingExporter resource s :
  oneagent_present env = true →
  is_Some (tracing_exporter (telemetry env)) →
  bootstrap (with_exporter env tracingExporter) resource s
  = bootstrap env resource s.
Proof.
  intros Ho [te He]. unfold tracing_exporter in He. unfold bootstrap.
  destruct (tracing (telemetry env)) as [t|] eqn:Ht; [|done].
  simpl in He. rewrite He. simpl. rewrite Ht. simpl.
  assert (∀ id, attach_processor (with_exporter env tracingExporter)
                  tracingExporter id
                = attach_processor env te id) as A.
  { intros id. unfold attach_processor.
    change (oneagent_present (with_exporter env tracingExporter))
      with (oneagent_present env).
    by rewrite Ho. }
  unfold bind at 1 3. 
  change (general_setup (with_exporter env tracingExporter)
            {| sampler := sampler t; propagators := propagators t;
               exporter := Some tracingExporter |} resource s)
    with (general_setup env t resource s).
  destruct (general_setup env t resource s) as [[id|msg] sA]; [|done].
  by rewrite A.
Qed.

Lemma bypass_ignores_exporter_entry_witness :
  let env :=
    {| telemetry :=
         {| telemetry_kind := "telemetry-to-dynatrace";
            token_name := "ingest_apitoken";
            tracing := Some (More.tracing_of More.always_on []);
            instrumentations := [] |};
       NODE_ENV := None;
       DT_NODE_PRELOAD_OPTIONS := Some "-r /opt/dynatrace/oneagent";
       TRACE_OKRA := None;
       base := (classes ["AlwaysOnSampler"]); core := ∅; local_exporter := ∅;
       _require := More.modules;
       getDynatraceCredentials := None; getCloudLoggingCredentials := None;
       getDynatraceMetadata := None;
       log_debug := false; log_info := true; log_warn := true |} in
  let unknown := {| ex_module := "nowhere"; ex_class := "Nothing";
                    ex_config := None |} in
  bootstrap (with_exporter env unknown) None More.start
  = bootstrap env None More.start.
Proof.
  intros env unknown. apply (bypass_ignores_exporter_entry env unknown).
  - by vm_compute.
  - by eexists.
Defined.

(* ===================================================================== *)
(** ** Span processors, provider by provider *)
(* ===================================================================== *)

#[global] Instance same_processors_refl : Reflexive same_processors.
Proof. by intros s id. Qed.

#[global] Instance same_processors_trans : Transitive same_processors.
Proof. intros s1 s2 s3 H1 H2 id. by rewrite H2, H1. Qed.

Lemma same_providers_same_processors s s' :
  st_providers s' = st_providers s → same_processors s s'.
Proof. intros H id. unfold processors_of. by rewrite H. Qed.

Lemma new_provider_same_processors resource smp :
  through same_processors (new_provider resource smp).
Proof.
  intros s id. rewrite new_provider_eq. unfold processors_of. simpl.
  destruct (decide (id = next_provider s)) as [->|Hne].
  - rewrite lookup_insert_eq. simpl.
    assert (st_providers s !! next_provider s = None) as ->; [|done].
    apply (not_elem_of_dom (D:=gset nat)). unfold next_provider. apply is_fresh.
  - by rewrite lookup_insert_ne.
Qed.

Lemma general_setup_same_processors env t resource :
  through same_processors (general_setup env t resource).
Proof.
  unfold general_setup, _getSampler, new_sampler, _getPropagator,
    propagator_of, register, _getInstrumentations, instrumentation_of, log.
  through_steps;
    first [apply new_provider_same_processors | by intros ? ?].
Qed.

Lemma general_setup_exists env t resource s d sA :
  delegate_exists s →
  general_setup env t resource s = (Ok d, sA) →
  is_Some (st_providers sA !! d).
Proof.
  intros Hex H. destruct (st_delegate s) as [d0|] eqn:Hd.
  - rewrite (general_setup_delegate _ _ _ _ _ Hd) in H.
    specialize (Hex d0 Hd). by destruct (log_warn env); simplify_eq.
  - by destruct (general_setup_fresh _ _ _ _ _ _ Hd H) as (_ & _ & ? & _).
Qed.

(** Lines 126-150, by what the exporter does. *)
Lemma pipeline_run env tracingExporter d s :
  (attach_processor env tracingExporter d ;; expose_tracer env) s
  = if oneagent_present env then (Ok tt, exposed env (bypassed env s))
    else match _getExporter env tracingExporter s with
         | (Ok e, sx) => (Ok tt, exposed env (attached env d e s sx))
         | (Throw msg, sx) => (Throw msg, sx)
         end.
Proof.
  destruct (oneagent_present env) eqn:Ho.
  - unfold attach_processor. rewrite Ho. unfold bind at 1, log, bypassed.
    destruct (log_info env); simpl; by rewrite expose_tracer_eq.
  - destruct (_getExporter env tracingExporter s) as [[e|msg] sx] eqn:E.
    + rewrite (bind_Ok _ _ _ _ _ (attach_processor_run _ _ d _ _ _ Ho E)).
      by rewrite expose_tracer_eq.
    + apply bind_Throw. unfold attach_processor. rewrite Ho.
      by apply bind_Throw.
Qed.

Lemma processors_of_attached env d e s sx :
  (processors_of (attached env d e s sx) d
   = match st_providers s !! d with
     | Some _ => processors_of s d ++ [span_processor_of env e]
     | None => []
     end)
  ∧ (∀ id, id ≠ d → processors_of (attached env d e s sx) id = processors_of s id)
  ∧ (∀ id, provider_core <$> st_providers (attached env d e s sx) !! id
           = provider_core <$> st_providers s !! id).
Proof.
  unfold processors_of, attached. simpl. split_and!.
  - rewrite lookup_alter_eq. by destruct (st_providers s !! d).
  - intros id Hne. by rewrite lookup_alter_ne.
  - intros id. rewrite lookup_alter.
    case_decide; [|done]. subst. by destruct (st_providers s !! id).
Qed.

Lemma attach_events_filters env d e :
  List.filter is_new_exporter (attach_events env d e) = [EvNewExporter e]
  ∧ List.filter is_add_processor (attach_events env d e)
    = [EvAddSpanProcessor d (span_processor_of env e)]
  ∧ Forall (λ e, construction_event e = false) (attach_events env d e).
Proof.
  unfold attach_events. destruct (log_debug env); simpl; split_and!; try done;
    by repeat constructor.
Qed.

Lemma expose_events_filters env :
  List.filter is_new_exporter (expose_events env) = []
  ∧ List.filter is_add_processor (expose_events env) = []
  ∧ Forall (λ e, construction_event e = false) (expose_events env).
Proof.
  unfold expose_events. destruct (env_set (TRACE_OKRA env)); simpl;
    split_and!; try done; by repeat constructor.
Qed.

(* ===================================================================== *)
(** ** An existing provider is reused, with one more span processor
       (lines 114-134) *)
(* ===================================================================== *)

(** C1, as it is stated, fails. On a process in which another module has
    installed the provider 7, the bootstrap logs the warning and goes on:
    it builds an exporter, attaches a span processor to the provider 7,
    which had none, and sets the tracer handle; the provider is not left
    as it was and the warning is not the only effect. And when the first
    of two calls fails before it registers its provider (here over an
    unknown propagator), the second call creates a provider of its own:
    two providers exist after the two calls. *)
Lemma reuse_claim_fails :
  let r := bootstrap Sample.env None Sample.installed in
  let bad := Sample.env_of
               {| telemetry_kind := "telemetry-to-console";
                  token_name := "ingest_apitoken";
                  tracing := Some (Sample.tracing_with
                                     (sampler Sample.tracing_spec)
                                     [Builtin "JaegerPropagator"]
                                     Sample.exporter_spec);
                  instrumentations := [] |} in
  let r1 := bootstrap bad None Sample.start in
  let r2 := bootstrap bad None (snd r1) in
  (fst r = Ok tt
   ∧ processors_of Sample.installed 7 = []
   ∧ processors_of (snd r) 7
     = [SimpleSpanProcessor
          {| exp_module := "m2"; exp_class := "Exp"; exp_config := 0 |}]
   ∧ st_tracer Sample.installed = None ∧ st_tracer (snd r) = Some 7
   ∧ List.filter is_new_exporter (st_trace (snd r))
     = [EvNewExporter
          {| exp_module := "m2"; exp_class := "Exp"; exp_config := 0 |}])
  ∧ ((∃ msg, fst r1 = Throw msg) ∧ (∃ msg, fst r2 = Throw msg)
     ∧ List.filter is_new_provider (st_trace (snd r2))
       = [EvNewProvider 0; EvNewProvider 1]
     ∧ is_Some (st_providers (snd r2) !! 0)
     ∧ is_Some (st_providers (snd r2) !! 1)
     ∧ st_delegate (snd r2) = None).
Proof.
  intros r bad r1 r2. split; split_and!; try by vm_compute.
  - eexists. by vm_compute.
  - eexists. by vm_compute.
  - by_compute.
  - by_compute.
Qed.

(** C1, as the code has it. With a configured exporter and a
    tracer-provider delegate in place, the general setup returns that
    delegate and does nothing but log the warning (when warnings are
    logged): no sampler, propagator, instrumentation or provider is built
    and nothing is registered. Over the whole bootstrap the delegate stays
    the same, no provider is created, every provider keeps its resource
    and its sampler, and every provider other than the delegate keeps its
    span processors. The delegate keeps its span processors too when the
    OneAgent bypass applies or the run fails; otherwise the run goes on
    after the warning, builds an exporter, appends one span processor to
    those of the delegate and obtains the tracer from it. Hence, when the
    bootstrap has run to its end in a process without a delegate, running
    it again, with whatever configuration, leaves exactly one provider
    created, which is the delegate. *)
Theorem bootstrap_reuses_delegate env resource t tracingExporter :
  tracing (telemetry env) = Some t →
  exporter t = Some tracingExporter →
  (∀ s d, st_delegate s = Some d →
     let r := bootstrap env resource s in
     general_setup env t resource s
     = (Ok d, if log_warn env
              then add_events s [EvLog Warn already_initialized] else s)
     ∧ st_delegate (snd r) = Some d
     ∧ (∀ id, provider_core <$> st_providers (snd r) !! id
              = provider_core <$> st_providers s !! id)
     ∧ (∀ id, id ≠ d → processors_of (snd r) id = processors_of s id)
     ∧ (oneagent_present env = true ∨ fst r ≠ Ok tt →
        processors_of (snd r) d = processors_of s d)
     ∧ (oneagent_present env = false → fst r = Ok tt →
        is_Some (st_providers s !! d) →
        ∃ e, processors_of (snd r) d
             = processors_of s d
                 ++ [if production env then BatchSpanProcessor e
                     else SimpleSpanProcessor e]
             ∧ st_tracer (snd r) = Some d)
     ∧ emits (λ e, construction_event e = false) s (snd r))
  ∧ (∀ s0 s1 env' resource',
       st_delegate s0 = None →
       bootstrap env resource s0 = (Ok tt, s1) →
       let s2 := snd (bootstrap env' resource' s1) in
       ∃ id, st_providers s0 !! id = None
             ∧ is_Some (st_providers s2 !! id)
             ∧ st_delegate s1 = Some id ∧ st_delegate s2 = Some id
             ∧ (∀ id', id' ≠ id →
                  provider_core <$> st_providers s2 !! id'
                  = provider_core <$> st_providers s0 !! id')
             ∧ ∃ evs, st_trace s2 = st_trace s0 ++ evs
                      ∧ List.filter is_new_provider evs = [EvNewProvider id]).
Proof.
  intros Ht Hte. split.
  - intros s d Hd r.
    pose proof (general_setup_delegate env t resource s d Hd) as G.
    destruct (bootstrap_reuses env resource s d Hd) as [[D P] E].
    fold r in D, P, E.
    split; [done|]. split; [congruence|]. split; [done|].
    assert (r = (attach_processor env tracingExporter d ;; expose_tracer env)
                  (if log_warn env
                   then add_events s [EvLog Warn already_initialized] else s))
      as Hr.
    { subst r. unfold bootstrap. rewrite Ht, Hte. by rewrite (bind_Ok _ _ _ _ _ G). }
    set (sW := if log_warn env
               then add_events s [EvLog Warn already_initialized] else s) in *.
    assert (st_providers sW = st_providers s ∧ st_delegate sW = Some d)
      as [HW HdW].
    { subst sW. by destruct (log_warn env). }
    assert (∀ id, processors_of sW id = processors_of s id) as HpW.
    { intros id. unfold processors_of. by rewrite HW. }
    rewrite pipeline_run in Hr.
    destruct (oneagent_present env) eqn:Ho.
    + (* the bypass *)
      assert (∀ id, processors_of (snd r) id = processors_of s id) as Hsame.
      { intros id. rewrite Hr, <- HpW. unfold processors_of, bypassed. simpl.
        by destruct (log_info env). }
      split_and!; [by intros; apply Hsame|by intros; apply Hsame|done|done].
    + pose proof (_getExporter_registry env tracingExporter sW) as (Px & _ & _).
      destruct (_getExporter env tracingExporter sW) as [[e|msg] sx] eqn:Ex.
      * destruct (processors_of_attached env d e sW sx) as (A1 & A2 & _).
        split_and!.
        -- intros id Hne. rewrite Hr, <- HpW. simpl.
           change (processors_of (exposed env (attached env d e sW sx)) id)
             with (processors_of (attached env d e sW sx) id).
           by apply A2.
        -- intros [?|Hn]; [done|]. by rewrite Hr in Hn.
        -- intros _ _ Hsome. exists e. rewrite Hr. simpl. split; [|done].
           change (processors_of (exposed env (attached env d e sW sx)) d)
             with (processors_of (attached env d e sW sx) d).
           rewrite A1, HW. destruct Hsome as [tp ->]. by rewrite HpW.
        -- done.
      * simpl in Px.
        assert (∀ id, processors_of (snd r) id = processors_of s id) as Hsame.
        { intros id. rewrite Hr, <- HpW. unfold processors_of. simpl.
          by rewrite Px. }
        split_and!; [by intros; apply Hsame|by intros; apply Hsame| |done].
        intros _ Hn. by rewrite Hr in Hn.
  - intros s0 s1 env' resource' Hd H s2.
    unfold bootstrap in H. rewrite Ht, Hte in H.
    apply bind_Ok_inv in H as (id & sA & Hsetup & H).
    destruct (general_setup_fresh _ _ _ _ _ _ Hd Hsetup)
      as (Hnone & HdA & HsomeA & HcoreA & e1 & e2 & HtA & F1 & F2).
    pose proof (pipeline_reuses env tracingExporter id sA) as R.
    rewrite H in R. simpl in R. destruct R as [[D1 P1] (e3 & T1 & F3)].
    assert (st_delegate s1 = Some id) as Hd1 by congruence.
    destruct (bootstrap_reuses env' resource' s1 id Hd1)
      as [[D2 P2] (e4 & T2 & F4)]. fold s2 in D2, P2, T2.
    exists id. split_and!; try done.
    + specialize (P2 id). specialize (P1 id).
      destruct HsomeA as [tp Htp]. rewrite Htp in P1.
      destruct (st_providers s1 !! id); [|done].
      by destruct (st_providers s2 !! id).
    + congruence.
    + intros id' Hne. rewrite P2, P1. by apply HcoreA.
    + exists (e1 ++ EvNewProvider id :: e2 ++ e3 ++ e4). split.
      * rewrite T2, T1, HtA. by rewrite <- !app_assoc.
      * assert (∀ evs, Forall assembly_event evs →
                       List.filter is_new_provider evs = []) as Ha.
        { intros evs F. apply filter_none.
          eapply Forall_impl; [exact F|]. by intros e (? & ? & ?). }
        assert (∀ evs, Forall pipeline_event evs →
                       List.filter is_new_provider evs = []) as Hp.
        { intros evs F. apply filter_none.
          eapply Forall_impl; [exact F|]. intros e. unfold pipeline_event.
          by destruct e. }
        rewrite List.filter_app. simpl. rewrite !List.filter_app.
        by rewrite (Ha e1), (Ha e2), (Hp e3), (Hp e4).
Qed.

Lemma bootstrap_reuses_delegate_witness :
  let s := Sample.installed in
  let r := bootstrap Sample.env None s in
  let s1 := snd (bootstrap Sample.env None Sample.start) in
  let s2 := snd (bootstrap Sample.env None s1) in
  (general_setup Sample.env Sample.tracing_spec None s
   = (Ok 7, add_events s [EvLog Warn already_initialized])
   ∧ st_delegate (snd r) = Some 7
   ∧ ∃ e, processors_of (snd r) 7 = [SimpleSpanProcessor e])
  ∧ ∃ id, st_delegate s2 = Some id
          ∧ ∃ evs, st_trace s2 = st_trace Sample.start ++ evs
                   ∧ List.filter is_new_provider evs = [EvNewProvider id].
Proof.
  intros s r s1 s2.
  destruct (bootstrap_reuses_delegate Sample.env None Sample.tracing_spec
              Sample.exporter_spec eq_refl eq_refl) as [H1 H2].
  split.
  - destruct (H1 s 7 eq_refl) as (G & D & _ & _ & _ & A & _).
    split; [exact G|]. split; [exact D|].
    destruct A as (e & A & _); [by vm_compute|by vm_compute|by_compute|].
    exists e. exact A.
  - assert (bootstrap Sample.env None Sample.start = (Ok tt, s1)) as E.
    { subst s1. destruct (bootstrap Sample.env None Sample.start) as [o s'] eqn:E.
      simpl. f_equal. change o with (fst (o, s')). rewrite <- E. by vm_compute. }
    destruct (H2 Sample.start s1 Sample.env None eq_refl E)
      as (id & _ & _ & _ & Hd & _ & Hev).
    exists id. split; [exact Hd|exact Hev].
Defined.

(* ===================================================================== *)
(** ** One span processor, or none (lines 126-134) *)
(* ===================================================================== *)

(** C6, as it is stated, fails. With the marker
    [DT_NODE_PRELOAD_OPTIONS] present but empty and a telemetry kind that
    matches [dynatrace], the exporter is built and a span processor is
    attached, because line 126 tests the value of the marker and not its
    presence. A run that fails over an exporter class that is not found,
    without a marker, leaves the provider it has just registered with no
    span processor at all. And so does a run without an exporter entry,
    which returns on line 109. *)
Lemma one_span_processor_claim_fails :
  let empty_marker := Sample.env_in None (Some EmptyString) in
  let r := bootstrap empty_marker None Sample.start in
  let nope := Sample.env_of
                {| telemetry_kind := "telemetry-to-console";
                   token_name := "ingest_apitoken";
                   tracing := Some (Sample.tracing_with
                                      (sampler Sample.tracing_spec) []
                                      {| ex_module := "m2"; ex_class := "Nope";
                                         ex_config := None |});
                   instrumentations := [] |} in
  let r' := bootstrap nope None Sample.start in
  let bare := Sample.env_of
                {| telemetry_kind := "telemetry-to-console";
                   token_name := "ingest_apitoken";
                   tracing := None; instrumentations := [] |} in
  (DT_NODE_PRELOAD_OPTIONS empty_marker = Some EmptyString
   ∧ includes (telemetry_kind (telemetry empty_marker)) "dynatrace" = true
   ∧ fst r = Ok tt
   ∧ processors_of (snd r) 0
     = [SimpleSpanProcessor
          {| exp_module := "m2"; exp_class := "Exp"; exp_config := 0 |}])
  ∧ (DT_NODE_PRELOAD_OPTIONS nope = None
     ∧ (∃ msg, fst r' = Throw msg)
     ∧ st_delegate (snd r') = Some 0
     ∧ is_Some (st_providers (snd r') !! 0)
     ∧ processors_of (snd r') 0 = [])
  ∧ (DT_NODE_PRELOAD_OPTIONS bare = None
     ∧ bootstrap bare None Sample.installed = (Ok tt, Sample.installed)
     ∧ processors_of Sample.installed 7 = []).
Proof.
  intros empty_marker r nope r' bare. split; [|split]; split_and!;
    try by vm_compute.
  - eexists. by vm_compute.
  - by_compute.
Qed.

(** C6, as the code has it. For every run, on a process whose delegate,
    if there is one, is one of its providers: when the configuration has
    no exporter entry, or [DT_NODE_PRELOAD_OPTIONS] is set to a value
    that is not empty and the telemetry kind matches [dynatrace], no
    exporter is built and no span processor is attached to any provider,
    however the run ends. Otherwise, a run that returns has built one
    exporter and attached exactly one span processor: the provider that
    is then the delegate has the span processors it had, if it was there
    before, and one more, a batch processor around that exporter when
    [NODE_ENV] is [production] and a simple one in every other case, and
    every other provider has the span processors it had; a run that
    fails has attached none. *)
Theorem one_span_processor env resource s :
  delegate_exists s →
  let r := bootstrap env resource s in
  (tracing_exporter (telemetry env) = None ∨ oneagent_present env = true →
     same_processors s (snd r)
     ∧ ∃ evs, st_trace (snd r) = st_trace s ++ evs
              ∧ List.filter is_add_processor evs = []
              ∧ List.filter is_new_exporter evs = [])
  ∧ (is_Some (tracing_exporter (telemetry env)) →
     oneagent_present env = false →
     (∀ s', r = (Ok tt, s') →
        ∃ d e evs,
          st_delegate s' = Some d
          ∧ is_Some (st_providers s' !! d)
          ∧ processors_of s' d
            = processors_of s d
                ++ [if production env then BatchSpanProcessor e
                    else SimpleSpanProcessor e]
          ∧ (∀ id, id ≠ d → processors_of s' id = processors_of s id)
          ∧ st_trace s' = st_trace s ++ evs
          ∧ List.filter is_new_exporter evs = [EvNewExporter e]
          ∧ List.filter is_add_processor evs
            = [EvAddSpanProcessor d
                 (if production env then BatchSpanProcessor e
                  else SimpleSpanProcessor e)])
     ∧ (∀ msg s', r = (Throw msg, s') → same_processors s s')).
Proof.
  intros Hex r.
  destruct (tracing_exporter (telemetry env)) as [tracingExporter|] eqn:Hx.
  2: { (* line 109 *)
    assert (r = (Ok tt, s)) as ->.
    { subst r. unfold tracing_exporter in Hx. unfold bootstrap.
      destruct (tracing (telemetry env)) as [t|]; [|done].
      simpl in Hx. by rewrite Hx. }
    split; [|by intros [? ?]].
    intros _. split; [done|]. exists []. by rewrite app_nil_r. }
  assert (∃ t, tracing (telemetry env) = Some t
               ∧ exporter t = Some tracingExporter) as (t & Ht & Hte).
  { unfold tracing_exporter in Hx.
    destruct (tracing (telemetry env)) as [t|]; [|done]. by exists t. }
  assert (r = (tracerProvider <- general_setup env t resource ;;
               attach_processor env tracingExporter tracerProvider ;;
               expose_tracer env) s) as Hr.
  { subst r. unfold bootstrap. by rewrite Ht, Hte. }
  pose proof (general_setup_same_processors env t resource s) as P0.
  pose proof (general_setup_emits env t resource s) as (e1 & T1 & F1).
  assert (List.filter is_add_processor e1 = []
          ∧ List.filter is_new_exporter e1 = []) as [Fa Fx].
  { split; apply filter_none; (eapply Forall_impl; [exact F1|]);
      by intros ? [? ?]. }
  destruct (general_setup env t resource s) as [[d|msg] sA] eqn:G;
    simpl in P0, T1.
  2: { (* the general setup fails *)
    rewrite (bind_Throw _ _ _ _ _ G) in Hr. split.
    - intros _. rewrite Hr. simpl. split; [done|]. by exists e1.
    - intros _ _. split; [by rewrite Hr|].
      intros msg' s' E. rewrite Hr in E. by simplify_eq. }
  pose proof (general_setup_exists _ _ _ _ _ _ Hex G) as Hsome.
  apply general_setup_Ok in G as G'. destruct G' as [HdA _].
  rewrite (bind_Ok _ _ _ _ _ G), pipeline_run in Hr.
  destruct (oneagent_present env) eqn:Ho;
    [split; [|done] | split; [by intros [?|?]|]].
  - (* the bypass *)
    intros _. rewrite Hr. simpl. split.
    + intros id. rewrite <- (P0 id). unfold processors_of, bypassed. simpl.
      by destruct (log_info env).
    + destruct (expose_events_filters env) as (X1 & X2 & _).
      exists (e1 ++ (if log_info env then [EvLog Info oneagent_detected] else [])
                 ++ expose_events env).
      split_and!.
      * unfold bypassed. destruct (log_info env); simpl; rewrite T1;
          by rewrite <- !app_assoc.
      * rewrite !List.filter_app, Fa, X2. by destruct (log_info env).
      * rewrite !List.filter_app, Fx, X1. by destruct (log_info env).
  - intros _ _.
    pose proof (_getExporter_registry env tracingExporter sA) as (Px & _ & _).
    destruct (_getExporter env tracingExporter sA) as [[e|msg] sx] eqn:Ex;
      simpl in Px.
    + split; [|intros msg s' E; by rewrite Hr in E].
      intros s' E. rewrite Hr in E. injection E as <-.
      destruct (processors_of_attached env d e sA sx) as (A1 & A2 & _).
      destruct (attach_events_filters env d e) as (B1 & B2 & _).
      destruct (expose_events_filters env) as (X1 & X2 & _).
      exists d, e, (e1 ++ attach_events env d e ++ expose_events env).
      split_and!.
      * done.
      * simpl. rewrite lookup_alter_eq. destruct Hsome as [tp ->]. by eexists.
      * change (processors_of (exposed env (attached env d e sA sx)) d)
          with (processors_of (attached env d e sA sx) d).
        rewrite A1. destruct Hsome as [tp ->]. by rewrite P0.
      * intros id Hne.
        change (processors_of (exposed env (attached env d e sA sx)) id)
          with (processors_of (attached env d e sA sx) id).
        by rewrite A2, P0.
      * unfold exposed, attached. cbn [st_trace]. rewrite T1.
        by rewrite <- !app_assoc.
      * rewrite !List.filter_app, Fx, B1, X1. done.
      * rewrite !List.filter_app, Fa, B2, X2. done.
    + split; [intros s' E; by rewrite Hr in E|].
      intros msg' s' E. rewrite Hr in E. injection E as _ <-.
      intros id. rewrite <- (P0 id). unfold processors_of. by rewrite Px.
Qed.

Lemma one_span_processor_witness :
  let agent := Sample.env_in (Some "production") (Some "/opt/dynatrace/agent.js") in
  let prod := Sample.env_in (Some "production") None in
  let dev := Sample.env_in (Some "development") None in
  let after env := snd (bootstrap env None Sample.installed) in
  processors_of (after agent) 7 = []
  ∧ (∃ e, processors_of (after prod) 7 = [BatchSpanProcessor e])
  ∧ (∃ e, processors_of (after dev) 7 = [SimpleSpanProcessor e]).
Proof.
  intros agent prod dev after.
  assert (delegate_exists Sample.installed) as Hex.
  { intros d Hd. injection Hd as <-. by_compute. }
  assert (∀ env, bootstrap env None Sample.installed
                 = (fst (bootstrap env None Sample.installed),
                    snd (bootstrap env None Sample.installed))) as Hpair.
  { intros env. by destruct (bootstrap env None Sample.installed). }
  split_and!.
  - destruct (one_span_processor agent None Sample.installed Hex) as [H _].
    destruct (H (or_intror eq_refl)) as [Hsame _]. unfold after.
    by rewrite Hsame.
  - destruct (one_span_processor prod None Sample.installed Hex) as [_ H].
    destruct (H (mk_is_Some _ _ eq_refl) eq_refl) as [H1 _].
    destruct (H1 (after prod)) as (d & e & evs & Hd & _ & Hp & _).
    { rewrite (Hpair prod) at 1. by vm_compute. }
    exists e. assert (d = 7) as -> by (vm_compute in Hd; congruence).
    exact Hp.
  - destruct (one_span_processor dev None Sample.installed Hex) as [_ H].
    destruct (H (mk_is_Some _ _ eq_refl) eq_refl) as [H1 _].
    destruct (H1 (after dev)) as (d & e & evs & Hd & _ & Hp & _).
    { rewrite (Hpair dev) at 1. by vm_compute. }
    exists e. assert (d = 7) as -> by (vm_compute in Hd; congruence).
    exact Hp.
Defined.
